(** * Thesis repository: retrieval, ranking and RAG orchestration

    A shallow embedding of the backend services of the AI-powered thesis
    repository (vector utilities, AI service, embedding service, search
    service and chat service) together with the properties stated for them.

    Conventions of the embedding.
    - A JavaScript string is the list of its UTF-16 code units ([jsstring]).
    - A JavaScript number is an element of a [Number] structure, which
      [Float64] instantiates with the kernel's binary64 floats, the numbers
      the program runs on.
    - [null]/[undefined] are [None]; a thrown exception is [Throw e].
    - Calls to the language model, the embedding endpoint and the database go
      through a [World] of collaborators and are recorded in a trace.
    - Logger calls are left out: they return nothing and decide nothing. *)

From Stdlib Require Import List ZArith NArith PArith Lia Bool String Ascii.
From Stdlib Require Import Floats.
From Stdlib Require Import Sorting.Sorted Sorting.Permutation.
Import ListNotations.

Set Implicit Arguments.
Local Open Scope list_scope.

(* ================================================================= *)
(** ** JavaScript strings *)

Module JsString.

(** A string is a sequence of UTF-16 code units. *)
Definition jsstring := list N.

Fixpoint lit (s : string) : jsstring :=
  match s with
  | EmptyString => []
  | String c s' => N_of_ascii c :: lit s'
  end.

Definition nl : jsstring := [10%N].       (* line feed *)
Definition dq : jsstring := [34%N].       (* double quote *)
Definition arrow : jsstring := [8594%N].  (* U+2192 *)

Definition str_eqb (a b : jsstring) : bool :=
  if list_eq_dec N.eq_dec a b then true else false.

(** [String.prototype.length] *)
Definition strlen (s : jsstring) : Z := Z.of_nat (List.length s).

(** WhiteSpace and LineTerminator code units, as [trim] sees them. *)
Definition isWhiteSpace (c : N) : bool :=
  (N.eqb c 9 || N.eqb c 10 || N.eqb c 11 || N.eqb c 12 || N.eqb c 13
   || N.eqb c 32 || N.eqb c 160 || N.eqb c 5760
   || (N.leb 8192 c && N.leb c 8202)
   || N.eqb c 8232 || N.eqb c 8233 || N.eqb c 8239 || N.eqb c 8287
   || N.eqb c 12288 || N.eqb c 65279)%bool.

Fixpoint trimStart (s : jsstring) : jsstring :=
  match s with
  | c :: s' => if isWhiteSpace c then trimStart s' else s
  | [] => []
  end.

Definition trimEnd (s : jsstring) : jsstring := rev (trimStart (rev s)).

(** [String.prototype.trim] *)
Definition trim (s : jsstring) : jsstring := trimEnd (trimStart s).

Definition isQuote (c : N) : bool := (N.eqb c 34 || N.eqb c 39)%bool.

Definition dropLeadingQuote (s : jsstring) : jsstring :=
  match s with
  | c :: s' => if isQuote c then s' else s
  | [] => []
  end.

(** [s.replace(/^["']|["']$/g, '')]: the first alternative can only match
    the code unit at index 0, the second only the last code unit, and a
    code unit consumed by the first match is not matched again. *)
Definition stripSurroundingQuotes (s : jsstring) : jsstring :=
  match s with
  | c :: s' =>
      if isQuote c then rev (dropLeadingQuote (rev s'))
      else rev (dropLeadingQuote (rev s))
  | [] => []
  end.

(** [s.replace(/\n+/g, ' ')]: every maximal run of line feeds becomes one
    space. *)
Fixpoint collapseNewlines (s : jsstring) : jsstring :=
  match s with
  | [] => []
  | c :: s' =>
      if N.eqb c 10 then
        match s' with
        | c' :: _ => if N.eqb c' 10 then collapseNewlines s'
                     else 32%N :: collapseNewlines s'
        | [] => [32%N]
        end
      else c :: collapseNewlines s'
  end.

(** [arr.join(sep)] *)
Fixpoint join (sep : jsstring) (l : list jsstring) : jsstring :=
  match l with
  | [] => []
  | [x] => x
  | x :: l' => x ++ sep ++ join sep l'
  end.

Definition digit (n : nat) : N := (48 + N.of_nat n)%N.

Fixpoint decimal_aux (fuel n : nat) (acc : jsstring) : jsstring :=
  match fuel with
  | O => acc
  | S fuel' =>
      let acc' := digit (n mod 10) :: acc in
      if Nat.ltb n 10 then acc' else decimal_aux fuel' (n / 10) acc'
  end.

(** Decimal rendering of a non-negative integer inside a template. *)
Definition decimal (n : nat) : jsstring := decimal_aux (S n) n [].

End JsString.
Import JsString.

(* ================================================================= *)
(** ** JavaScript numbers *)

(** The operations the services apply to numbers.  [ltb a b] is [a < b],
    [leb a b] is [a <= b] and [eqb a b] is [a === b]. *)
Class Number : Type := {
  num : Type;
  zero : num;
  add : num -> num -> num;
  sub : num -> num -> num;
  mul : num -> num -> num;
  div : num -> num -> num;
  sqrt : num -> num;
  ltb : num -> num -> bool;
  leb : num -> num -> bool;
  eqb : num -> num -> bool;
  ofN : N -> num
}.

Section NumberOps.
Context {NM : Number}.

Definition geb (a b : num) : bool := leb b a.   (* a >= b *)

(** A number that compares with itself is not NaN. *)
Definition comparable (a : num) : bool := leb a a.

(** ToBoolean on a number: [0], [-0] and [NaN] are falsy. *)
Definition truthy (a : num) : bool := (negb (eqb a zero) && eqb a a)%bool.

(** [a || b] on numbers. *)
Definition orElse (a b : num) : num := if truthy a then a else b.

Definition one : num := ofN 1.

(** The decimal literal [0.n]: the number nearest to [n / 10], which a
    correctly rounded division returns. *)
Definition tenths (n : N) : num := div (ofN n) (ofN 10).
End NumberOps.

(** Facts of the order and of subtraction that the ranking code relies on.
    Each of them holds of IEEE 754 binary64 numbers, NaN and infinities
    included ([Float64_order], [Float64_sub]). *)
Class OrderLaws (NM : Number) : Prop := {
  leb_ltb : forall a b : num, leb a b = true -> ltb b a = false;
  ltb_leb : forall a b : num, ltb a b = true -> leb a b = true;
  leb_comparable : forall a b : num,
      leb a b = true -> comparable a = true /\ comparable b = true;
  leb_total : forall a b : num,
      comparable a = true -> comparable b = true ->
      ltb a b = false -> leb b a = true;
  leb_trans : forall a b c : num,
      leb a b = true -> leb b c = true -> leb a c = true
}.

Class SubLaws (NM : Number) : Prop := {
  (** The sign of a difference agrees with the order of its operands. *)
  sub_pos : forall a b : num, ltb zero (sub b a) = ltb a b
}.

(** Binary64 floats.  [ofN] is exact below 2^53, far above the code units
    and constants the services convert. *)
Definition Float64 : Number := {|
  num := float;
  zero := 0%float;
  add := PrimFloat.add;
  sub := PrimFloat.sub;
  mul := PrimFloat.mul;
  div := PrimFloat.div;
  sqrt := PrimFloat.sqrt;
  ltb := PrimFloat.ltb;
  leb := PrimFloat.leb;
  eqb := PrimFloat.eqb;
  ofN := fun n => PrimFloat.of_uint63 (Uint63.of_Z (Z.of_N n))
|}.

(* ================================================================= *)
(** ** Exceptions and results *)

Inductive exn : Type :=
| Error (message : jsstring)        (* [new Error(message)] *)
| TypeError (message : jsstring).   (* raised by the runtime *)

Definition messageOf (e : exn) : jsstring :=
  match e with Error m | TypeError m => m end.

Inductive result (A : Type) : Type :=
| Ok (a : A)
| Throw (e : exn).
Arguments Ok {A} a.
Arguments Throw {A} e.

(* ================================================================= *)
(** ** utils/vectorUtils.js *)

Module VectorUtils.
Section VectorUtils.
Context {NM : Number}.

Definition vector := list num.

(** The error every function of this module raises on its guard
    [!vecA || !vecB || vecA.length !== vecB.length]. *)
Definition DimensionMismatch : exn :=
  Error (lit "Vectors must be of the same length").

(** The guard: both vectors are present and have the same length. *)
Definition guarded (vecA vecB : option vector) : option (vector * vector) :=
  match vecA, vecB with
  | Some a, Some b =>
      if Nat.eqb (List.length a) (List.length b) then Some (a, b) else None
  | _, _ => None
  end.

Definition cosineLoop (a b : vector) : num * num * num :=
  fold_left
    (fun '(dotProduct, normA, normB) '(x, y) =>
       (add dotProduct (mul x y), add normA (mul x x), add normB (mul y y)))
    (combine a b) (zero, zero, zero).

Definition cosineSimilarity (vecA vecB : option vector) : result num :=
  match guarded vecA vecB with
  | None => Throw DimensionMismatch
  | Some (a, b) =>
      let '(dotProduct, normA, normB) := cosineLoop a b in
      let normA := sqrt normA in
      let normB := sqrt normB in
      if (eqb normA zero || eqb normB zero)%bool then Ok zero
      else Ok (div dotProduct (mul normA normB))
  end.

Definition euclideanDistance (vecA vecB : option vector) : result num :=
  match guarded vecA vecB with
  | None => Throw DimensionMismatch
  | Some (a, b) =>
      let sum :=
        fold_left (fun sum '(x, y) => let diff := sub x y in
                                      add sum (mul diff diff))
                  (combine a b) zero in
      Ok (sqrt sum)
  end.

Definition dotProduct (vecA vecB : option vector) : result num :=
  match guarded vecA vecB with
  | None => Throw DimensionMismatch
  | Some (a, b) =>
      Ok (fold_left (fun product '(x, y) => add product (mul x y))
                    (combine a b) zero)
  end.

(** [vec.reduce((sum, val) => sum + val * val, 0)] *)
Definition sumSquares (vec : vector) : num :=
  fold_left (fun sum val => add sum (mul val val)) vec zero.

Definition normalizeVector (vec : vector) : vector :=
  let norm := sqrt (sumSquares vec) in
  if eqb norm zero then vec else map (fun val => div val norm) vec.

(** The Euclidean norm as the code computes it. *)
Definition norm (vec : vector) : num := sqrt (sumSquares vec).

End VectorUtils.
End VectorUtils.
Import VectorUtils.

(* ================================================================= *)
(** ** Documents, queries and collaborators *)

Section Model.
Context {NM : Number}.

(** A thesis document as the services see it: a plain object whose fields
    other than [_id] may be missing.  [score] is the field the search
    paths add. *)
Record Thesis : Type := mkThesis {
  _id : jsstring;
  title : option jsstring;
  abstract : option jsstring;
  embeddings : option vector;
  tags : option (list jsstring);
  createdAt : option N;
  updatedAt : option N;
  score : option num
}.

(** [{ ...thesis, score, embeddings: undefined }] *)
Definition withScore (thesis : Thesis) (s : num) : Thesis :=
  {| _id := _id thesis; title := title thesis; abstract := abstract thesis;
     embeddings := None; tags := tags thesis;
     createdAt := createdAt thesis; updatedAt := updatedAt thesis;
     score := Some s |}.

Inductive Field : Type :=
| FTitle | FAbstract | FTags | FCreatedAt | FUpdatedAt | FEmbeddings | FScore.

Definition field_eqb (f g : Field) : bool :=
  match f, g with
  | FTitle, FTitle | FAbstract, FAbstract | FTags, FTags
  | FCreatedAt, FCreatedAt | FUpdatedAt, FUpdatedAt
  | FEmbeddings, FEmbeddings | FScore, FScore => true
  | _, _ => false
  end.

(** Stages of an aggregation pipeline, as [atlasVectorSearch] builds them. *)
Inductive Stage : Type :=
| VectorSearch (index path : jsstring) (queryVector : option vector)
               (numCandidates : Z) (limit : Z)
| AddFieldsScoreMeta                (* score: { $meta: 'vectorSearchScore' } *)
| MatchScoreGte (threshold : num)   (* score: { $gte: threshold } *)
| Project (fields : list Field).    (* field: 1 for each listed field *)

(** Query filters of [Thesis.find]. *)
Inductive Filter : Type :=
| FilterAll                         (* {} *)
| FilterIdNe (id : jsstring).       (* { _id: { $ne: id } } *)

(** The text field of the response to a completion request: a string,
    [null], or nothing at all. *)
Inductive Completion : Type :=
| Text (text : jsstring)
| NullText
| NoText.

(** Calls that leave the process. *)
Inductive Event : Type :=
| CallGenerate (prompt : jsstring) (temperature : num) (maxTokens : N)
| CallEmbeddings (text : jsstring)
| CallVectorIndex (index path : jsstring) (queryVector : option vector)
                  (numCandidates : Z) (limit : Z)
| CallFind (filter : Filter)
| CallFindById (id : jsstring).

Inductive Provider : Type := Ollama | Groq | OtherProvider.

(** The collaborators.  Every answer may depend on the calls made so far.
    - [llm]: the completion endpoint; its answer is the text field of the
      response, which may be [null] or missing.
    - [embeddingsEndpoint]: the native embedding endpoint.
    - [vectorIndex]: the [$vectorSearch] stage of the database: candidate
      documents with their index-native score.
    - [collection]: the stored theses, in storage order. *)
Record World : Type := mkWorld {
  provider : Provider;
  llm : list Event -> jsstring -> num -> N -> result Completion;
  embeddingsEndpoint : list Event -> jsstring -> result (option vector);
  vectorIndex : list Event -> jsstring -> jsstring -> option vector ->
                Z -> Z -> result (list (Thesis * num));
  collection : list Event -> result (list Thesis)
}.

(** *** Computations: a trace of calls and a result or an exception *)

Definition M (A : Type) : Type := list Event -> result A * list Event.

Definition ret {A} (a : A) : M A := fun tr => (Ok a, tr).

Definition throw {A} (e : exn) : M A := fun tr => (Throw e, tr).

Definition bind {A B} (m : M A) (k : A -> M B) : M B :=
  fun tr =>
    match m tr with
    | (Ok a, tr') => k a tr'
    | (Throw e, tr') => (Throw e, tr')
    end.

(** [try { m } catch (error) { handler(error) }] *)
Definition tryCatch {A} (m : M A) (handler : exn -> M A) : M A :=
  fun tr =>
    match m tr with
    | (Ok a, tr') => (Ok a, tr')
    | (Throw e, tr') => handler e tr'
    end.

Definition liftResult {A} (r : result A) : M A := fun tr => (r, tr).

(** An external call: the answer is computed from the calls made before
    it, and the call is appended to the trace. *)
Definition call {A} (ev : Event) (answer : list Event -> result A) : M A :=
  fun tr => (answer tr, tr ++ [ev]).

Definition run {A} (m : M A) : result A := fst (m []).
Definition calls {A} (m : M A) : list Event := snd (m []).

End Model.

Notation "x <- m ;; k" := (bind m (fun x => k))
  (at level 61, m at next level, right associativity).

Definition default {A} (d : A) (o : option A) : A :=
  match o with Some a => a | None => d end.

(* ================================================================= *)
(** ** services/aiService.js *)

Module AiService.
Section AiService.
Context {NM : Number} (w : World).

Record GenOptions : Type := mkGenOptions {
  temperature : option num;
  maxTokens : option N
}.

Definition generateText (prompt : jsstring) (options : GenOptions)
  : M Completion :=
  tryCatch
    (let temperature := default (tenths 7) (temperature options) in
     let maxTokens := default 1000%N (maxTokens options) in
     match provider w with
     | Ollama =>
         call (CallGenerate prompt temperature maxTokens)
              (fun tr => llm w tr prompt temperature maxTokens)
     | Groq =>
         call (CallGenerate prompt temperature maxTokens)
              (fun tr => llm w tr prompt temperature maxTokens)
     | OtherProvider => ret NoText
     end)
    (fun error =>
       throw (Error (lit "AI text generation failed: " ++ messageOf error))).

Definition dimension : nat := 768.

(** [embedding[index] += delta]; [index] is below the length wherever the
    service uses it. *)
Fixpoint addAt (index : nat) (delta : num) (embedding : vector) : vector :=
  match embedding, index with
  | [], _ => []
  | val :: rest, O => add val delta :: rest
  | val :: rest, S index' => val :: addAt index' delta rest
  end.

(** The loop over the code units of [text]. *)
Definition accumulate (text : jsstring) : vector :=
  fold_left
    (fun embedding charCode =>
       let index := N.to_nat (charCode mod N.of_nat dimension) in
       addAt index (div (ofN charCode) (ofN 1000)) embedding)
    text (repeat zero dimension).

Definition simulateEmbeddings (text : jsstring) : vector :=
  let embedding := accumulate text in
  let norm := sqrt (sumSquares embedding) in
  map (fun val => div val (orElse norm one)) embedding.

Definition generateEmbeddings (text : jsstring) : M (option vector) :=
  tryCatch
    (match provider w with
     | Ollama =>
         call (CallEmbeddings text) (fun tr => embeddingsEndpoint w tr text)
     | Groq => ret (Some (simulateEmbeddings text))
     | OtherProvider => ret None
     end)
    (fun error =>
       throw (Error (lit "Embedding generation failed: " ++ messageOf error))).

End AiService.
End AiService.

(* ================================================================= *)
(** ** services/embeddingService.js *)

Module EmbeddingService.
Section EmbeddingService.
Context {NM : Number} (w : World).

Definition generateQueryEmbedding (query : jsstring) : M (option vector) :=
  tryCatch
    (embeddings <- AiService.generateEmbeddings w query ;;
     ret embeddings)
    (fun error =>
       throw (Error (lit "Failed to generate query embedding: "
                     ++ messageOf error))).

End EmbeddingService.
End EmbeddingService.

(* ================================================================= *)
(** ** Arrays and the database driver *)

Section Arrays.
Context {NM : Number}.

(** [arr.slice(0, end)]: a negative [end] counts from the end. *)
Definition slice0 {A} (arr : list A) (end_ : Z) : list A :=
  let len := Z.of_nat (List.length arr) in
  let final := if (end_ <? 0)%Z then Z.max (len + end_) 0
               else Z.min end_ len in
  firstn (Z.to_nat final) arr.

(** A comparator returns a number, or NaN ([None]) when an operand of its
    subtraction is missing. *)
Definition subOpt (a b : option num) : option num :=
  match a, b with
  | Some x, Some y => Some (sub x y)
  | _, _ => None
  end.

Definition isPositive (v : option num) : bool :=
  match v with Some x => ltb zero x | None => false end.

(** [arr.sort(compareFn)].  The language fixes no algorithm but requires a
    stable sort; this is the stable insertion sort, in which an element moves
    behind a later one only when [compareFn] is positive on the pair.  For
    a comparator that orders the elements consistently every stable sort
    returns the same array. *)
Fixpoint insertSorted {A} (compareFn : A -> A -> option num)
         (x : A) (sorted : list A) : list A :=
  match sorted with
  | [] => [x]
  | y :: rest =>
      if isPositive (compareFn x y) then y :: insertSorted compareFn x rest
      else x :: sorted
  end.

Definition sort {A} (compareFn : A -> A -> option num) (arr : list A)
  : list A :=
  fold_right (insertSorted compareFn) [] arr.

(** [arr.map(f)] where [f] may throw: the first exception ends the map. *)
Fixpoint mapThrowing {A B} (f : A -> result B) (arr : list A)
  : result (list B) :=
  match arr with
  | [] => Ok []
  | x :: rest =>
      match f x with
      | Throw e => Throw e
      | Ok y =>
          match mapThrowing f rest with
          | Throw e => Throw e
          | Ok ys => Ok (y :: ys)
          end
      end
  end.

(** [score >= threshold] on a document; a missing score fails it. *)
Definition scoreGte (threshold : num) (doc : Thesis) : bool :=
  match score doc with
  | Some s => geb s threshold
  | None => false
  end.

Definition matchesFilter (f : Filter) (doc : Thesis) : bool :=
  match f with
  | FilterAll => true
  | FilterIdNe id => negb (str_eqb (_id doc) id)
  end.

Definition keeps (fields : list Field) (f : Field) : bool :=
  existsb (field_eqb f) fields.

Definition pick {A} (fields : list Field) (f : Field) (v : option A)
  : option A :=
  if keeps fields f then v else None.

(** Inclusion projection; [_id] is always kept. *)
Definition project (fields : list Field) (doc : Thesis) : Thesis :=
  {| _id := _id doc;
     title := pick fields FTitle (title doc);
     abstract := pick fields FAbstract (abstract doc);
     embeddings := pick fields FEmbeddings (embeddings doc);
     tags := pick fields FTags (tags doc);
     createdAt := pick fields FCreatedAt (createdAt doc);
     updatedAt := pick fields FUpdatedAt (updatedAt doc);
     score := pick fields FScore (score doc) |}.

Definition setScore (doc : Thesis) (s : option num) : Thesis :=
  {| _id := _id doc; title := title doc; abstract := abstract doc;
     embeddings := embeddings doc; tags := tags doc;
     createdAt := createdAt doc; updatedAt := updatedAt doc;
     score := s |}.

(** One stage after the first, on documents paired with their
    [vectorSearchScore] metadata. *)
Definition applyStage (stage : Stage) (docs : list (Thesis * option num))
  : result (list (Thesis * option num)) :=
  match stage with
  | VectorSearch _ _ _ _ _ =>
      Throw (Error (lit "$vectorSearch is only valid as the first stage"))
  | AddFieldsScoreMeta =>
      Ok (map (fun '(doc, meta) => (setScore doc meta, meta)) docs)
  | MatchScoreGte threshold =>
      Ok (filter (fun '(doc, _) => scoreGte threshold doc) docs)
  | Project fields =>
      Ok (map (fun '(doc, meta) => (project fields doc, meta)) docs)
  end.

Fixpoint applyStages (stages : list Stage)
         (docs : list (Thesis * option num))
  : result (list (Thesis * option num)) :=
  match stages with
  | [] => Ok docs
  | stage :: rest =>
      match applyStage stage docs with
      | Throw e => Throw e
      | Ok docs' => applyStages rest docs'
      end
  end.

Variable w : World.

(** [Thesis.find(filter).lean()] *)
Definition find (f : Filter) : M (list Thesis) :=
  call (CallFind f)
       (fun tr => match collection w tr with
                  | Ok docs => Ok (filter (matchesFilter f) docs)
                  | Throw e => Throw e
                  end).

(** [Thesis.findById(id)] *)
Definition findById (id : jsstring) : M (option Thesis) :=
  call (CallFindById id)
       (fun tr => match collection w tr with
                  | Ok docs =>
                      Ok (List.find (fun doc => str_eqb (_id doc) id) docs)
                  | Throw e => Throw e
                  end).

(** [Thesis.aggregate(pipeline)] *)
Definition aggregate (pipeline : list Stage) : M (list Thesis) :=
  match pipeline with
  | VectorSearch index path queryVector numCandidates limit :: rest =>
      candidates <- call (CallVectorIndex index path queryVector
                                          numCandidates limit)
                         (fun tr => vectorIndex w tr index path queryVector
                                                numCandidates limit) ;;
      docs <- liftResult
                (applyStages rest
                   (map (fun '(doc, s) => (doc, Some s)) candidates)) ;;
      ret (map fst docs)
  | _ =>
      stored <- find FilterAll ;;
      docs <- liftResult
                (applyStages pipeline (map (fun doc => (doc, None)) stored)) ;;
      ret (map fst docs)
  end.

End Arrays.

(* ================================================================= *)
(** ** services/searchService.js *)

Module SearchService.
Section SearchService.
Context {NM : Number} (w : World).

Record SearchOptions : Type := mkSearchOptions {
  limit : option Z;
  threshold : option num
}.

(** [(a, b) => b.score - a.score] *)
Definition byScoreDesc (a b : Thesis) : option num :=
  subOpt (score b) (score a).

(** The fixed candidate pool of the index query. *)
Definition numCandidates : Z := 100.

(** The defaults of [semanticSearch]: [{ limit = 10, threshold = 0.5 }]. *)
Definition defaultLimit : Z := 10.
Definition defaultThreshold : num := tenths 5.

Definition pipeline (queryEmbedding : option vector) (limit : Z)
           (threshold : num) : list Stage :=
  [ VectorSearch (lit "semanticsearch") (lit "embeddings") queryEmbedding
                 numCandidates limit;
    AddFieldsScoreMeta;
    MatchScoreGte threshold;
    Project [FTitle; FAbstract; FTags; FCreatedAt; FScore] ].

Definition atlasVectorSearch (queryEmbedding : option vector) (limit : Z)
           (threshold : num) : M (list Thesis) :=
  tryCatch
    (results <- aggregate w (pipeline queryEmbedding limit threshold) ;;
     ret results)
    (fun _ => throw (Error (lit "Atlas Vector Search not configured"))).

(** The callback of [allTheses.map] in both scans. *)
Definition scoreAgainst (reference : option vector) (thesis : Thesis)
  : result Thesis :=
  match dotProduct reference (embeddings thesis) with
  | Ok s => Ok (withScore thesis s)
  | Throw e => Throw e
  end.

(** The ranking of the manual path, after the scan. *)
Definition rankManual (queryEmbedding : option vector) (limit : Z)
           (threshold : num) (allTheses : list Thesis)
  : result (list Thesis) :=
  match mapThrowing (scoreAgainst queryEmbedding) allTheses with
  | Throw e => Throw e
  | Ok resultsWithScores =>
      let filteredResults :=
        slice0 (sort byScoreDesc
                     (filter (scoreGte threshold) resultsWithScores))
               limit in
      Ok filteredResults
  end.

Definition manualVectorSearch (queryEmbedding : option vector) (limit : Z)
           (threshold : num) : M (list Thesis) :=
  tryCatch
    (allTheses <- find w FilterAll ;;
     liftResult (rankManual queryEmbedding limit threshold allTheses))
    (fun error => throw error).

Definition semanticSearch (query : jsstring) (options : SearchOptions)
  : M (list Thesis) :=
  tryCatch
    (let limit := default defaultLimit (limit options) in
     let threshold := default defaultThreshold (threshold options) in
     queryEmbedding <- EmbeddingService.generateQueryEmbedding w query ;;
     early <- tryCatch
                (results <- atlasVectorSearch queryEmbedding limit
                                              threshold ;;
                 if (0 <? Z.of_nat (List.length results))%Z
                 then ret (Some results) else ret None)
                (fun atlasError => ret None) ;;
     match early with
     | Some results => ret results
     | None =>
         results <- manualVectorSearch queryEmbedding limit threshold ;;
         ret results
     end)
    (fun error =>
       throw (Error (lit "Semantic search failed: " ++ messageOf error))).

(** The ranking of [findSimilarTheses], after the two queries. *)
Definition rankSimilar (referenceThesis : Thesis) (limit : Z)
           (allTheses : list Thesis) : result (list Thesis) :=
  match mapThrowing (scoreAgainst (embeddings referenceThesis)) allTheses with
  | Throw e => Throw e
  | Ok resultsWithScores =>
      let similarTheses := slice0 (sort byScoreDesc resultsWithScores) limit in
      Ok similarTheses
  end.

Definition findSimilarTheses (thesisId : jsstring) (limit : option Z)
  : M (list Thesis) :=
  tryCatch
    (let limit := default 5%Z limit in
     referenceThesis <- findById w thesisId ;;
     match referenceThesis with
     | None => throw (Error (lit "Thesis not found"))
     | Some referenceThesis =>
         allTheses <- find w (FilterIdNe thesisId) ;;
         liftResult (rankSimilar referenceThesis limit allTheses)
     end)
    (fun error =>
       throw (Error (lit "Similar thesis search failed: "
                     ++ messageOf error))).

End SearchService.
End SearchService.

(* ================================================================= *)
(** ** services/chatService.js *)

Section Conversation.
Context {NM : Number}.

Record Turn : Type := mkTurn { role : jsstring; content : jsstring }.

Record Source : Type := mkSource {
  id : jsstring;
  sourceTitle : option jsstring;
  sourceTags : option (list jsstring);
  relevanceScore : option num
}.

(** What a caller can pass as conversation history: nothing, one of the
    falsy values that the request validator lets through with arrays
    ([null], [false], [0] and the empty string), or an array whose entries
    are turns or [null]. *)
Inductive History : Type :=
| HistoryUndefined
| HistoryNull
| HistoryFalse
| HistoryZero
| HistoryEmptyString
| HistoryArray (entries : list (option Turn)).

Record ChatResult : Type := mkChatResult {
  answer : jsstring;
  sources : list Source;
  conversationHistory : list (option Turn)
}.

(** The options of the two retrieval chat services. *)
Record ProcessOptions : Type := mkProcessOptions {
  historyOption : History;           (* options.conversationHistory *)
  topKOption : option Z              (* options.topK *)
}.

(** The options of the chat without retrieval, whose one caller passes an
    array of turns. *)
Record ChatOptions : Type := mkChatOptions {
  optHistory : option (list Turn)    (* options.conversationHistory *)
}.

(** A value inside a template literal. *)
Definition show (v : option jsstring) : jsstring :=
  default (lit "undefined") v.

(** [`${turn.role === 'user' ? 'User' : 'Assistant'}: ${turn.content}\n`] *)
Definition turnLine (turn : Turn) : jsstring :=
  (if str_eqb (role turn) (lit "user") then lit "User" else lit "Assistant")
    ++ lit ": " ++ content turn ++ nl.

(** [arr.slice(-n)] *)
Definition lastN {A} (n : nat) (arr : list A) : list A :=
  skipn (List.length arr - n) arr.

(** The destructuring default [{ conversationHistory = [] }], which
    replaces [undefined] and nothing else. *)
Definition orEmpty (conversationHistory : History) : History :=
  match conversationHistory with
  | HistoryUndefined => HistoryArray []
  | _ => conversationHistory
  end.

(** The entries of an array; the other values have none. *)
Definition entriesOf (conversationHistory : History) : list (option Turn) :=
  match conversationHistory with
  | HistoryArray entries => entries
  | _ => []
  end.

(** [conversationHistory.length > 0]: reading [length] throws on [null]
    and [undefined], and is [undefined] on [false] and [0]. *)
Definition hasTurns (conversationHistory : History) : result bool :=
  match conversationHistory with
  | HistoryUndefined =>
      Throw (TypeError (lit "Cannot read properties of undefined (reading 'length')"))
  | HistoryNull =>
      Throw (TypeError (lit "Cannot read properties of null (reading 'length')"))
  | HistoryFalse | HistoryZero | HistoryEmptyString => Ok false
  | HistoryArray entries => Ok (0 <? Z.of_nat (List.length entries))%Z
  end.

(** [[...conversationHistory]]: the empty string spreads to nothing, the
    other values that are not arrays are not iterable. *)
Definition spread (conversationHistory : History)
  : result (list (option Turn)) :=
  match conversationHistory with
  | HistoryArray entries => Ok entries
  | HistoryEmptyString => Ok []
  | _ => Throw (TypeError (lit "conversationHistory is not iterable"))
  end.

(** The line of one entry; reading [role] throws on [null]. *)
Definition entryLine (entry : option Turn) : result jsstring :=
  match entry with
  | Some turn => Ok (turnLine turn)
  | None =>
      Throw (TypeError (lit "Cannot read properties of null (reading 'role')"))
  end.

(** [entries.forEach((turn) => { text += line(turn) })] *)
Fixpoint appendLines (text : jsstring) (entries : list (option Turn))
  : result jsstring :=
  match entries with
  | [] => Ok text
  | entry :: rest =>
      match entryLine entry with
      | Throw e => Throw e
      | Ok line => appendLines (text ++ line) rest
      end
  end.

Definition userTurn (message : jsstring) : Turn :=
  {| role := lit "user"; content := message |}.

Definition assistantTurn (answer : jsstring) : Turn :=
  {| role := lit "assistant"; content := answer |}.

Definition noResultsAnswer : jsstring :=
  lit "I couldn't find any relevant theses in the repository to answer your question. Please try rephrasing your query or asking about different topics.".

Definition toSource (thesis : Thesis) : Source :=
  {| id := _id thesis; sourceTitle := title thesis;
     sourceTags := tags thesis; relevanceScore := score thesis |}.

(** [answer.trim()] on the text of a completion, which may be [null] or
    missing. *)
Definition trimText (text : Completion) : result jsstring :=
  match text with
  | Text t => Ok (trim t)
  | NullText =>
      Throw (TypeError (lit "Cannot read properties of null (reading 'trim')"))
  | NoText =>
      Throw (TypeError (lit "Cannot read properties of undefined (reading 'trim')"))
  end.

End Conversation.

(** The chat service with query rewriting. *)
Module ChatService.
Section ChatService.
Context {NM : Number} (w : World).

(** The context of the last 3 turns; building it throws on a history
    without [length] and on a [null] entry among the last 3. *)
Definition historyContext (conversationHistory : History) : result jsstring :=
  match hasTurns conversationHistory with
  | Throw e => Throw e
  | Ok true =>
      appendLines (nl ++ nl ++ lit "Previous conversation context:" ++ nl)
                  (lastN 3 (entriesOf conversationHistory))
  | Ok false => Ok []
  end.

Definition rewritePrompt (userQuery historyContext : jsstring) : jsstring :=
  lit "You are a query optimization assistant. Your task is to rewrite user questions into optimized search queries that will retrieve the most relevant academic theses from a repository."
  ++ nl ++ nl
  ++ lit "Instructions:" ++ nl
  ++ lit "- Extract key concepts, topics, and technical terms from the user's question" ++ nl
  ++ lit "- Expand abbreviations and acronyms (e.g., " ++ dq ++ lit "AI" ++ dq
  ++ lit " " ++ arrow ++ lit " " ++ dq ++ lit "artificial intelligence" ++ dq
  ++ lit ")" ++ nl
  ++ lit "- Add related synonyms and domain-specific terms" ++ nl
  ++ lit "- Keep the query concise (1-2 sentences or key phrases)" ++ nl
  ++ lit "- Focus on the main topic and important keywords" ++ nl
  ++ lit "- If the question is already clear and specific, you can return it as-is or make minor improvements" ++ nl
  ++ historyContext ++ nl
  ++ lit "User question: " ++ userQuery ++ nl ++ nl
  ++ lit "Optimized search query:".

Definition rewriteOptions : AiService.GenOptions :=
  {| AiService.temperature := Some (tenths 3);
     AiService.maxTokens := Some 100%N |}.

(** The clean-up of the model's answer. *)
Definition cleanQuery (optimizedQuery : jsstring) : jsstring :=
  trim (collapseNewlines (stripSurroundingQuotes (trim optimizedQuery))).

Definition rewriteQuery (userQuery : jsstring)
           (conversationHistory : History) : M jsstring :=
  tryCatch
    (context <- liftResult (historyContext conversationHistory) ;;
     let prompt := rewritePrompt userQuery context in
     optimizedQuery <- AiService.generateText w prompt rewriteOptions ;;
     match optimizedQuery with
     | Text optimizedQuery =>
         let cleanedQuery := cleanQuery optimizedQuery in
         if (match cleanedQuery with [] => true | _ => false end
             || (strlen cleanedQuery <? 3)%Z)%bool
         then ret userQuery
         else ret cleanedQuery
     | missing => liftResult (trimText missing)
     end)
    (fun error => ret userQuery).

Definition thesisBlock (index : nat) (thesis : Thesis) : jsstring :=
  lit "Thesis " ++ decimal (index + 1) ++ lit ":" ++ nl
  ++ lit "Title: " ++ show (title thesis) ++ nl
  ++ lit "Abstract: " ++ show (abstract thesis) ++ nl
  ++ match tags thesis with
     | Some (t :: ts) => lit "Tags: " ++ join (lit ", ") (t :: ts) ++ nl
     | _ => []
     end
  ++ nl.

Fixpoint blocksFrom (index : nat) (theses : list Thesis) : jsstring :=
  match theses with
  | [] => []
  | thesis :: rest => thesisBlock index thesis ++ blocksFrom (S index) rest
  end.

Definition buildContext (theses : list Thesis) : jsstring :=
  lit "Here are some relevant theses from the repository:" ++ nl ++ nl
  ++ blocksFrom 0 theses.

(** The block of the previous conversation over an array of turns. *)
Definition previousConversation (conversationHistory : list Turn)
  : jsstring :=
  if (0 <? Z.of_nat (List.length conversationHistory))%Z then
    fold_left (fun acc turn => acc ++ turnLine turn) conversationHistory
              (lit "Previous conversation:" ++ nl)
    ++ nl
  else [].

(** The same block over whatever history the caller passed; building it
    throws on a history without [length] and on a [null] entry. *)
Definition previousConversationOf (conversationHistory : History)
  : result jsstring :=
  match hasTurns conversationHistory with
  | Throw e => Throw e
  | Ok true =>
      match appendLines (lit "Previous conversation:" ++ nl)
                        (entriesOf conversationHistory) with
      | Throw e => Throw e
      | Ok text => Ok (text ++ nl)
      end
  | Ok false => Ok []
  end.

(** The prompt is built in three steps: the opening with the context, the
    previous conversation, and the question with the instructions. *)
Definition ragOpening (context : jsstring) : jsstring :=
  lit "You are an AI assistant helping users explore an academic thesis repository. Your role is to answer questions about theses based on the provided context."
  ++ nl ++ nl
  ++ lit "Context from the thesis repository:" ++ nl
  ++ context ++ nl ++ nl.

Definition ragInstructions : jsstring :=
  nl ++ nl
  ++ lit "Instructions:" ++ nl
  ++ lit "- Answer based on the provided thesis context" ++ nl
  ++ lit "- Be concise but informative" ++ nl
  ++ lit "- If the context doesn't contain enough information, say so" ++ nl
  ++ lit "- Reference specific theses when relevant (e.g., " ++ dq
  ++ lit "According to Thesis 1..." ++ dq ++ lit " or " ++ dq
  ++ lit "The research on [topic] shows..." ++ dq ++ lit ")" ++ nl
  ++ lit "- If asked about topics not in the context, politely state that you don't have that information in the repository" ++ nl
  ++ lit "- Use natural, conversational language" ++ nl ++ nl
  ++ lit "Answer:".

Definition ragPrompt (userMessage context previous : jsstring) : jsstring :=
  ragOpening context
  ++ previous
  ++ (lit "User question: " ++ userMessage ++ ragInstructions).

Definition ragOptions : AiService.GenOptions :=
  {| AiService.temperature := Some (tenths 7);
     AiService.maxTokens := Some 500%N |}.

Definition generateRAGResponse (userMessage context : jsstring)
           (conversationHistory : History) : M jsstring :=
  tryCatch
    (previous <- liftResult (previousConversationOf conversationHistory) ;;
     let prompt := ragPrompt userMessage context previous in
     answer <- AiService.generateText w prompt ragOptions ;;
     liftResult (trimText answer))
    (fun error => throw error).

Definition searchOptions (topK : Z) : SearchService.SearchOptions :=
  {| SearchService.limit := Some topK;
     SearchService.threshold := Some (tenths 3) |}.

Definition processMessage (message : jsstring) (options : ProcessOptions)
  : M ChatResult :=
  tryCatch
    (let conversationHistory := orEmpty (historyOption options) in
     let topK := default 3%Z (topKOption options) in
     optimizedQuery <- rewriteQuery message conversationHistory ;;
     relevantTheses <- SearchService.semanticSearch w optimizedQuery
                                                    (searchOptions topK) ;;
     match relevantTheses with
     | [] =>
         earlier <- liftResult (spread conversationHistory) ;;
         ret {| answer := noResultsAnswer;
                sources := [];
                conversationHistory :=
                  earlier ++ [Some (userTurn message)] |}
     | _ :: _ =>
         let context := buildContext relevantTheses in
         answer <- generateRAGResponse message context conversationHistory ;;
         let sources := map toSource relevantTheses in
         earlier <- liftResult (spread conversationHistory) ;;
         ret {| answer := answer;
                sources := sources;
                conversationHistory :=
                  earlier
                    ++ [Some (userTurn message);
                        Some (assistantTurn answer)] |}
     end)
    (fun error =>
       throw (Error (lit "Chat processing failed: " ++ messageOf error))).

End ChatService.
End ChatService.

(** The chat service without query rewriting
    (backend/src/services/chatService.js). *)
Module ChatServiceBasic.
Section ChatServiceBasic.
Context {NM : Number} (w : World).

(** [thesis.tags.join(', ')] is not guarded here. *)
Definition thesisBlock (index : nat) (thesis : Thesis) : result jsstring :=
  match tags thesis with
  | None =>
      Throw (TypeError (lit "Cannot read properties of undefined (reading 'join')"))
  | Some ts =>
      Ok (lit "Thesis " ++ decimal (index + 1) ++ lit ":" ++ nl
          ++ lit "Title: " ++ show (title thesis) ++ nl
          ++ lit "Abstract: " ++ show (abstract thesis) ++ nl
          ++ lit "Tags: " ++ join (lit ", ") ts ++ nl ++ nl)
  end.

Fixpoint blocksFrom (index : nat) (theses : list Thesis) : result jsstring :=
  match theses with
  | [] => Ok []
  | thesis :: rest =>
      match thesisBlock index thesis with
      | Throw e => Throw e
      | Ok block =>
          match blocksFrom (S index) rest with
          | Throw e => Throw e
          | Ok blocks => Ok (block ++ blocks)
          end
      end
  end.

Definition buildContext (theses : list Thesis) : result jsstring :=
  match blocksFrom 0 theses with
  | Throw e => Throw e
  | Ok blocks =>
      Ok (lit "Here are some relevant theses from the repository:"
          ++ nl ++ nl ++ blocks)
  end.

Definition ragInstructions : jsstring :=
  nl ++ nl
  ++ lit "Instructions:" ++ nl
  ++ lit "- Answer based on the provided thesis context" ++ nl
  ++ lit "- Be concise but informative" ++ nl
  ++ lit "- If the context doesn't contain enough information, say so" ++ nl
  ++ lit "- Reference specific theses when relevant" ++ nl
  ++ lit "- If asked about topics not in the context, politely state that you don't have that information in the repository" ++ nl ++ nl
  ++ lit "Answer:".

Definition ragPrompt (userMessage context previous : jsstring) : jsstring :=
  ChatService.ragOpening context
  ++ previous
  ++ (lit "User question: " ++ userMessage ++ ragInstructions).

Definition generateRAGResponse (userMessage context : jsstring)
           (conversationHistory : History) : M jsstring :=
  tryCatch
    (previous <- liftResult
                   (ChatService.previousConversationOf conversationHistory) ;;
     let prompt := ragPrompt userMessage context previous in
     answer <- AiService.generateText w prompt ChatService.ragOptions ;;
     liftResult (trimText answer))
    (fun error => throw error).

Definition processMessage (message : jsstring) (options : ProcessOptions)
  : M ChatResult :=
  tryCatch
    (let conversationHistory := orEmpty (historyOption options) in
     let topK := default 3%Z (topKOption options) in
     relevantTheses <- SearchService.semanticSearch
                         w message (ChatService.searchOptions topK) ;;
     match relevantTheses with
     | [] =>
         earlier <- liftResult (spread conversationHistory) ;;
         ret {| answer := noResultsAnswer;
                sources := [];
                conversationHistory :=
                  earlier ++ [Some (userTurn message)] |}
     | _ :: _ =>
         context <- liftResult (buildContext relevantTheses) ;;
         answer <- generateRAGResponse message context conversationHistory ;;
         let sources := map toSource relevantTheses in
         earlier <- liftResult (spread conversationHistory) ;;
         ret {| answer := answer;
                sources := sources;
                conversationHistory :=
                  earlier
                    ++ [Some (userTurn message);
                        Some (assistantTurn answer)] |}
     end)
    (fun error =>
       throw (Error (lit "Chat processing failed: " ++ messageOf error))).

End ChatServiceBasic.
End ChatServiceBasic.

(* ================================================================= *)
(** ** Sample worlds *)

Module Samples.

Definition thesis {NM : Number} (id : string) (name : string)
           (v : vector) : Thesis :=
  {| _id := lit id; title := Some (lit name);
     abstract := Some (lit "An abstract.");
     embeddings := Some v;
     tags := Some [lit "ai"; lit "nlp"; lit "ml"];
     createdAt := Some 1%N; updatedAt := Some 1%N; score := None |}.

(** Two theses with orthogonal unit vectors and a third one between them,
    over binary64 numbers. *)
Definition d1 : Thesis :=
  thesis (NM := Float64) "d1" "Deep Learning for NLP" [1%float; 0%float].
Definition d2 : Thesis :=
  thesis (NM := Float64) "d2" "Blockchain Supply Chains" [0%float; 1%float].
Definition d3 : Thesis :=
  thesis (NM := Float64) "d3" "Neural Ledgers" [0.5%float; 0.5%float].

(** The three theses in a deployment whose index is not configured, whose
    embedding endpoint maps every text to the first axis and whose completion
    endpoint is down. *)
Definition offline : World :=
  @mkWorld Float64
    Ollama
    (fun _ _ _ _ => Throw (Error (lit "connect ECONNREFUSED")))
    (fun _ _ => Ok (Some [1%float; 0%float]))
    (fun _ _ _ _ _ _ => Throw (Error (lit "index not found")))
    (fun _ => Ok [d2; d3; d1]).

(** The same store behind the provider without native embeddings (queries
    are embedded by [simulateEmbeddings]), with a completion endpoint that
    answers every prompt with a fixed text and an index that returns two
    candidates. *)
Definition online : World :=
  @mkWorld Float64
    Groq
    (fun _ _ _ _ => Ok (Text (lit " neural networks ")))
    (fun _ _ => Ok (Some [1%float; 0%float]))
    (fun _ _ _ _ _ _ => Ok [(d1, 0.75%float); (d3, 0.25%float)])
    (fun _ => Ok [d2; d3; d1]).

(** The store of [offline] behind an index that is down and a completion
    endpoint that fails on its first call of a turn and answers afterwards. *)
Definition flaky : World :=
  @mkWorld Float64
    Ollama
    (fun tr _ _ _ =>
       if existsb (fun ev => match ev with
                             | CallGenerate _ _ _ => true
                             | _ => false
                             end) tr
       then Ok (Text (lit " Thesis 1 covers it. "))
       else Throw (Error (lit "timeout")))
    (fun _ _ => Ok (Some [1%float; 0%float]))
    (fun _ _ _ _ _ _ => Throw (Error (lit "index not found")))
    (fun _ => Ok [d2; d3; d1]).

(** A store in which one thesis has a vector of another dimension. *)
Definition d4 : Thesis :=
  thesis (NM := Float64) "d4" "Three Axes" [1%float; 0%float; 0%float].

Definition mixed : World :=
  @mkWorld Float64
    Ollama
    (fun _ _ _ _ => Throw (Error (lit "connect ECONNREFUSED")))
    (fun _ _ => Ok (Some [1%float; 0%float]))
    (fun _ _ _ _ _ _ => Throw (Error (lit "index not found")))
    (fun _ => Ok [d1; d4; d3]).

(** A store of finite vectors whose products overflow: the dot product of
    [big] and [opposed] is the sum of an infinity and its opposite. *)
Definition big : Thesis :=
  thesis (NM := Float64) "big" "Large Entries" [0x1p+600%float; 0x1p+600%float].
Definition opposed : Thesis :=
  thesis (NM := Float64) "opposed" "Opposed Entries"
         [0x1p+600%float; (-0x1p+600)%float].
Definition origin : Thesis :=
  thesis (NM := Float64) "origin" "No Entries" [0%float; 0%float].

Definition overflowing : World :=
  @mkWorld Float64
    Ollama
    (fun _ _ _ _ => Throw (Error (lit "connect ECONNREFUSED")))
    (fun _ _ => Ok (Some [1%float; 0%float]))
    (fun _ _ _ _ _ _ => Throw (Error (lit "index not found")))
    (fun _ => Ok [big; opposed; origin]).

(** A store with nothing in it. *)
Definition empty : World :=
  @mkWorld Float64
    Ollama
    (fun _ _ _ _ => Ok (Text (lit "quantum computing")))
    (fun _ _ => Ok (Some [1%float; 0%float]))
    (fun _ _ _ _ _ _ => Ok [])
    (fun _ => Ok []).

End Samples.

(* ================================================================= *)
(** ** Vocabulary of the properties *)

(** The smallest exponent of a binary64 mantissa. *)
Definition emin64 : Z := (-1074)%Z.

Section Vocabulary.
Context {NM : Number}.

(** [a] ranks at least as high as [b]: both carry a score and the score of
    [b] is at most the score of [a]. *)
Definition ranksAbove (a b : Thesis) : Prop :=
  match score a, score b with
  | Some x, Some y => leb y x = true
  | _, _ => False
  end.

(** Scores never increase along the list. *)
Definition descending (results : list Thesis) : Prop :=
  StronglySorted ranksAbove results.

(** The same on neighbours only, as a test. *)
Fixpoint descendingb (results : list Thesis) : bool :=
  match results with
  | a :: (b :: _) as rest =>
      (match score a, score b with
       | Some x, Some y => leb y x
       | _, _ => false
       end && descendingb rest)%bool
  | _ => true
  end.

(** The document carries a score that is not strictly below [threshold]. *)
Definition notBelow (threshold : num) (doc : Thesis) : Prop :=
  exists s, score doc = Some s /\ ltb s threshold = false.

(** The document carries a score, and the score is not NaN. *)
Definition ranked (doc : Thesis) : Prop :=
  exists s, score doc = Some s /\ comparable s = true.

(** [doc] is [thesis] with its similarity to the reference as score. *)
Definition scoredAgainst (referenceThesis thesis doc : Thesis) : Prop :=
  exists s,
    dotProduct (embeddings referenceThesis) (embeddings thesis) = Ok s /\
    doc = withScore thesis s.

(** The stored vector of a document has [n] entries. *)
Definition hasDimension (n : nat) (doc : Thesis) : Prop :=
  exists v, embeddings doc = Some v /\ List.length v = n.

Definition isGenerate (ev : Event) : bool :=
  match ev with CallGenerate _ _ _ => true | _ => false end.

(** The calls to the completion endpoint in a trace. *)
Definition generateCalls (tr : list Event) : list Event :=
  filter isGenerate tr.

(** Candidate pool size and result limit of an index query. *)
Definition poolAndLimit (ev : Event) : option (Z * Z) :=
  match ev with
  | CallVectorIndex _ _ _ numCandidates limit => Some (numCandidates, limit)
  | _ => None
  end.

(** The ids of a result, or nothing when the call threw. *)
Definition idsOf (r : result (list Thesis)) : option (list jsstring) :=
  match r with
  | Ok docs => Some (map (fun doc => _id doc) docs)
  | Throw _ => None
  end.

(** The number of results [slice(0, limit)] leaves of [n] candidates, for a
    limit that is a count. *)
Definition upTo (limit : Z) (n : nat) : nat := Nat.min (Z.to_nat limit) n.

(** What the three stages after [$vectorSearch] leave of the candidates. *)
Definition afterIndex (threshold : num) (candidates : list (Thesis * num))
  : list Thesis :=
  map (project [FTitle; FAbstract; FTags; FCreatedAt; FScore])
      (filter (scoreGte threshold)
              (map (fun '(doc, s) => setScore doc (Some s)) candidates)).

Variable w : World.

(** Steps 2 to 5 of [ChatService.processMessage], for a given search query. *)
Definition answerWith (message : jsstring) (conversationHistory : History)
           (topK : Z) (optimizedQuery : jsstring) : M ChatResult :=
  relevantTheses <- SearchService.semanticSearch
                      w optimizedQuery (ChatService.searchOptions topK) ;;
  match relevantTheses with
  | [] =>
      earlier <- liftResult (spread conversationHistory) ;;
      ret {| answer := noResultsAnswer;
             sources := [];
             conversationHistory := earlier ++ [Some (userTurn message)] |}
  | _ :: _ =>
      let context := ChatService.buildContext relevantTheses in
      answer <- ChatService.generateRAGResponse
                  w message context conversationHistory ;;
      let sources := map toSource relevantTheses in
      earlier <- liftResult (spread conversationHistory) ;;
      ret {| answer := answer;
             sources := sources;
             conversationHistory :=
               earlier
                 ++ [Some (userTurn message); Some (assistantTurn answer)] |}
  end.

(** An array of turns, none of them [null]. *)
Definition arrayOf (turns : list Turn) : History :=
  HistoryArray (map Some turns).

(** The calls of the rewriting step: none when the history context cannot
    be built, else those of its one completion. *)
Definition rewritingCalls (userQuery : jsstring)
           (conversationHistory : History) : list Event :=
  match ChatService.historyContext conversationHistory, provider w with
  | Ok context, Ollama | Ok context, Groq =>
      [CallGenerate (ChatService.rewritePrompt userQuery context)
                    (tenths 3) 100%N]
  | _, _ => []
  end.

(** What the zero-document branch of [processMessage] ends with, after
    spreading the history. *)
Definition cannedOutcome (message : jsstring)
           (conversationHistory : History) : result ChatResult :=
  match spread conversationHistory with
  | Ok earlier =>
      Ok {| answer := noResultsAnswer;
            sources := [];
            conversationHistory := earlier ++ [Some (userTurn message)] |}
  | Throw e =>
      Throw (Error (lit "Chat processing failed: " ++ messageOf e))
  end.



(** The history context of the rewriting prompt over an array of turns. *)
Definition recentContext (turns : list Turn) : jsstring :=
  if (0 <? Z.of_nat (List.length turns))%Z then
    fold_left (fun acc turn => acc ++ turnLine turn) (lastN 3 turns)
              (nl ++ nl ++ lit "Previous conversation context:" ++ nl)
  else [].

(** The wrapper [processMessage] puts around every exception. *)
Definition chatFailure {A} (error : exn) : M A :=
  throw (Error (lit "Chat processing failed: " ++ messageOf error)).

End Vocabulary.

(* ================================================================= *)
(** ** Further services *)

(** *** Strings and arrays of strings *)

Section MoreStrings.

(** The first code unit, if any, is not white space. *)
Definition startsClean (s : jsstring) : Prop :=
  match s with
  | [] => True
  | c :: _ => isWhiteSpace c = false
  end.

(** What [thesis.tags.join] throws on a thesis without a tag list. *)
Definition joinTypeError : exn :=
  TypeError (lit "Cannot read properties of undefined (reading 'join')").

(** [arr.includes(x)] on an array of strings. *)
Definition includes (arr : list jsstring) (x : jsstring) : bool :=
  existsb (str_eqb x) arr.

(** [v || d] on a string that may be missing: the empty string is falsy. *)
Definition orString (v : option jsstring) (d : jsstring) : jsstring :=
  match v with
  | Some (c :: s) => c :: s
  | _ => d
  end.

(** [a < b] on strings: the order of the code units. *)
Fixpoint str_ltb (a b : jsstring) : bool :=
  match a, b with
  | _, [] => false
  | [], _ :: _ => true
  | x :: a', y :: b' =>
      if N.ltb x y then true
      else if N.ltb y x then false
      else str_ltb a' b'
  end.

(** [arr.sort()] on strings, without a comparator: the stable insertion
    sort of [sort] on the order of the code units. *)
Fixpoint insertDefault (x : jsstring) (sorted : list jsstring)
  : list jsstring :=
  match sorted with
  | [] => [x]
  | y :: rest =>
      if str_ltb y x then y :: insertDefault x rest else x :: sorted
  end.

Definition sortDefault (arr : list jsstring) : list jsstring :=
  fold_right insertDefault [] arr.

(** [s.split(re)] for a pattern [re] that matches the non-empty runs of the
    code units in [isSep]: the pieces between the runs, an empty piece
    before a leading run and after a trailing one. *)
Fixpoint splitRuns (isSep : N -> bool) (s : jsstring) : list jsstring :=
  match s with
  | [] => [[]]
  | c :: s' =>
      if isSep c then
        match s' with
        | c' :: _ =>
            if isSep c' then splitRuns isSep s' else [] :: splitRuns isSep s'
        | [] => [[]; []]
        end
      else
        match splitRuns isSep s' with
        | piece :: rest => (c :: piece) :: rest
        | [] => [[c]]
        end
  end.

(** [[...new Set(arr)]]: the first occurrence of every string, in order. *)
Definition unique (arr : list jsstring) : list jsstring :=
  fold_left (fun seen x => if includes seen x then seen else seen ++ [x])
            arr [].

(** [a] does not come after [b] in the order of the code units. *)
Definition notAfter (a b : jsstring) : Prop := str_ltb b a = false.

(** The fallbacks that [tags] does not hold yet. *)
Definition missing (tags fallbacks : list jsstring) : list jsstring :=
  filter (fun fallback => negb (includes tags fallback)) fallbacks.

(** [toLowerCase] on the ASCII letters, which is what the runtime does on
    a string of ASCII code units. *)
Definition asciiLower (s : jsstring) : jsstring :=
  map (fun c => if (N.leb 65 c && N.leb c 90)%bool then (c + 32)%N else c)
      s.

End MoreStrings.

(** *** services/searchService.js and services/chatService.js, continued *)

Section TagQueries.
Context {NM : Number} (w : World).

(** [getAllTags]; [distinct] is the query [Thesis.distinct('tags')]. *)
Definition getAllTags (distinct : M (list jsstring)) : M (list jsstring) :=
  tryCatch
    (tags <- distinct ;;
     ret (sortDefault tags))
    (fun error =>
       throw (Error (lit "Failed to retrieve tags: " ++ messageOf error))).

Definition getSuggestedQuestions (distinct : M (list jsstring))
  : M (list jsstring) :=
  tryCatch
    (allTags <- getAllTags distinct ;;
     if (Z.of_nat (List.length allTags) =? 0)%Z then
       ret [lit "What theses are available in the repository?";
            lit "Tell me about the latest research topics."]
     else
       let topTags := slice0 allTags 5 in
       let suggestions :=
         [lit "What theses are related to "
            ++ orString (nth_error topTags 0) (lit "research") ++ lit "?";
          lit "Can you summarize theses about "
            ++ orString (nth_error topTags 1) (lit "technology") ++ lit "?";
          lit "What are the most recent theses in the repository?";
          lit "Tell me about research on "
            ++ orString (nth_error topTags 2) (lit "science") ++ lit "."] in
       ret suggestions)
    (fun error => ret [lit "What theses are available?"]).

Definition summaryPrompt (thesis : Thesis) : jsstring :=
  lit "Provide a concise 2-3 sentence summary of the following thesis:"
  ++ nl ++ nl
  ++ lit "Title: " ++ show (title thesis) ++ nl
  ++ lit "Abstract: " ++ show (abstract thesis) ++ nl ++ nl
  ++ lit "Summary:".

Definition summaryOptions : AiService.GenOptions :=
  {| AiService.temperature := Some (tenths 5);
     AiService.maxTokens := Some 150%N |}.

Definition summarizeThesis (thesisId : jsstring) : M jsstring :=
  tryCatch
    (thesis <- findById w thesisId ;;
     match thesis with
     | None => throw (Error (lit "Thesis not found"))
     | Some thesis =>
         let prompt := summaryPrompt thesis in
         summary <- AiService.generateText w prompt summaryOptions ;;
         liftResult (trimText summary)
     end)
    (fun error =>
       throw (Error (lit "Thesis summarization failed: "
                     ++ messageOf error))).

(** [EmbeddingService.generateEmbedding]: the log line reads
    [embeddings.length]. *)
Definition generateEmbedding (title abstract : jsstring) : M vector :=
  tryCatch
    (let text := lit "Title: " ++ title ++ nl ++ nl
                 ++ lit "Abstract: " ++ abstract in
     embeddings <- AiService.generateEmbeddings w text ;;
     match embeddings with
     | None =>
         throw (TypeError (lit "Cannot read properties of undefined (reading 'length')"))
     | Some embeddings => ret embeddings
     end)
    (fun error =>
       throw (Error (lit "Failed to generate embeddings: "
                     ++ messageOf error))).

End TagQueries.

(** *** services/simpleChatService.js *)

Module SimpleChatService.
Section SimpleChatService.
Context {NM : Number} (w : World).

Record SimpleChatResult : Type := mkSimpleChatResult {
  answer : jsstring;
  conversationHistory : list Turn
}.

Definition responsePrompt (userMessage : jsstring)
           (conversationHistory : list Turn) : jsstring :=
  (lit "You are a helpful AI assistant. You help users with questions and conversations in a friendly, informative manner."
   ++ nl ++ nl)
  ++ ChatService.previousConversation conversationHistory
  ++ (lit "User: " ++ userMessage ++ nl ++ nl ++ lit "Assistant:").

Definition responseOptions : AiService.GenOptions :=
  {| AiService.temperature := Some (tenths 7);
     AiService.maxTokens := Some 1000%N |}.

Definition generateResponse (userMessage : jsstring)
           (conversationHistory : list Turn) : M jsstring :=
  tryCatch
    (let prompt := responsePrompt userMessage conversationHistory in
     answer <- AiService.generateText w prompt responseOptions ;;
     liftResult (trimText answer))
    (fun error => throw error).

Definition processMessage (message : jsstring) (options : ChatOptions)
  : M SimpleChatResult :=
  tryCatch
    (let conversationHistory := default [] (optHistory options) in
     answer <- generateResponse message conversationHistory ;;
     ret {| answer := answer;
            conversationHistory :=
              conversationHistory
                ++ [userTurn message; assistantTurn answer] |})
    (fun error =>
       throw (Error (lit "Simple chat processing failed: "
                     ++ messageOf error))).

Definition greetingPrompt : jsstring :=
  lit "You are a friendly AI assistant. Generate a brief, welcoming greeting message (1-2 sentences) for a user starting a conversation.".

Definition greetingOptions : AiService.GenOptions :=
  {| AiService.temperature := Some (tenths 8);
     AiService.maxTokens := Some 50%N |}.

Definition fallbackGreeting : jsstring :=
  lit "Hello! I'm your AI assistant. How can I help you today?".

Definition getGreeting : M jsstring :=
  tryCatch
    (greeting <- AiService.generateText w greetingPrompt greetingOptions ;;
     liftResult (trimText greeting))
    (fun error => ret fallbackGreeting).

End SimpleChatService.
End SimpleChatService.

(** *** services/tagService.js *)

Module TagService.
Section TagService.
Context {NM : Number} (w : World).

(** [String.prototype.toLowerCase], which depends on the Unicode tables of
    the runtime. *)
Variable toLowerCase : jsstring -> jsstring.

Definition tagsPrompt (title abstract : jsstring) : jsstring :=
  lit "You are an expert academic librarian. Based on the following thesis title and abstract, generate exactly 3-5 short descriptive tags (1-2 words each) that best categorize this work."
  ++ nl ++ nl
  ++ lit "Title: " ++ title ++ nl ++ nl
  ++ lit "Abstract: " ++ abstract ++ nl ++ nl
  ++ lit "Instructions:" ++ nl
  ++ lit "- Generate between 3 and 5 tags" ++ nl
  ++ lit "- Each tag should be 1-2 words maximum" ++ nl
  ++ lit "- Tags should be lowercase" ++ nl
  ++ lit "- Focus on key topics, methodologies, or domains" ++ nl
  ++ lit "- Separate tags with commas" ++ nl
  ++ lit "- Do not include any explanation, just return the tags" ++ nl ++ nl
  ++ lit "Example format: machine learning, neural networks, computer vision, image classification"
  ++ nl ++ nl
  ++ lit "Tags:".

Definition tagOptions : AiService.GenOptions :=
  {| AiService.temperature := Some (tenths 3);
     AiService.maxTokens := Some 100%N |}.

(** A code unit of a pattern written in lower case matches, under the flag
    [i], itself and, when it is a letter, its capital. *)
Definition sameLetter (p c : N) : bool :=
  (N.eqb p c || (N.leb 97 p && N.leb p 122 && N.eqb (p - 32) c))%bool.

(** The rest of [s] behind a literal pattern at its start. *)
Fixpoint matchLiteral (pattern s : jsstring) : option jsstring :=
  match pattern, s with
  | [], _ => Some s
  | p :: pattern', c :: s' =>
      if sameLetter p c then matchLiteral pattern' s' else None
  | _ :: _, [] => None
  end.

(** [s.replace(/^<words>s?:\s*/i, '')] for a literal [words]. *)
Definition dropPrefix (words : jsstring) (s : jsstring) : jsstring :=
  match matchLiteral (words ++ lit "s:") s with
  | Some rest => trimStart rest
  | None =>
      match matchLiteral (words ++ lit ":") s with
      | Some rest => trimStart rest
      | None => s
      end
  end.

Definition isSeparator (c : N) : bool := (N.eqb c 44 || N.eqb c 10)%bool.

(** [/[.!?]/.test(tag)] *)
Definition hasPunctuation (tag : jsstring) : bool :=
  existsb (fun c => (N.eqb c 46 || N.eqb c 33 || N.eqb c 63)%bool) tag.

(** The code units that [/[^a-z0-9\s-]/g] leaves in place. *)
Definition allowedChar (c : N) : bool :=
  ((N.leb 97 c && N.leb c 122) || (N.leb 48 c && N.leb c 57)
   || isWhiteSpace c || N.eqb c 45)%bool.

(** [tag.split(/\s+/).length] *)
Definition wordCount (tag : jsstring) : Z :=
  Z.of_nat (List.length (splitRuns isWhiteSpace tag)).

Definition parseTags (response : Completion)
  : result (list jsstring) :=
  match response with
  | NoText =>
      Throw (TypeError (lit "Cannot read properties of undefined (reading 'trim')"))
  | NullText =>
      Throw (TypeError (lit "Cannot read properties of null (reading 'trim')"))
  | Text response =>
      let cleanedResponse := toLowerCase (trim response) in
      let cleanedResponse := dropPrefix (lit "tag") cleanedResponse in
      let cleanedResponse :=
        dropPrefix (lit "here are the tag") cleanedResponse in
      let tags :=
        filter (fun tag => negb (hasPunctuation tag))
               (filter (fun tag => ((0 <? strlen tag)
                                    && (strlen tag <? 30))%Z%bool)
                       (map trim (splitRuns isSeparator cleanedResponse))) in
      let tags :=
        filter (fun tag => (wordCount tag <=? 2)%Z)
               (map (filter allowedChar) tags) in
      Ok (unique tags)
  end.

Definition fallbackTags : list jsstring :=
  [lit "research"; lit "academic"; lit "study"; lit "analysis";
   lit "theory"].

(** The loop that shifts fallbacks into [tags] while fewer than 3 are
    there. *)
Fixpoint fillFallbacks (tags fallbackTags : list jsstring)
  : list jsstring :=
  match fallbackTags with
  | [] => tags
  | fallback :: rest =>
      if (Z.of_nat (List.length tags) <? 3)%Z then
        if includes tags fallback then fillFallbacks tags rest
        else fillFallbacks (tags ++ [fallback]) rest
      else tags
  end.

Definition adjustTagCount (tags : list jsstring) : list jsstring :=
  if (Z.of_nat (List.length tags) <? 3)%Z then
    fillFallbacks tags fallbackTags
  else if (5 <? Z.of_nat (List.length tags))%Z then slice0 tags 5
  else tags.

Definition generateTags (title abstract : jsstring) : M (list jsstring) :=
  tryCatch
    (let prompt := tagsPrompt title abstract in
     response <- AiService.generateText w prompt tagOptions ;;
     tags <- liftResult (parseTags response) ;;
     if ((Z.of_nat (List.length tags) <? 3)
         || (5 <? Z.of_nat (List.length tags)))%Z%bool
     then ret (adjustTagCount tags)
     else ret tags)
    (fun error =>
       throw (Error (lit "Failed to generate tags: " ++ messageOf error))).

End TagService.
End TagService.

(** What [parseTags] guarantees of a tag. *)
Definition wellFormedTag (tag : jsstring) : Prop :=
  forallb TagService.allowedChar tag = true /\
  (strlen tag < 30)%Z /\
  (TagService.wordCount tag <= 2)%Z.

(** *** The embedding service on a local model
    (services/embeddingService.js, 384 dimensions) *)

Module LocalEmbeddingService.
Section LocalEmbeddingService.
Context {NM : Number}.

Definition embeddingDimensions : nat := 384.

(** [while (embedding.length < 384) embedding.push(0)]; the loop body runs
    at most 384 times. *)
Fixpoint padZeros (fuel : nat) (embedding : vector) : vector :=
  match fuel with
  | O => embedding
  | S fuel' =>
      if Nat.ltb (List.length embedding) embeddingDimensions
      then padZeros fuel' (embedding ++ [zero])
      else embedding
  end.

(** The validation of the dimensions in [generateEmbeddingFromText], on the
    flat array read from the model's output. *)
Definition fitDimensions (embedding : vector) : vector :=
  if negb (Nat.eqb (List.length embedding) embeddingDimensions) then
    if Nat.ltb embeddingDimensions (List.length embedding)
    then slice0 embedding (Z.of_nat embeddingDimensions)
    else padZeros embeddingDimensions embedding
  else embedding.

End LocalEmbeddingService.
End LocalEmbeddingService.

(** *** middleware/validator.js *)

Section Validator.
Context {NM : Number}.

(** The values of a parsed request body. *)
#[local] Unset Elimination Schemes.
Inductive JsValue : Type :=
| JsUndefined
| JsNull
| JsBoolean (b : bool)
| JsNumber (n : num)
| JsString (s : jsstring)
| JsArray (items : list JsValue)
| JsObject.
#[local] Set Elimination Schemes.

(** What a middleware does with a request: it passes it on, or it answers
    with a status and a body. *)
Inductive Outcome : Type :=
| Next
| Respond (status : N) (message : jsstring) (errors : option (list jsstring)).

Definition isTruthy (v : JsValue) : bool :=
  match v with
  | JsUndefined | JsNull => false
  | JsBoolean b => b
  | JsNumber n => truthy n
  | JsString s => match s with [] => false | _ :: _ => true end
  | JsArray _ | JsObject => true
  end.

Definition isArray (v : JsValue) : bool :=
  match v with JsArray _ => true | _ => false end.

(** [!v || typeof v !== 'string' || v.trim().length === 0] *)
Definition notText (v : JsValue) : bool :=
  match v with
  | JsString s => (negb (isTruthy v) || (strlen (trim s) =? 0)%Z)%bool
  | _ => true
  end.

(** [v.length > max], behind a check that [v] is a string. *)
Definition longerThan (max : Z) (v : JsValue) : bool :=
  match v with
  | JsString s => (max <? strlen s)%Z
  | _ => false
  end.

(** The first two checks of a text field, pushing onto [errors]. *)
Definition checkText (v : JsValue) (max : Z) (required tooLong : jsstring)
           (errors : list jsstring) : list jsstring :=
  if notText v then errors ++ [required]
  else if longerThan max v then errors ++ [tooLong]
  else errors.

Definition failed (errors : list jsstring) : Outcome :=
  if (0 <? Z.of_nat (List.length errors))%Z then
    Respond 400 (lit "Validation failed") (Some errors)
  else Next.

Definition validateThesisCreation (title abstract : JsValue) : Outcome :=
  let errors := [] in
  let errors :=
    checkText title 500
              (lit "Title is required and must be a non-empty string")
              (lit "Title cannot exceed 500 characters") errors in
  let errors :=
    checkText abstract 5000
              (lit "Abstract is required and must be a non-empty string")
              (lit "Abstract cannot exceed 5000 characters") errors in
  failed errors.

Definition validateSearchRequest (query : JsValue) : Outcome :=
  if notText query then
    Respond 400 (lit "Query is required and must be a non-empty string") None
  else if longerThan 500 query then
    Respond 400 (lit "Query cannot exceed 500 characters") None
  else Next.

Definition validateChatRequest (message conversationHistory : JsValue)
  : Outcome :=
  let errors := [] in
  let errors :=
    checkText message 1000
              (lit "Message is required and must be a non-empty string")
              (lit "Message cannot exceed 1000 characters") errors in
  let errors :=
    if (isTruthy conversationHistory
        && negb (isArray conversationHistory))%bool
    then errors ++ [lit "Conversation history must be an array"]
    else errors in
  failed errors.

(** A string of at most [max] code units, one of them not white space. *)
Definition textUpTo (max : Z) (v : JsValue) : Prop :=
  exists s, v = JsString s /\
            existsb (fun c => negb (isWhiteSpace c)) s = true /\
            (strlen s <= max)%Z.

End Validator.

(* ================================================================= *)
(** ** Properties of the number structures *)

Section FloatOrder.

Lemma SFcompare_antisym (x y : spec_float) :
  SFcompare y x = option_map CompOpp (SFcompare x y).
Proof.
  destruct x as [sx| sx| |sx mx ex], y as [sy| sy| |sy my ey]; simpl;
    try reflexivity;
    try (destruct sx; reflexivity);
    try (destruct sy; reflexivity);
    try (destruct sx, sy; reflexivity).
  destruct sx, sy; simpl; try reflexivity;
    rewrite (Z.compare_antisym ex ey);
    destruct (ex ?= ey)%Z; simpl; try reflexivity;
    rewrite !Pos.compare_cont_spec; simpl;
    rewrite (Pos.compare_antisym mx my);
    destruct (mx ?= my)%positive; reflexivity.
Qed.

Lemma SFcompare_diag (x : spec_float) (c : comparison) :
  SFcompare x x = Some c -> c = Eq.
Proof.
  destruct x as [s|s| |s m e]; simpl; try congruence.
  - destruct s; congruence.
  - destruct s; rewrite Z.compare_refl, Pos.compare_cont_refl; simpl;
      congruence.
Qed.

Lemma SFcompare_defined_l (x y : spec_float) (c : comparison) :
  SFcompare x y = Some c -> SFcompare x x = Some Eq.
Proof.
  destruct x as [s|s| |s m e]; simpl; intros H.
  - reflexivity.
  - destruct s; reflexivity.
  - destruct y; discriminate.
  - destruct s; rewrite Z.compare_refl, Pos.compare_cont_refl; reflexivity.
Qed.

Lemma SFcompare_total (x y : spec_float) :
  SFcompare x x = Some Eq -> SFcompare y y = Some Eq ->
  exists c, SFcompare x y = Some c.
Proof.
  destruct x as [s|s| |s m e], y as [s'|s'| |s' m' e']; simpl; intros;
    try discriminate; eauto.
Qed.

Lemma SFleb_trans (x y z : spec_float) :
  SFleb x y = true -> SFleb y z = true -> SFleb x z = true.
Proof.
  unfold SFleb.
  destruct x as [sx| sx| |sx mx ex], y as [sy| sy| |sy my ey],
           z as [sz| sz| |sz mz ez];
    simpl; try discriminate; try reflexivity;
    try (destruct sx; simpl; try discriminate; try reflexivity);
    try (destruct sy; simpl; try discriminate; try reflexivity);
    try (destruct sz; simpl; try discriminate; try reflexivity).
  all: rewrite ?Pos.compare_cont_spec; simpl.
  all: destruct (Z.compare_spec ex ey), (Z.compare_spec ey ez),
         (Z.compare_spec ex ez);
    try discriminate; try reflexivity; try lia.
  all: subst.
  all: destruct (Pos.compare_spec mx my), (Pos.compare_spec my mz),
         (Pos.compare_spec mx mz);
    simpl; try discriminate; try reflexivity; try lia.
Qed.

(** The order of binary64 numbers obeys the order laws. *)
Lemma Float64_order : OrderLaws Float64.
Proof.
  constructor; unfold comparable; simpl.
  - intros a b. rewrite leb_spec, ltb_spec. unfold SFleb, SFltb.
    rewrite (SFcompare_antisym (Prim2SF a) (Prim2SF b)).
    destruct (SFcompare (Prim2SF a) (Prim2SF b)) as [[]|]; simpl; congruence.
  - intros a b. rewrite leb_spec, ltb_spec. unfold SFleb, SFltb.
    destruct (SFcompare (Prim2SF a) (Prim2SF b)) as [[]|]; simpl; congruence.
  - intros a b. rewrite !leb_spec. unfold SFleb.
    destruct (SFcompare (Prim2SF a) (Prim2SF b)) as [c|] eqn:E;
      [|discriminate].
    intros _.
    rewrite (SFcompare_defined_l _ _ E).
    rewrite (SFcompare_antisym (Prim2SF b) (Prim2SF a)) in E.
    destruct (SFcompare (Prim2SF b) (Prim2SF a)) as [c'|] eqn:E';
      [|discriminate].
    rewrite (SFcompare_defined_l _ _ E'). auto.
  - intros a b. rewrite !leb_spec, ltb_spec. unfold SFleb, SFltb.
    intros Ha Hb.
    assert (Ha' : SFcompare (Prim2SF a) (Prim2SF a) = Some Eq).
    { destruct (SFcompare (Prim2SF a) (Prim2SF a)) as [c|] eqn:E;
        [|discriminate]. now rewrite (SFcompare_diag _ E). }
    assert (Hb' : SFcompare (Prim2SF b) (Prim2SF b) = Some Eq).
    { destruct (SFcompare (Prim2SF b) (Prim2SF b)) as [c|] eqn:E;
        [|discriminate]. now rewrite (SFcompare_diag _ E). }
    destruct (SFcompare_total _ _ Ha' Hb') as [c Hc].
    rewrite (SFcompare_antisym (Prim2SF a) (Prim2SF b)), Hc.
    destruct c; simpl; congruence.
  - intros a b c. rewrite !leb_spec. apply SFleb_trans.
Qed.

End FloatOrder.

(** *** The sign of a binary64 difference

    Subtraction rounds, but it never rounds a difference of two numbers to
    zero or across zero: for operands with canonical mantissas, the exact
    difference is a multiple of the smaller unit in the last place, and
    rounding keeps the sign of a non-zero integer mantissa. *)

Unset Implicit Arguments.

Section FloatSubtraction.
Local Open Scope Z_scope.

Lemma shr_1_m (mrs : shr_record) :
  0 <= shr_m mrs -> shr_m (shr_1 mrs) = Z.div2 (shr_m mrs).
Proof.
  destruct mrs as [m r s]. simpl. destruct m as [|p|p]; [reflexivity| |lia].
  destruct p; reflexivity.
Qed.

Lemma iter_pos_shr_1 (n : positive) : forall mrs,
  0 <= shr_m mrs ->
  shr_m (iter_pos shr_1 n mrs) = shr_m mrs / 2 ^ Zpos n.
Proof.
  induction n as [n IH|n IH|]; intros mrs Hm; cbn [iter_pos].
  - assert (H1 : 0 <= shr_m (shr_1 mrs)).
    { rewrite shr_1_m, Z.div2_div by exact Hm. apply Z.div_pos; lia. }
    assert (H2 : 0 <= shr_m (iter_pos shr_1 n (shr_1 mrs))).
    { rewrite IH by exact H1. apply Z.div_pos; [exact H1|].
      apply Z.pow_pos_nonneg; lia. }
    rewrite IH by exact H2. rewrite IH by exact H1.
    rewrite shr_1_m, Z.div2_div by exact Hm.
    rewrite !Z.div_div by (try apply Z.pow_pos_nonneg; lia).
    f_equal. replace (Zpos n~1) with (1 + Zpos n + Zpos n) by lia.
    rewrite !Z.pow_add_r by lia. change (2 ^ 1) with 2. ring.
  - assert (H2 : 0 <= shr_m (iter_pos shr_1 n mrs)).
    { rewrite IH by exact Hm. apply Z.div_pos; [exact Hm|].
      apply Z.pow_pos_nonneg; lia. }
    rewrite IH by exact H2. rewrite IH by exact Hm.
    rewrite !Z.div_div by (try apply Z.pow_pos_nonneg; lia).
    f_equal. replace (Zpos n~0) with (Zpos n + Zpos n) by lia.
    rewrite !Z.pow_add_r by lia. ring.
  - rewrite shr_1_m, Z.div2_div by exact Hm. reflexivity.
Qed.

Lemma digits2_pos_bounds (p : positive) :
  2 ^ (Zpos (digits2_pos p) - 1) <= Zpos p < 2 ^ Zpos (digits2_pos p).
Proof.
  induction p as [p IH|p IH|]; simpl digits2_pos.
  - rewrite Pos2Z.inj_succ.
    replace (Z.succ (Zpos (digits2_pos p)) - 1)
      with (Z.succ (Zpos (digits2_pos p) - 1)) by lia.
    rewrite !Z.pow_succ_r by lia. lia.
  - rewrite Pos2Z.inj_succ.
    replace (Z.succ (Zpos (digits2_pos p)) - 1)
      with (Z.succ (Zpos (digits2_pos p) - 1)) by lia.
    rewrite !Z.pow_succ_r by lia. lia.
  - simpl. lia.
Qed.


Lemma shr_record_of_loc_m (m : Z) (l : location) :
  shr_m (shr_record_of_loc m l) = m.
Proof. destruct l as [|[]]; reflexivity. Qed.

Lemma shr_fexp_pos (p : positive) (e : Z) (l : location) :
  emin64 <= e ->
  0 < shr_m (fst (shr_fexp prec emax (Zpos p) e l)) /\
  emin64 <= snd (shr_fexp prec emax (Zpos p) e l).
Proof.
  intros He. unfold shr_fexp, shr, fexp, SpecFloat.emin, Zdigits2.
  change (3 - emax - prec) with emin64. change prec with 53.
  pose proof (digits2_pos_bounds p) as [Hlo _].
  destruct (Z.max (Zpos (digits2_pos p) + e - 53) emin64 - e)
    as [|n|n] eqn:En; simpl fst; simpl snd.
  - rewrite shr_record_of_loc_m. lia.
  - rewrite iter_pos_shr_1 by (rewrite shr_record_of_loc_m; lia).
    rewrite shr_record_of_loc_m. split; [|lia].
    apply Z.div_str_pos. split; [apply Z.pow_pos_nonneg; lia|].
    eapply Z.le_trans; [|exact Hlo].
    apply Z.pow_le_mono_r; lia.
  - rewrite shr_record_of_loc_m. lia.
Qed.

Lemma round_nearest_even_pos (m : Z) (l : location) :
  0 < m -> 0 < round_nearest_even m l.
Proof.
  intros H. unfold round_nearest_even.
  destruct l as [|[]]; try lia. destruct (Z.even m); lia.
Qed.

Lemma binary_round_aux_sign (sx : bool) (p : positive) (e : Z)
      (l : location) :
  emin64 <= e ->
  (exists m' e',
      binary_round_aux prec emax sx (Zpos p) e l = S754_finite sx m' e') \/
  binary_round_aux prec emax sx (Zpos p) e l = S754_infinity sx.
Proof.
  intros He. unfold binary_round_aux.
  pose proof (shr_fexp_pos p e l He) as [H1 H1'].
  destruct (shr_fexp prec emax (Zpos p) e l) as [mrs' e'].
  simpl in H1, H1'.
  pose proof (round_nearest_even_pos _ (loc_of_shr_record mrs') H1) as H2.
  destruct (round_nearest_even (shr_m mrs') (loc_of_shr_record mrs'))
    as [|q|q]; try lia.
  pose proof (shr_fexp_pos q e' loc_Exact H1') as [H3 _].
  destruct (shr_fexp prec emax (Zpos q) e' loc_Exact) as [mrs'' e''].
  simpl in H3.
  destruct (shr_m mrs'') as [|m''|m'']; try lia.
  destruct (e'' <=? emax - prec); eauto.
Qed.

Lemma shl_align_exponent (p : positive) (e e' : Z) :
  snd (shl_align p e e') = Z.min e e'.
Proof.
  unfold shl_align. destruct (e' - e) eqn:E; simpl; lia.
Qed.

Lemma iter_xO (d : positive) : forall p,
  Zpos (Pos.iter xO p d) = Zpos p * 2 ^ Zpos d.
Proof.
  induction d as [|d IH] using Pos.peano_ind; intros p.
  - simpl. lia.
  - rewrite Pos.iter_succ, Pos2Z.inj_succ, Z.pow_succ_r by lia.
    rewrite Pos2Z.inj_xO, IH. ring.
Qed.

Lemma shl_align_value (p : positive) (e e' : Z) :
  e' <= e ->
  Zpos (fst (shl_align p e e')) = Zpos p * 2 ^ (e - e').
Proof.
  intros H. unfold shl_align. destruct (e' - e) as [|d|d] eqn:E; simpl fst.
  - replace (e - e') with 0 by lia. simpl. lia.
  - lia.
  - rewrite iter_xO. f_equal. f_equal. lia.
Qed.

Lemma binary_round_sign (sx : bool) (p : positive) (e : Z) :
  emin64 <= e ->
  SFltb (S754_zero false) (binary_round prec emax sx p e) = negb sx.
Proof.
  intros He. unfold binary_round.
  pose proof (shl_align_exponent
                p e (fexp prec emax (Zpos (digits2_pos p) + e))) as Hs.
  destruct (shl_align p e _) as [mz ez]. simpl in Hs.
  assert (Hez : emin64 <= ez).
  { subst ez. unfold fexp, SpecFloat.emin.
    change (3 - emax - prec) with emin64. lia. }
  destruct (binary_round_aux_sign sx mz ez loc_Exact Hez)
    as [[m' [e' ->]]| ->]; destruct sx; reflexivity.
Qed.

(** Rounding an integer mantissa keeps its sign. *)
Lemma binary_normalize_sign (m e : Z) :
  emin64 <= e ->
  SFltb (S754_zero false) (binary_normalize prec emax m e false) = (0 <? m).
Proof.
  intros He. unfold binary_normalize.
  destruct m as [|p|p]; [reflexivity| |];
    now rewrite binary_round_sign by exact He.
Qed.

Lemma bounded_facts (m : positive) (e : Z) :
  bounded prec emax m e = true ->
  emin64 <= e /\ Zpos m < 2 ^ 53 /\ (emin64 < e -> 2 ^ 52 <= Zpos m).
Proof.
  unfold bounded, canonical_mantissa, fexp, SpecFloat.emin.
  change (3 - emax - prec) with emin64. change prec with 53.
  intros H. apply andb_true_iff in H. destruct H as [H _].
  apply Z.eqb_eq in H.
  pose proof (digits2_pos_bounds m) as [Hlo Hhi].
  split; [lia|]. split.
  - eapply Z.lt_le_trans; [exact Hhi|]. apply Z.pow_le_mono_r; lia.
  - intros He. replace (Zpos (digits2_pos m)) with 53 in Hlo by lia.
    exact Hlo.
Qed.

Lemma pow2_ge_2 (d : Z) : 1 <= d -> 2 <= 2 ^ d.
Proof.
  intros H. change 2 with (2 ^ 1) at 1. apply Z.pow_le_mono_r; lia.
Qed.

(** Two canonical mantissas aligned on the smaller exponent compare as their
    exponents do, and as themselves when the exponents agree. *)
Lemma aligned_order (mx my : positive) (ex ey : Z) :
  bounded prec emax mx ex = true -> bounded prec emax my ey = true ->
  let ez := Z.min ey ex in
  let X := Zpos (fst (shl_align mx ex ez)) in
  let Y := Zpos (fst (shl_align my ey ez)) in
  match ex ?= ey with
  | Lt => X < Y
  | Gt => Y < X
  | Eq => X = Zpos mx /\ Y = Zpos my
  end.
Proof.
  intros Hx Hy ez X Y. subst X Y.
  destruct (bounded_facts mx ex Hx) as [Hex [Hmx Hnx]].
  destruct (bounded_facts my ey Hy) as [Hey [Hmy Hny]].
  rewrite !shl_align_value by (subst ez; lia).
  destruct (Z.compare_spec ex ey) as [E|L|G]; subst ez.
  - subst ey. rewrite Z.min_id, Z.sub_diag. simpl. lia.
  - rewrite Z.min_r by lia. rewrite Z.sub_diag. simpl (2 ^ 0).
    pose proof (pow2_ge_2 (ey - ex)) as P. specialize (P ltac:(lia)).
    specialize (Hny ltac:(lia)).
    assert (2 ^ 52 = 4503599627370496) by reflexivity.
    assert (2 ^ 53 = 9007199254740992) by reflexivity.
    nia.
  - rewrite Z.min_l by lia. rewrite Z.sub_diag. simpl (2 ^ 0).
    pose proof (pow2_ge_2 (ex - ey)) as P. specialize (P ltac:(lia)).
    specialize (Hnx ltac:(lia)).
    assert (2 ^ 52 = 4503599627370496) by reflexivity.
    assert (2 ^ 53 = 9007199254740992) by reflexivity.
    nia.
Qed.

Lemma SFsub_sign (x y : spec_float) :
  valid_binary x = true -> valid_binary y = true ->
  SFltb (S754_zero false) (SFsub prec emax y x) = SFltb x y.
Proof.
  destruct x as [sx|sx| |sx mx ex], y as [sy|sy| |sy my ey];
    intros Hx Hy;
    try solve [ simpl; reflexivity
              | destruct sx; reflexivity
              | destruct sy; reflexivity
              | destruct sx, sy; reflexivity ].
  cbn [valid_binary] in Hx, Hy.
  destruct (bounded_facts mx ex Hx) as [Hex _].
  destruct (bounded_facts my ey Hy) as [Hey _].
  pose proof (aligned_order mx my ex ey Hx Hy) as H. cbv zeta in H.
  cbn [SFsub].
  rewrite binary_normalize_sign by lia.
  set (X := Zpos (fst (shl_align mx ex (Z.min ey ex)))) in *.
  set (Y := Zpos (fst (shl_align my ey (Z.min ey ex)))) in *.
  assert (HX : 0 < X) by (subst X; lia).
  assert (HY : 0 < Y) by (subst Y; lia).
  unfold SFltb, SFcompare.
  rewrite Pos.compare_cont_spec. cbn [Pos.switch_Eq].
  destruct sx, sy; cbn [cond_Zopp].
  - destruct (ex ?= ey); cbv iota in H |- *.
    + destruct H as [HX' HY'].
      destruct (Pos.compare_spec mx my); cbn [Pos.switch_Eq CompOpp];
        cbv iota; apply Z.ltb_lt || apply Z.ltb_ge; lia.
    + apply Z.ltb_ge. lia.
    + apply Z.ltb_lt. lia.
  - apply Z.ltb_lt. lia.
  - apply Z.ltb_ge. lia.
  - destruct (ex ?= ey); cbv iota in H |- *.
    + destruct H as [HX' HY'].
      destruct (Pos.compare_spec mx my); cbn [Pos.switch_Eq];
        cbv iota; apply Z.ltb_lt || apply Z.ltb_ge; lia.
    + apply Z.ltb_lt. lia.
    + apply Z.ltb_ge. lia.
Qed.

Lemma float_sub_pos (a b : float) :
  PrimFloat.ltb 0 (PrimFloat.sub b a) = PrimFloat.ltb a b.
Proof.
  rewrite !ltb_spec, sub_spec. unfold SF64sub.
  change (Prim2SF 0) with (S754_zero false).
  apply SFsub_sign; apply Prim2SF_valid.
Qed.

(** The subtraction of binary64 numbers obeys the law of differences. *)
Lemma Float64_sub : SubLaws Float64.
Proof. constructor. exact float_sub_pos. Qed.

End FloatSubtraction.

Set Implicit Arguments.


(* ================================================================= *)
(** ** Properties of the vector utilities *)

Section VectorUtilsFacts.
Context {NM : Number}.

Lemma guarded_mismatch (a b : vector) :
  List.length a <> List.length b -> guarded (Some a) (Some b) = None.
Proof.
  intros H. unfold guarded.
  destruct (Nat.eqb_spec (List.length a) (List.length b)); congruence.
Qed.

Lemma guarded_same (a b : vector) :
  List.length a = List.length b -> guarded (Some a) (Some b) = Some (a, b).
Proof.
  intros H. unfold guarded. now rewrite H, Nat.eqb_refl.
Qed.

(** The loop of [cosineSimilarity] computes the three sums side by side. *)
Lemma cosineLoop_acc (a b : vector) : forall d na nb,
  List.length a = List.length b ->
  fold_left
    (fun '(dotProduct, normA, normB) '(x, y) =>
       (add dotProduct (mul x y), add normA (mul x x), add normB (mul y y)))
    (combine a b) (d, na, nb)
  = (fold_left (fun product '(x, y) => add product (mul x y)) (combine a b) d,
     fold_left (fun sum val => add sum (mul val val)) a na,
     fold_left (fun sum val => add sum (mul val val)) b nb).
Proof.
  revert b. induction a as [|x a IH]; intros [|y b] d na nb Hlen;
    simpl in *; try discriminate; try reflexivity.
  apply IH. now injection Hlen.
Qed.

Lemma cosineLoop_sums (a b : vector) :
  List.length a = List.length b ->
  snd (fst (cosineLoop a b)) = sumSquares a /\
  snd (cosineLoop a b) = sumSquares b.
Proof.
  intros H. unfold cosineLoop. rewrite cosineLoop_acc by exact H. now split.
Qed.

(** C8. For vectors of different lengths, [dotProduct], [cosineSimilarity]
    and [euclideanDistance] return no value: each throws the error of the
    length guard. *)
Theorem mismatched_lengths_throw (a b : vector) :
  List.length a <> List.length b ->
  dotProduct (Some a) (Some b) = Throw DimensionMismatch /\
  cosineSimilarity (Some a) (Some b) = Throw DimensionMismatch /\
  euclideanDistance (Some a) (Some b) = Throw DimensionMismatch.
Proof.
  intros H. unfold dotProduct, cosineSimilarity, euclideanDistance.
  rewrite (guarded_mismatch _ _ H). repeat split.
Qed.

(** C9. For vectors of equal length of which one has norm 0, as the code
    computes the norm, [cosineSimilarity] returns 0 and does not throw: the
    division is not reached. *)
Theorem cosineSimilarity_zero_norm (a b : vector) :
  List.length a = List.length b ->
  eqb (norm a) zero = true \/ eqb (norm b) zero = true ->
  cosineSimilarity (Some a) (Some b) = Ok zero.
Proof.
  intros Hlen Hzero. unfold cosineSimilarity.
  rewrite (guarded_same _ _ Hlen).
  destruct (cosineLoop_sums a b Hlen) as [Ha Hb].
  destruct (cosineLoop a b) as [[d na] nb]. simpl in Ha, Hb. subst na nb.
  fold (norm a) (norm b).
  destruct Hzero as [H|H]; rewrite H; [reflexivity|].
  now rewrite orb_true_r.
Qed.

End VectorUtilsFacts.

Lemma cosineSimilarity_zero_norm_witness :
  List.length [0%float; 0%float] = List.length [3%float; 4%float] /\
  (eqb (norm (NM := Float64) [0%float; 0%float]) zero = true \/
   eqb (norm (NM := Float64) [3%float; 4%float]) zero = true) /\
  cosineSimilarity (NM := Float64) (Some [0%float; 0%float])
                   (Some [3%float; 4%float]) = Ok 0%float.
Proof.
  split; [reflexivity|]. split; [left; reflexivity|].
  apply (cosineSimilarity_zero_norm (NM := Float64)
           [0%float; 0%float] [3%float; 4%float]).
  - reflexivity.
  - left. reflexivity.
Defined.

Lemma mismatched_lengths_throw_witness :
  List.length [1%float] <> List.length [1%float; 2%float] /\
  dotProduct (NM := Float64) (Some [1%float]) (Some [1%float; 2%float])
  = Throw DimensionMismatch.
Proof.
  split; [simpl; lia|].
  apply (mismatched_lengths_throw (NM := Float64) [1%float] [1%float; 2%float]).
  simpl; lia.
Defined.

Section FloatVectors.

Lemma sumSquares_zeros (n : nat) :
  sumSquares (NM := Float64) (repeat 0%float n) = 0%float.
Proof.
  unfold sumSquares. induction n as [|n IH]; [reflexivity|].
  simpl. exact IH.
Qed.

(** On binary64 numbers the zero vector has similarity 0 to every vector of
    its length, whatever that vector holds (NaN and infinities included). *)
Lemma cosineSimilarity_zero_vector (b : list float) :
  cosineSimilarity (NM := Float64)
                   (Some (repeat 0%float (List.length b))) (Some b)
  = Ok 0%float.
Proof.
  pose proof (@guarded_same Float64 (repeat 0%float (List.length b)) b
                (repeat_length _ _)) as G.
  pose proof (@cosineLoop_sums Float64 (repeat 0%float (List.length b)) b
                (repeat_length _ _)) as [Ha _].
  rewrite sumSquares_zeros in Ha.
  unfold cosineSimilarity.
  replace (guarded (NM := Float64)
                   (Some (repeat 0%float (List.length b))) (Some b))
    with (Some (repeat 0%float (List.length b), b)) by (symmetry; exact G).
  destruct (cosineLoop _ _) as [[d na] nb]. simpl in Ha. subst na.
  reflexivity.
Qed.

(** Without the guard the result would be NaN: on binary64 numbers [0 / 0]
    is not equal to itself. *)
Example unguarded_division_is_nan :
  PrimFloat.eqb (0 / (0 * 0))%float (0 / (0 * 0))%float = false.
Proof. reflexivity. Qed.

End FloatVectors.

(* ================================================================= *)
(** ** Properties of the simulated embeddings *)

Section SimulateEmbeddingsFacts.
Context {NM : Number}.

Lemma addAt_length (index : nat) (delta : num) (embedding : vector) :
  List.length (AiService.addAt index delta embedding) = List.length embedding.
Proof.
  revert index. induction embedding as [|val rest IH]; intros [|index];
    simpl; auto.
Qed.

Lemma accumulate_length (text : jsstring) :
  List.length (AiService.accumulate text) = AiService.dimension.
Proof.
  unfold AiService.accumulate.
  assert (G : forall (cs : jsstring) (e : vector),
             List.length e = AiService.dimension ->
             List.length
               (fold_left
                  (fun embedding charCode =>
                     AiService.addAt
                       (N.to_nat (charCode mod N.of_nat AiService.dimension))
                       (div (ofN charCode) (ofN 1000)) embedding) cs e)
             = AiService.dimension).
  { induction cs as [|c cs IH]; intros e He; simpl; [exact He|].
    apply IH. now rewrite addAt_length. }
  apply G. apply repeat_length.
Qed.

Lemma simulateEmbeddings_length (text : jsstring) :
  List.length (AiService.simulateEmbeddings text) = AiService.dimension.
Proof.
  unfold AiService.simulateEmbeddings.
  rewrite length_map. apply accumulate_length.
Qed.

End SimulateEmbeddingsFacts.

(** C10. [simulateEmbeddings] is a total function that returns 768 entries
    for every string, in every number structure.  On binary64 numbers, when
    the accumulated vector is all zeros the result is the zero vector of 768
    entries (the divisor is [norm || 1], that is 1), and the empty string is
    such an input. *)
Theorem simulateEmbeddings_total (text : jsstring) :
  (forall NM : Number,
      List.length (AiService.simulateEmbeddings (NM := NM) text) = 768%nat) /\
  (AiService.accumulate (NM := Float64) text = repeat 0%float 768 ->
   AiService.simulateEmbeddings (NM := Float64) text = repeat 0%float 768) /\
  AiService.simulateEmbeddings (NM := Float64) [] = repeat 0%float 768.
Proof.
  split; [|split].
  - intros NM. apply simulateEmbeddings_length.
  - intros H. unfold AiService.simulateEmbeddings. rewrite H.
    vm_compute. reflexivity.
  - vm_compute. reflexivity.
Qed.

Lemma simulateEmbeddings_total_witness :
  AiService.accumulate (NM := Float64) [] = repeat 0%float 768 /\
  AiService.simulateEmbeddings (NM := Float64) [] = repeat 0%float 768.
Proof.
  split; [reflexivity|].
  apply (proj1 (proj2 (simulateEmbeddings_total []))). reflexivity.
Defined.

(** A text of NUL code units is another input whose accumulated vector is all
    zeros. *)
Example simulateEmbeddings_nul :
  AiService.simulateEmbeddings (NM := Float64) [0%N; 0%N; 0%N]
  = repeat 0%float 768.
Proof. vm_compute. reflexivity. Qed.

(** A text with content is mapped to a unit vector: no entry is NaN. *)
Example simulateEmbeddings_text :
  forallb (fun v => PrimFloat.eqb v v)
          (AiService.simulateEmbeddings (NM := Float64) (lit "AI healthcare"))
  = true.
Proof. vm_compute. reflexivity. Qed.

(* ================================================================= *)
(** ** Properties of arrays *)

Section ArrayFacts.
Context {NM : Number}.

Lemma insertSorted_perm {A} (compareFn : A -> A -> option num) (x : A)
      (sorted : list A) :
  Permutation (insertSorted compareFn x sorted) (x :: sorted).
Proof.
  induction sorted as [|y rest IH]; simpl; [apply Permutation_refl|].
  destruct (isPositive (compareFn x y)); [|apply Permutation_refl].
  eapply Permutation_trans; [apply perm_skip, IH|apply perm_swap].
Qed.

Lemma sort_perm {A} (compareFn : A -> A -> option num) (arr : list A) :
  Permutation (sort compareFn arr) arr.
Proof.
  induction arr as [|x arr IH]; simpl; [constructor|].
  eapply Permutation_trans; [apply insertSorted_perm|].
  now apply perm_skip.
Qed.

Lemma sort_length {A} (compareFn : A -> A -> option num) (arr : list A) :
  List.length (sort compareFn arr) = List.length arr.
Proof. apply Permutation_length, sort_perm. Qed.

Lemma sort_in {A} (compareFn : A -> A -> option num) (arr : list A) (x : A) :
  In x (sort compareFn arr) -> In x arr.
Proof. apply Permutation_in, sort_perm. Qed.

Lemma firstn_in {A} (n : nat) (l : list A) (x : A) :
  In x (firstn n l) -> In x l.
Proof.
  intros H. rewrite <- (firstn_skipn n l). apply in_or_app. now left.
Qed.

Lemma slice0_in {A} (arr : list A) (end_ : Z) (x : A) :
  In x (slice0 arr end_) -> In x arr.
Proof. unfold slice0. apply firstn_in. Qed.

Lemma slice0_length {A} (arr : list A) (end_ : Z) :
  (0 <= end_)%Z ->
  List.length (slice0 arr end_) = upTo end_ (List.length arr).
Proof.
  intros H. unfold slice0, upTo.
  destruct (Z.ltb_spec end_ 0); [lia|].
  rewrite length_firstn. lia.
Qed.

Lemma slice0_bound {A} (arr : list A) (end_ : Z) :
  (0 <= end_)%Z -> (Z.of_nat (List.length (slice0 arr end_)) <= end_)%Z.
Proof.
  intros H. rewrite slice0_length by exact H. unfold upTo. lia.
Qed.

Lemma firstn_StronglySorted {A} (R : A -> A -> Prop) (n : nat) (l : list A) :
  StronglySorted R l -> StronglySorted R (firstn n l).
Proof.
  revert n. induction l as [|x l IH]; intros [|n] H; simpl;
    try constructor.
  - apply IH. now inversion H.
  - inversion H as [|? ? _ Hall]; subst.
    rewrite Forall_forall in *. intros y Hy. apply Hall.
    eapply firstn_in; eauto.
Qed.

Lemma mapThrowing_Forall2 {A B} (f : A -> result B) (arr : list A)
      (out : list B) :
  mapThrowing f arr = Ok out -> Forall2 (fun x y => f x = Ok y) arr out.
Proof.
  revert out. induction arr as [|x rest IH]; simpl; intros out H.
  - injection H as <-. constructor.
  - destruct (f x) as [y|e] eqn:Ex; [|discriminate].
    destruct (mapThrowing f rest) as [ys|e]; [|discriminate].
    injection H as <-. constructor; auto.
Qed.

Lemma mapThrowing_defined {A B} (f : A -> result B) (arr : list A) :
  Forall (fun x => exists y, f x = Ok y) arr ->
  exists out, mapThrowing f arr = Ok out.
Proof.
  induction 1 as [|x rest [y Hy] _ [ys IH]]; simpl; [eauto|].
  rewrite Hy, IH. eauto.
Qed.

Lemma Forall2_length_eq {A B} (R : A -> B -> Prop) (l : list A) (l' : list B) :
  Forall2 R l l' -> List.length l = List.length l'.
Proof. induction 1; simpl; auto. Qed.

Lemma Forall2_in_r {A B} (R : A -> B -> Prop) (l : list A) (l' : list B)
      (y : B) :
  Forall2 R l l' -> In y l' -> exists x, In x l /\ R x y.
Proof.
  induction 1 as [|a b l l' Hab _ IH]; simpl; [tauto|].
  intros [<-|Hin]; [eauto|].
  destruct (IH Hin) as [x [Hx HR]]. eauto.
Qed.

End ArrayFacts.

(* ================================================================= *)
(** ** Properties of the ranking *)

Section ThresholdFacts.
Context {NM : Number} {OL : OrderLaws NM}.

Lemma scoreGte_notBelow (threshold : num) (doc : Thesis) :
  scoreGte threshold doc = true -> notBelow threshold doc.
Proof.
  unfold scoreGte, notBelow, geb. destruct (score doc) as [s|]; [|discriminate].
  intros H. exists s. split; [reflexivity|]. now apply leb_ltb.
Qed.

Lemma scoreGte_ranked (threshold : num) (doc : Thesis) :
  scoreGte threshold doc = true -> ranked doc.
Proof.
  unfold scoreGte, ranked, geb. destruct (score doc) as [s|]; [|discriminate].
  intros H. exists s. split; [reflexivity|].
  now destruct (leb_comparable _ _ H).
Qed.

Lemma ranksAbove_trans (a b c : Thesis) :
  ranksAbove a b -> ranksAbove b c -> ranksAbove a c.
Proof.
  unfold ranksAbove.
  destruct (score a), (score b), (score c); try tauto.
  intros H1 H2. eapply leb_trans; eauto.
Qed.

End ThresholdFacts.

Section OrderFacts.
Context {NM : Number} {OL : OrderLaws NM} {SL : SubLaws NM}.

Lemma isPositive_byScoreDesc (x y : Thesis) (sx sy : num) :
  score x = Some sx -> score y = Some sy ->
  isPositive (SearchService.byScoreDesc x y) = ltb sx sy.
Proof.
  intros Hx Hy. unfold SearchService.byScoreDesc. rewrite Hx, Hy. simpl.
  apply sub_pos.
Qed.

Lemma insertSorted_descending (x : Thesis) (sorted : list Thesis) :
  ranked x -> Forall ranked sorted -> descending sorted ->
  descending (insertSorted SearchService.byScoreDesc x sorted).
Proof.
  intros [sx [Hx Cx]]. unfold descending.
  induction sorted as [|y rest IH]; intros Hall Hsorted; simpl.
  - repeat constructor.
  - inversion Hall as [|? ? [sy [Hy Cy]] Hrest]; subst.
    inversion Hsorted as [|? ? Hsrest Hy_above]; subst.
    rewrite (isPositive_byScoreDesc _ _ Hx Hy).
    destruct (ltb sx sy) eqn:Hlt.
    + constructor; [now apply IH|].
      eapply Permutation_Forall;
        [apply Permutation_sym, insertSorted_perm|].
      constructor; [|exact Hy_above].
      unfold ranksAbove. rewrite Hx, Hy. now apply ltb_leb.
    + assert (Hxy : ranksAbove x y).
      { unfold ranksAbove. rewrite Hx, Hy. now apply leb_total. }
      constructor; [exact Hsorted|].
      constructor; [exact Hxy|].
      rewrite Forall_forall in *. intros z Hz.
      eapply ranksAbove_trans; eauto.
Qed.

Lemma sort_descending (arr : list Thesis) :
  Forall ranked arr -> descending (sort SearchService.byScoreDesc arr).
Proof.
  induction arr as [|x arr IH]; intros Hall; simpl; [constructor|].
  inversion Hall; subst.
  apply insertSorted_descending; auto.
  eapply Permutation_Forall; [apply Permutation_sym, sort_perm|]. assumption.
Qed.

Lemma slice0_descending (arr : list Thesis) (end_ : Z) :
  descending arr -> descending (slice0 arr end_).
Proof. unfold slice0. apply firstn_StronglySorted. Qed.

End OrderFacts.

Section ScanFacts.
Context {NM : Number}.

Lemma scoreAgainst_ok (reference : option vector) (thesis scored : Thesis) :
  SearchService.scoreAgainst reference thesis = Ok scored ->
  exists s, dotProduct reference (embeddings thesis) = Ok s /\
            scored = withScore thesis s.
Proof.
  unfold SearchService.scoreAgainst.
  destruct (dotProduct reference (embeddings thesis)) as [s|e];
    [|discriminate].
  intros H. injection H as <-. eauto.
Qed.

Lemma scoreAgainst_defined (n : nat) (reference : vector) (thesis : Thesis) :
  List.length reference = n -> hasDimension n thesis ->
  exists scored, SearchService.scoreAgainst (Some reference) thesis = Ok scored.
Proof.
  intros Hn [v [Hv Hlen]]. unfold SearchService.scoreAgainst, dotProduct.
  rewrite Hv, guarded_same by congruence. eauto.
Qed.

Lemma filter_all (docs : list Thesis) :
  filter (matchesFilter FilterAll) docs = docs.
Proof.
  induction docs as [|d docs IH]; simpl; [reflexivity|]. now rewrite IH.
Qed.

Lemma rankManual_in (queryEmbedding : option vector) (limit : Z)
      (threshold : num) (allTheses results : list Thesis) (doc : Thesis) :
  SearchService.rankManual queryEmbedding limit threshold allTheses
  = Ok results ->
  In doc results -> scoreGte threshold doc = true.
Proof.
  unfold SearchService.rankManual.
  destruct (mapThrowing _ allTheses) as [scored|e]; [|discriminate].
  intros H Hin. injection H as <-.
  apply slice0_in, sort_in, filter_In in Hin. tauto.
Qed.

Variable w : World.

Lemma manualVectorSearch_eq (queryEmbedding : option vector) (limit : Z)
      (threshold : num) (tr : list Event) :
  SearchService.manualVectorSearch w queryEmbedding limit threshold tr
  = (match collection w tr with
     | Ok docs =>
         SearchService.rankManual queryEmbedding limit threshold docs
     | Throw e => Throw e
     end, tr ++ [CallFind FilterAll]).
Proof.
  unfold SearchService.manualVectorSearch, tryCatch, bind, find, call,
    liftResult, throw.
  destruct (collection w tr) as [docs|e]; [|reflexivity].
  rewrite filter_all.
  destruct (SearchService.rankManual _ _ _ docs); reflexivity.
Qed.

Lemma applyStages_afterIndex (threshold : num)
      (candidates : list (Thesis * num)) :
  match applyStages
          [AddFieldsScoreMeta; MatchScoreGte threshold;
           Project [FTitle; FAbstract; FTags; FCreatedAt; FScore]]
          (map (fun '(doc, s) => (doc, Some s)) candidates)
  with
  | Ok docs => map fst docs = afterIndex threshold candidates
  | Throw _ => False
  end.
Proof.
  simpl. unfold afterIndex.
  induction candidates as [|[doc s] rest IH]; simpl; [reflexivity|].
  destruct (scoreGte threshold (setScore doc (Some s))); simpl;
    now rewrite IH.
Qed.

Lemma atlasVectorSearch_eq (queryEmbedding : option vector) (limit : Z)
      (threshold : num) (tr : list Event) :
  SearchService.atlasVectorSearch w queryEmbedding limit threshold tr
  = (match vectorIndex w tr (lit "semanticsearch") (lit "embeddings")
                       queryEmbedding SearchService.numCandidates limit with
     | Ok candidates => Ok (afterIndex threshold candidates)
     | Throw _ => Throw (Error (lit "Atlas Vector Search not configured"))
     end,
     tr ++ [CallVectorIndex (lit "semanticsearch") (lit "embeddings")
                            queryEmbedding SearchService.numCandidates limit]).
Proof.
  unfold SearchService.atlasVectorSearch, SearchService.pipeline, aggregate,
    tryCatch, bind, call, liftResult, ret, throw.
  destruct (vectorIndex w tr _ _ queryEmbedding _ limit) as [candidates|e];
    [|reflexivity].
  pose proof (applyStages_afterIndex threshold candidates) as H.
  destruct (applyStages _ _) as [docs|e]; [|contradiction].
  now rewrite H.
Qed.

Lemma afterIndex_in (threshold : num) (candidates : list (Thesis * num))
      (doc : Thesis) :
  In doc (afterIndex threshold candidates) -> scoreGte threshold doc = true.
Proof.
  unfold afterIndex. intros H.
  apply in_map_iff in H. destruct H as [d [<- Hd]].
  apply filter_In in Hd. destruct Hd as [_ Hd].
  unfold scoreGte in *. simpl. exact Hd.
Qed.

End ScanFacts.

(* ================================================================= *)
(** ** Properties of the search service *)

Section SearchFacts.
Context {NM : Number} (w : World).

Lemma semanticSearch_eq (query : jsstring)
      (options : SearchService.SearchOptions) (tr : list Event) :
  SearchService.semanticSearch w query options tr
  = let limit :=
      default SearchService.defaultLimit (SearchService.limit options) in
    let threshold :=
      default SearchService.defaultThreshold
              (SearchService.threshold options) in
    match EmbeddingService.generateQueryEmbedding w query tr with
    | (Throw e, tr1) =>
        (Throw (Error (lit "Semantic search failed: " ++ messageOf e)), tr1)
    | (Ok queryEmbedding, tr1) =>
        match SearchService.atlasVectorSearch w queryEmbedding limit
                                              threshold tr1 with
        | (Ok (r :: rs), tr2) => (Ok (r :: rs), tr2)
        | (_, tr2) =>
            match SearchService.manualVectorSearch w queryEmbedding limit
                                                   threshold tr2 with
            | (Ok results, tr3) => (Ok results, tr3)
            | (Throw e, tr3) =>
                (Throw (Error (lit "Semantic search failed: " ++ messageOf e)),
                 tr3)
            end
        end
    end.
Proof.
  unfold SearchService.semanticSearch, tryCatch, bind, ret, throw. simpl.
  destruct (EmbeddingService.generateQueryEmbedding w query tr)
    as [[queryEmbedding|e] tr1]; [|reflexivity].
  destruct (SearchService.atlasVectorSearch w queryEmbedding _ _ tr1)
    as [[[|r rs]|e] tr2]; simpl; try reflexivity;
    destruct (SearchService.manualVectorSearch w queryEmbedding _ _ tr2)
      as [[results|e'] tr3]; reflexivity.
Qed.

Lemma atlas_notBelow {OL : OrderLaws NM} (queryEmbedding : option vector)
      (limit : Z) (threshold : num) (tr tr' : list Event)
      (results : list Thesis) :
  SearchService.atlasVectorSearch w queryEmbedding limit threshold tr
  = (Ok results, tr') ->
  Forall (notBelow threshold) results.
Proof.
  rewrite atlasVectorSearch_eq.
  destruct (vectorIndex w tr _ _ queryEmbedding _ limit) as [candidates|e];
    [|discriminate].
  intros H. injection H as <- _.
  apply Forall_forall. intros doc Hin.
  eapply scoreGte_notBelow, afterIndex_in; eauto.
Qed.

Lemma manual_notBelow {OL : OrderLaws NM} (queryEmbedding : option vector)
      (limit : Z) (threshold : num) (tr tr' : list Event)
      (results : list Thesis) :
  SearchService.manualVectorSearch w queryEmbedding limit threshold tr
  = (Ok results, tr') ->
  Forall (notBelow threshold) results.
Proof.
  rewrite manualVectorSearch_eq.
  destruct (collection w tr) as [docs|e]; [|discriminate].
  intros H. injection H as H _.
  apply Forall_forall. intros doc Hin.
  eapply scoreGte_notBelow, rankManual_in; eauto.
Qed.

(** C1. On the indexed path, on the manual path and in [semanticSearch],
    which returns the result of one of the two, no returned document has a
    score strictly below the supplied threshold. *)
Theorem search_results_meet_threshold {OL : OrderLaws NM}
        (threshold : num) (limit : Z) (tr tr' : list Event)
        (results : list Thesis) :
  (forall queryEmbedding,
      SearchService.atlasVectorSearch w queryEmbedding limit threshold tr
      = (Ok results, tr') ->
      Forall (notBelow threshold) results) /\
  (forall queryEmbedding,
      SearchService.manualVectorSearch w queryEmbedding limit threshold tr
      = (Ok results, tr') ->
      Forall (notBelow threshold) results) /\
  (forall query optLimit,
      SearchService.semanticSearch
        w query
        {| SearchService.limit := optLimit;
           SearchService.threshold := Some threshold |} tr
      = (Ok results, tr') ->
      Forall (notBelow threshold) results).
Proof.
  split; [|split].
  - intros q. apply atlas_notBelow.
  - intros q. apply manual_notBelow.
  - intros query optLimit. rewrite semanticSearch_eq. simpl.
    destruct (EmbeddingService.generateQueryEmbedding w query tr)
      as [[q|e] tr1]; [|discriminate].
    destruct (SearchService.atlasVectorSearch w q _ threshold tr1)
      as [[[|r rs]|e] tr2] eqn:Ha.
    + destruct (SearchService.manualVectorSearch w q _ threshold tr2)
        as [[res|e'] tr3] eqn:Hm; [|discriminate].
      intros H. injection H as <- _. eapply manual_notBelow; eauto.
    + intros H. injection H as <- _. eapply atlas_notBelow; eauto.
    + destruct (SearchService.manualVectorSearch w q _ threshold tr2)
        as [[res|e'] tr3] eqn:Hm; [|discriminate].
      intros H. injection H as <- _. eapply manual_notBelow; eauto.
Qed.

(** C2, as the code has it.  Whenever the manual path returns, its result
    is no longer than a limit that is not negative, and for every limit its
    scores never increase along the list.  Over an empty collection it
    returns the empty list, and over a collection whose vectors all have the
    length of the query vector it does return. *)
Theorem manualVectorSearch_contract {OL : OrderLaws NM} {SL : SubLaws NM}
        (queryEmbedding : option vector) (limit : Z) (threshold : num)
        (tr : list Event) :
  (forall results tr',
      SearchService.manualVectorSearch w queryEmbedding limit threshold tr
      = (Ok results, tr') ->
      ((0 <= limit)%Z -> (Z.of_nat (List.length results) <= limit)%Z) /\
      descending results) /\
  (collection w tr = Ok [] ->
   SearchService.manualVectorSearch w queryEmbedding limit threshold tr
   = (Ok [], tr ++ [CallFind FilterAll])) /\
  (forall v docs,
      queryEmbedding = Some v -> collection w tr = Ok docs ->
      Forall (hasDimension (List.length v)) docs ->
      exists results,
        SearchService.manualVectorSearch w queryEmbedding limit threshold tr
        = (Ok results, tr ++ [CallFind FilterAll])).
Proof.
  rewrite manualVectorSearch_eq. split; [|split].
  - intros results tr'.
    destruct (collection w tr) as [docs|e]; [|discriminate].
    unfold SearchService.rankManual.
    destruct (mapThrowing _ docs) as [scored|e]; [|discriminate].
    intros H. injection H as <- _. split.
    + apply slice0_bound.
    + apply slice0_descending, sort_descending.
      apply Forall_forall. intros doc Hin. apply filter_In in Hin.
      eapply scoreGte_ranked. apply Hin.
  - intros ->. destruct limit; reflexivity.
  - intros v docs -> -> Hdim. unfold SearchService.rankManual.
    destruct (mapThrowing_defined
                (SearchService.scoreAgainst (Some v)) (arr := docs))
      as [scored Hs].
    { eapply Forall_impl; [|exact Hdim]. intros doc Hd.
      eapply scoreAgainst_defined; eauto. }
    rewrite Hs. eauto.
Qed.

(** C3, as the code has it.  The one call of [atlasVectorSearch] is an index
    query that carries the result limit it was given and a candidate pool of
    100, whatever the limit: ten times the default limit of
    [semanticSearch], and at least the limit exactly when the limit is at
    most 100. *)
Theorem atlas_candidate_pool (queryEmbedding : option vector) (limit : Z)
        (threshold : num) (tr : list Event) :
  exists ev pool,
    snd (SearchService.atlasVectorSearch w queryEmbedding limit threshold tr)
    = tr ++ [ev] /\
    poolAndLimit ev = Some (pool, limit) /\
    pool = 100%Z /\
    pool = (10 * SearchService.defaultLimit)%Z /\
    ((limit <= pool)%Z <-> (limit <= 100)%Z).
Proof.
  rewrite atlasVectorSearch_eq. eexists. exists 100%Z.
  split; [reflexivity|]. split; [reflexivity|]. split; [reflexivity|].
  split; [reflexivity|]. tauto.
Qed.

End SearchFacts.

Lemma search_results_meet_threshold_witness :
  exists results tr',
    SearchService.semanticSearch
      Samples.online (lit "neural")
      {| SearchService.limit := None;
         SearchService.threshold := Some (0.5%float : @num Float64) |} []
    = (Ok results, tr') /\
    results <> [] /\
    Forall (notBelow (NM := Float64) 0.5%float) results.
Proof.
  eexists. eexists. split; [vm_compute; reflexivity|].
  split; [discriminate|].
  eapply (proj2 (proj2 (search_results_meet_threshold
                          (OL := Float64_order) Samples.online
                          0.5%float 10%Z [] _ _))
                (lit "neural") None).
  vm_compute. reflexivity.
Defined.

Lemma manualVectorSearch_contract_witness :
  exists results tr',
    SearchService.manualVectorSearch
      Samples.offline (Some [1%float; 0%float]) 2%Z
      (0%float : @num Float64) []
    = (Ok results, tr') /\
    (0 <= 2)%Z /\
    (Z.of_nat (List.length results) <= 2)%Z /\
    descending results.
Proof.
  eexists. eexists. split; [vm_compute; reflexivity|].
  split; [lia|].
  pose proof (proj1 (manualVectorSearch_contract
                       (OL := Float64_order) (SL := Float64_sub)
                       Samples.offline
                       (Some [1%float; 0%float]) 2%Z
                       (0%float : @num Float64) [])) as H.
  edestruct H as [Hlen Hdesc]; [vm_compute; reflexivity|].
  split; [apply Hlen; lia|exact Hdesc].
Defined.

(** C2, as stated, fails: at limit -1 the manual path returns the ranking
    without its last thesis, two theses of the sample store. *)
Lemma manual_result_exceeds_negative_limit :
  exists results,
    run (SearchService.manualVectorSearch
           Samples.offline (Some [1%float; 0%float]) (-1)%Z
           (0%float : @num Float64))
    = Ok results /\
    idsOf (Ok results) = Some [lit "d1"; lit "d3"] /\
    ~ (Z.of_nat (List.length results) <= -1)%Z.
Proof.
  eexists. split; [vm_compute; reflexivity|].
  split; [reflexivity|]. simpl. lia.
Qed.

(** C3, as stated, fails: at limit 101 the candidate pool is below the
    limit. *)
Lemma candidate_pool_below_limit :
  ~ (forall (limit pool l : Z) (ev : Event),
        In ev (calls (SearchService.atlasVectorSearch
                        Samples.online (Some [1%float; 0%float]) limit
                        (0.5%float : @num Float64))) ->
        poolAndLimit ev = Some (pool, l) ->
        (limit <= pool)%Z).
Proof.
  intros H.
  specialize (H 101%Z 100%Z 101%Z
                (@CallVectorIndex Float64
                   (lit "semanticsearch") (lit "embeddings")
                   (Some [1%float; 0%float]) 100 101)).
  assert (C : (101 <= 100)%Z); [|lia].
  apply H; [left|]; reflexivity.
Qed.

(* ================================================================= *)
(** ** Properties of [findSimilarTheses] *)

Section SimilarFacts.
Context {NM : Number} (w : World).

Lemma str_eqb_eq (a b : jsstring) : str_eqb a b = true <-> a = b.
Proof.
  unfold str_eqb. destruct (list_eq_dec N.eq_dec a b); split; congruence.
Qed.

Lemma filterIdNe_in (thesisId : jsstring) (stored : list Thesis)
      (doc : Thesis) :
  In doc (filter (matchesFilter (FilterIdNe thesisId)) stored) ->
  _id doc <> thesisId.
Proof.
  intros H. apply filter_In in H. destruct H as [_ H]. simpl in H.
  apply negb_true_iff in H. intros E. apply str_eqb_eq in E. congruence.
Qed.

Lemma findSimilarTheses_eq (thesisId : jsstring) (limit : option Z)
      (tr : list Event) :
  SearchService.findSimilarTheses w thesisId limit tr
  = let failed e :=
        Throw (Error (lit "Similar thesis search failed: " ++ messageOf e)) in
    let tr1 := tr ++ [CallFindById thesisId] in
    let tr2 := tr1 ++ [CallFind (FilterIdNe thesisId)] in
    match collection w tr with
    | Throw e => (failed e, tr1)
    | Ok stored0 =>
        match List.find (fun doc => str_eqb (_id doc) thesisId) stored0 with
        | None => (failed (Error (lit "Thesis not found")), tr1)
        | Some referenceThesis =>
            match collection w tr1 with
            | Throw e => (failed e, tr2)
            | Ok stored =>
                match SearchService.rankSimilar
                        referenceThesis (default 5%Z limit)
                        (filter (matchesFilter (FilterIdNe thesisId)) stored)
                with
                | Ok results => (Ok results, tr2)
                | Throw e => (failed e, tr2)
                end
            end
        end
    end.
Proof.
  unfold SearchService.findSimilarTheses, tryCatch, bind, findById, find,
    call, liftResult, throw. simpl.
  destruct (collection w tr) as [stored0|e]; [|reflexivity].
  destruct (List.find _ stored0) as [ref|]; [|reflexivity].
  destruct (collection w (tr ++ [CallFindById thesisId])) as [stored|e];
    [|reflexivity].
  destruct (SearchService.rankSimilar ref _ _); reflexivity.
Qed.

Lemma rankSimilar_in (referenceThesis : Thesis) (limit : Z)
      (allTheses results : list Thesis) (doc : Thesis) :
  SearchService.rankSimilar referenceThesis limit allTheses = Ok results ->
  In doc results ->
  exists thesis s,
    In thesis allTheses /\
    dotProduct (embeddings referenceThesis) (embeddings thesis) = Ok s /\
    doc = withScore thesis s.
Proof.
  unfold SearchService.rankSimilar.
  destruct (mapThrowing _ allTheses) as [scored|e] eqn:Hs; [|discriminate].
  intros H Hin. injection H as <-.
  apply slice0_in, sort_in in Hin.
  destruct (Forall2_in_r doc (mapThrowing_Forall2 _ _ Hs) Hin)
    as [t [Ht Hd]].
  destruct (scoreAgainst_ok _ _ Hd) as [s [Hdot ->]]. eauto.
Qed.

Lemma slice0_firstn {A} (arr : list A) (end_ : Z) :
  (0 <= end_)%Z -> slice0 arr end_ = firstn (Z.to_nat end_) arr.
Proof.
  intros Hpos. unfold slice0.
  destruct (end_ <? 0)%Z eqn:E; [apply Z.ltb_lt in E; lia|].
  destruct (Z.le_ge_cases end_ (Z.of_nat (List.length arr))) as [Hle|Hge].
  - rewrite Z.min_l by exact Hle. reflexivity.
  - rewrite Z.min_r by exact Hge. rewrite Nat2Z.id, firstn_all.
    symmetry. apply firstn_all2. lia.
Qed.

Lemma StronglySorted_split {A} (R : A -> A -> Prop) (n : nat) (l : list A) :
  StronglySorted R l ->
  forall x y, In x (firstn n l) -> In y (skipn n l) -> R x y.
Proof.
  intros Hs. revert n. induction Hs as [|a l Hs IH Ha]; intros n x y.
  - rewrite firstn_nil. intros [].
  - destruct n as [|n]; simpl; [intros []|].
    intros [<-|Hx] Hy.
    + rewrite Forall_forall in Ha. apply Ha.
      rewrite <- (firstn_skipn n l). apply in_or_app. right. exact Hy.
    + eapply IH; eauto.
Qed.

Lemma rankSimilar_ranking {OL : OrderLaws NM} {SL : SubLaws NM}
      (referenceThesis : Thesis) (limit : Z) (others : list Thesis)
      (k : nat) :
  hasDimension k referenceThesis ->
  Forall (hasDimension k) others ->
  (forall thesis s,
      In thesis others ->
      dotProduct (embeddings referenceThesis) (embeddings thesis) = Ok s ->
      comparable s = true) ->
  exists scored ranked,
    SearchService.rankSimilar referenceThesis limit others
    = Ok (slice0 ranked limit) /\
    Forall2 (scoredAgainst referenceThesis) others scored /\
    Permutation ranked scored /\
    descending ranked.
Proof.
  intros [v [Hv Hk]] Hdim Hnum.
  destruct (mapThrowing_defined
              (SearchService.scoreAgainst (embeddings referenceThesis))
              (arr := others)) as [scored Hs].
  { eapply Forall_impl; [|exact Hdim].
    intros doc Hd. rewrite Hv. eapply scoreAgainst_defined; eauto. }
  pose proof (mapThrowing_Forall2 _ _ Hs) as HF.
  exists scored, (sort SearchService.byScoreDesc scored).
  split; [unfold SearchService.rankSimilar; now rewrite Hs|].
  split; [|split].
  - clear - HF. induction HF as [|t d ts ds Hd _ IH]; constructor; auto.
    apply scoreAgainst_ok in Hd. exact Hd.
  - apply sort_perm.
  - apply sort_descending. apply Forall_forall. intros doc Hin.
    destruct (Forall2_in_r doc HF Hin) as [t [Ht Hd]].
    destruct (scoreAgainst_ok _ _ Hd) as [s [Hdot ->]].
    exists s. split; [reflexivity|]. eapply Hnum; eauto.
Qed.

(** C6, as the code has it.  [findSimilarTheses] never returns the reference
    document, whatever the limit.  For an existing reference document, a
    limit that is not negative and a store whose vectors have the dimension
    of the reference vector and give similarities that are not NaN, it
    returns, and what it returns are the most similar of the other stored
    documents: the first [limit] entries of a ranking of all of them, each
    with its dot product against the reference vector as score, in
    descending order of score.  No score excludes a document, and no
    document left out scores higher than one returned. *)
Theorem findSimilarTheses_contract {OL : OrderLaws NM} {SL : SubLaws NM}
        (thesisId : jsstring) (limit : option Z) (tr : list Event) :
  (forall results tr',
      SearchService.findSimilarTheses w thesisId limit tr = (Ok results, tr') ->
      Forall (fun doc => _id doc <> thesisId) results) /\
  (forall stored0 referenceThesis stored k,
      collection w tr = Ok stored0 ->
      List.find (fun doc => str_eqb (_id doc) thesisId) stored0
      = Some referenceThesis ->
      collection w (tr ++ [CallFindById thesisId]) = Ok stored ->
      let others := filter (matchesFilter (FilterIdNe thesisId)) stored in
      hasDimension k referenceThesis ->
      Forall (hasDimension k) others ->
      (forall thesis s,
          In thesis others ->
          dotProduct (embeddings referenceThesis) (embeddings thesis) = Ok s ->
          comparable s = true) ->
      (0 <= default 5%Z limit)%Z ->
      exists results scored ranked,
        SearchService.findSimilarTheses w thesisId limit tr
        = (Ok results,
           tr ++ [CallFindById thesisId; CallFind (FilterIdNe thesisId)]) /\
        List.length results = upTo (default 5%Z limit) (List.length others) /\
        descending results /\
        Forall (fun doc =>
                  exists thesis s,
                    In thesis others /\
                    dotProduct (embeddings referenceThesis)
                               (embeddings thesis) = Ok s /\
                    doc = withScore thesis s) results /\
        Forall2 (scoredAgainst referenceThesis) others scored /\
        Permutation ranked scored /\
        descending ranked /\
        results = firstn (Z.to_nat (default 5%Z limit)) ranked /\
        (forall doc other,
            In doc results ->
            In other (skipn (Z.to_nat (default 5%Z limit)) ranked) ->
            ranksAbove doc other)).
Proof.
  rewrite findSimilarTheses_eq. simpl. split.
  - intros results tr'.
    destruct (collection w tr) as [stored0|e]; [|discriminate].
    destruct (List.find _ stored0) as [ref|]; [|discriminate].
    destruct (collection w (tr ++ [CallFindById thesisId])) as [stored|e];
      [|discriminate].
    destruct (SearchService.rankSimilar ref _ _) as [res|e] eqn:Hr;
      [|discriminate].
    intros H. injection H as <- _.
    apply Forall_forall. intros doc Hin.
    destruct (rankSimilar_in _ _ _ doc Hr Hin) as [t [s [Ht [_ ->]]]].
    simpl. eapply filterIdNe_in; eauto.
  - intros stored0 ref stored k -> -> ->.
    set (others := filter (matchesFilter (FilterIdNe thesisId)) stored).
    intros Href Hdim Hnum Hlimit.
    destruct (rankSimilar_ranking (default 5%Z limit) Href Hdim Hnum)
      as [scored [ranked [Hr [HF [Hperm Hdesc]]]]].
    rewrite Hr. rewrite <- app_assoc. simpl.
    exists (slice0 ranked (default 5%Z limit)), scored, ranked.
    split; [reflexivity|].
    split; [|split; [|split; [|split; [|split; [|split; [|split]]]]]].
    + rewrite slice0_length by exact Hlimit. unfold upTo. f_equal.
      rewrite (Permutation_length Hperm).
      symmetry. eapply Forall2_length_eq; eauto.
    + apply slice0_descending. exact Hdesc.
    + apply Forall_forall. intros doc Hin.
      eapply rankSimilar_in; eauto.
    + exact HF.
    + exact Hperm.
    + exact Hdesc.
    + apply slice0_firstn. exact Hlimit.
    + intros doc other. rewrite slice0_firstn by exact Hlimit.
      apply StronglySorted_split. exact Hdesc.
Qed.

End SimilarFacts.

Lemma findSimilarTheses_contract_witness :
  exists results,
    SearchService.findSimilarTheses Samples.offline (lit "d1") (Some 2%Z) []
    = (Ok results,
       [] ++ [CallFindById (lit "d1"); CallFind (FilterIdNe (lit "d1"))]) /\
    List.length results = 2%nat /\
    descending results /\
    idsOf (Ok results) = Some [lit "d3"; lit "d2"].
Proof.
  destruct (proj2 (findSimilarTheses_contract
                     (OL := Float64_order) (SL := Float64_sub)
                     Samples.offline (lit "d1") (Some 2%Z) [])
                  [Samples.d2; Samples.d3; Samples.d1] Samples.d1
                  [Samples.d2; Samples.d3; Samples.d1] 2%nat)
    as [results [scored [ranked [Hrun [Hlen [Hdesc _]]]]]].
  - reflexivity.
  - reflexivity.
  - reflexivity.
  - exists [1%float; 0%float]. split; reflexivity.
  - repeat constructor; eexists; split; reflexivity.
  - intros thesis s Hin Hdot.
    destruct Hin as [<-|[<-|[]]]; vm_compute in Hdot;
      injection Hdot as <-; reflexivity.
  - simpl. lia.
  - exists results. split; [exact Hrun|]. split; [exact Hlen|].
    split; [exact Hdesc|].
    vm_compute in Hrun. injection Hrun as <-. reflexivity.
Defined.

(** C6, as stated, fails in three ways.  At limit -1 the lookup returns one
    document, which is more than the limit.  In a store with a vector of
    another dimension it does not return.  And in a store of finite vectors
    whose dot product with the reference overflows to NaN, the document with
    the NaN score is returned before one with score 0: the result is not
    in descending order. *)
Lemma findSimilarTheses_outside_contract :
  (exists results,
      run (SearchService.findSimilarTheses
             Samples.offline (lit "d1") (Some (-1)%Z))
      = Ok results /\
      idsOf (Ok results) = Some [lit "d3"] /\
      ~ (Z.of_nat (List.length results) <= -1)%Z) /\
  run (SearchService.findSimilarTheses Samples.mixed (lit "d1") (Some 5%Z))
  = Throw (Error (lit "Similar thesis search failed: Vectors must be of the same length")) /\
  (exists results,
      run (SearchService.findSimilarTheses
             Samples.overflowing (lit "big") (Some 5%Z))
      = Ok results /\
      idsOf (Ok results) = Some [lit "opposed"; lit "origin"] /\
      ~ descending results).
Proof.
  split; [|split].
  - eexists. split; [vm_compute; reflexivity|].
    split; [reflexivity|]. simpl. lia.
  - vm_compute. reflexivity.
  - eexists. split; [vm_compute; reflexivity|].
    split; [reflexivity|].
    intros H. inversion H as [|? ? _ Habove]; subst.
    inversion Habove as [|? ? Hr _]; subst.
    vm_compute in Hr. discriminate.
Qed.

(* ================================================================= *)
(** ** Calls to the completion endpoint *)

Section GenerateFacts.
Context {NM : Number} (w : World).

Lemma generateCalls_snoc (tr : list Event) (ev : Event) :
  generateCalls (tr ++ [ev])
  = generateCalls tr ++ (if isGenerate ev then [ev] else []).
Proof.
  unfold generateCalls. rewrite filter_app. simpl.
  now destruct (isGenerate ev).
Qed.

Lemma generateText_eq (prompt : jsstring) (options : AiService.GenOptions)
      (tr : list Event) :
  AiService.generateText w prompt options tr
  = let temperature := default (tenths 7) (AiService.temperature options) in
    let maxTokens := default 1000%N (AiService.maxTokens options) in
    match provider w with
    | OtherProvider => (Ok NoText, tr)
    | _ =>
        (match llm w tr prompt temperature maxTokens with
         | Ok text => Ok text
         | Throw e =>
             Throw (Error (lit "AI text generation failed: " ++ messageOf e))
         end,
         tr ++ [CallGenerate prompt temperature maxTokens])
    end.
Proof.
  unfold AiService.generateText, tryCatch, call, ret, throw. simpl.
  destruct (provider w); try reflexivity;
    destruct (llm w tr prompt _ _); reflexivity.
Qed.

(** The calls a completion adds to the trace. *)
Lemma generateText_calls (prompt : jsstring) (options : AiService.GenOptions)
      (tr : list Event) :
  snd (AiService.generateText w prompt options tr)
  = tr ++ match provider w with
          | OtherProvider => []
          | _ => [CallGenerate
                    prompt
                    (default (tenths 7) (AiService.temperature options))
                    (default 1000%N (AiService.maxTokens options))]
          end.
Proof.
  rewrite generateText_eq. simpl.
  destruct (provider w); simpl; try reflexivity. now rewrite app_nil_r.
Qed.

Lemma generateQueryEmbedding_calls (query : jsstring) (tr : list Event) :
  generateCalls (snd (EmbeddingService.generateQueryEmbedding w query tr))
  = generateCalls tr.
Proof.
  unfold EmbeddingService.generateQueryEmbedding, AiService.generateEmbeddings,
    tryCatch, bind, call, ret, throw.
  destruct (provider w); simpl; try reflexivity.
  destruct (embeddingsEndpoint w tr query); simpl;
    rewrite generateCalls_snoc; simpl; apply app_nil_r.
Qed.

(** The search service never calls the completion endpoint. *)
Lemma semanticSearch_calls (query : jsstring)
      (options : SearchService.SearchOptions) (tr : list Event) :
  generateCalls (snd (SearchService.semanticSearch w query options tr))
  = generateCalls tr.
Proof.
  rewrite semanticSearch_eq. simpl.
  pose proof (generateQueryEmbedding_calls query tr) as He.
  destruct (EmbeddingService.generateQueryEmbedding w query tr)
    as [[q|e] tr1]; simpl in *; [|exact He].
  rewrite atlasVectorSearch_eq, manualVectorSearch_eq.
  assert (Hm : forall r : result (list Thesis),
             generateCalls
               (snd (match r with
                     | Ok results =>
                         (Ok results,
                          (tr1 ++ [CallVectorIndex
                                     (lit "semanticsearch") (lit "embeddings")
                                     q SearchService.numCandidates
                                     (default SearchService.defaultLimit
                                        (SearchService.limit options))])
                            ++ [CallFind FilterAll])
                     | Throw e =>
                         (Throw (Error (lit "Semantic search failed: "
                                        ++ messageOf e)),
                          (tr1 ++ [CallVectorIndex
                                     (lit "semanticsearch") (lit "embeddings")
                                     q SearchService.numCandidates
                                     (default SearchService.defaultLimit
                                        (SearchService.limit options))])
                            ++ [CallFind FilterAll])
                     end))
             = generateCalls tr).
  { intros r. destruct r; simpl; rewrite !generateCalls_snoc; simpl;
      rewrite !app_nil_r; exact He. }
  destruct (vectorIndex w tr1 _ _ q _ _) as [candidates|e].
  - destruct (afterIndex _ candidates) as [|r rs]; [apply Hm|].
    simpl. rewrite generateCalls_snoc. simpl. rewrite app_nil_r. exact He.
  - apply Hm.
Qed.

End GenerateFacts.

(* ================================================================= *)
(** ** Properties of the chat service *)

Section HistoryFacts.

Lemma appendLines_turns (turns : list Turn) (text : jsstring) :
  appendLines text (map Some turns)
  = Ok (fold_left (fun acc turn => acc ++ turnLine turn) turns text).
Proof.
  revert text. induction turns as [|turn turns IH]; intros text;
    [reflexivity|].
  simpl. apply IH.
Qed.


Lemma lastN_map {A B} (f : A -> B) (n : nat) (arr : list A) :
  lastN n (map f arr) = map f (lastN n arr).
Proof. unfold lastN. now rewrite length_map, skipn_map. Qed.

Lemma historyContext_arrayOf (turns : list Turn) :
  ChatService.historyContext (arrayOf turns) = Ok (recentContext turns).
Proof.
  unfold ChatService.historyContext, arrayOf, recentContext. simpl.
  rewrite length_map.
  destruct (0 <? Z.of_nat (List.length turns))%Z; [|reflexivity].
  rewrite lastN_map. apply appendLines_turns.
Qed.

Lemma previousConversationOf_arrayOf (turns : list Turn) :
  ChatService.previousConversationOf (arrayOf turns)
  = Ok (ChatService.previousConversation turns).
Proof.
  unfold ChatService.previousConversationOf, ChatService.previousConversation,
    arrayOf. simpl. rewrite length_map.
  destruct (0 <? Z.of_nat (List.length turns))%Z; [|reflexivity].
  now rewrite appendLines_turns.
Qed.




Lemma spread_returns (conversationHistory : History) :
  (exists earlier, spread conversationHistory = Ok earlier) <->
  conversationHistory = HistoryEmptyString \/
  exists entries, conversationHistory = HistoryArray entries.
Proof.
  destruct conversationHistory; simpl; split;
    try (intros [earlier H]; discriminate);
    try (intros [H|[entries H]]; discriminate); eauto.
Qed.

End HistoryFacts.

Section ChatFacts.
Context {NM : Number} (w : World).

Lemma rewriteQuery_eq (userQuery : jsstring) (conversationHistory : History)
      (tr : list Event) :
  ChatService.rewriteQuery w userQuery conversationHistory tr
  = match ChatService.historyContext conversationHistory with
    | Throw _ => (Ok userQuery, tr)
    | Ok context =>
        match AiService.generateText
                w (ChatService.rewritePrompt userQuery context)
                ChatService.rewriteOptions tr with
        | (Ok (Text optimizedQuery), tr1) =>
            let cleanedQuery := ChatService.cleanQuery optimizedQuery in
            (Ok (if (match cleanedQuery with [] => true | _ => false end
                     || (strlen cleanedQuery <? 3)%Z)%bool
                 then userQuery else cleanedQuery), tr1)
        | (_, tr1) => (Ok userQuery, tr1)
        end
    end.
Proof.
  unfold ChatService.rewriteQuery, tryCatch, bind, liftResult, ret, throw.
  destruct (ChatService.historyContext conversationHistory) as [context|e];
    [|reflexivity].
  destruct (AiService.generateText w _ _ tr) as [[[o| |]|e] tr1];
    try reflexivity.
  simpl. destruct (_ || _)%bool; reflexivity.
Qed.

Lemma processMessage_eq (message : jsstring) (options : ProcessOptions)
      (tr : list Event) :
  ChatService.processMessage w message options tr
  = let conversationHistory := orEmpty (historyOption options) in
    match ChatService.rewriteQuery w message conversationHistory tr with
    | (Ok optimizedQuery, tr1) =>
        tryCatch (answerWith w message conversationHistory
                             (default 3%Z (topKOption options))
                             optimizedQuery)
                 chatFailure tr1
    | (Throw e, tr1) => chatFailure e tr1
    end.
Proof.
  unfold ChatService.processMessage, answerWith, chatFailure, tryCatch, bind.
  simpl.
  destruct (ChatService.rewriteQuery w message _ tr) as [[q|e] tr1];
    reflexivity.
Qed.

(** C4. [rewriteQuery] always returns a query and never throws, whatever
    it is given as history.  When the history context cannot be built (a
    history without [length], a [null] entry among the last 3) it returns
    the user's text without any call.  Otherwise it requests one completion,
    and when the completion throws, has no text, or cleans to a text that is
    empty or shorter than 3 code units, the query it returns is the user's
    text unchanged.  In each of these cases [processMessage] goes on with
    steps 2 to 5 on the user's text as search query.  Over an array of turns
    the context is the one of its last 3 turns. *)
Theorem rewriteQuery_never_throws (userQuery : jsstring)
        (conversationHistory : History) (tr : list Event) :
  let rewritten :=
    ChatService.rewriteQuery w userQuery conversationHistory tr in
  let continues options tr1 :=
    ChatService.processMessage w userQuery options tr
    = tryCatch (answerWith w userQuery conversationHistory
                           (default 3%Z (topKOption options)) userQuery)
               chatFailure tr1 in
  (exists query tr', rewritten = (Ok query, tr')) /\
  (forall e,
      ChatService.historyContext conversationHistory = Throw e ->
      rewritten = (Ok userQuery, tr) /\
      (forall options,
          orEmpty (historyOption options) = conversationHistory ->
          continues options tr)) /\
  (forall context,
      ChatService.historyContext conversationHistory = Ok context ->
      let generation :=
        AiService.generateText
          w (ChatService.rewritePrompt userQuery context)
          ChatService.rewriteOptions tr in
      (exists query, rewritten = (Ok query, snd generation)) /\
      (forall e, fst generation = Throw e ->
                 rewritten = (Ok userQuery, snd generation)) /\
      (fst generation = Ok NullText \/ fst generation = Ok NoText ->
       rewritten = (Ok userQuery, snd generation)) /\
      (forall optimizedQuery,
          fst generation = Ok (Text optimizedQuery) ->
          ChatService.cleanQuery optimizedQuery = [] \/
          (strlen (ChatService.cleanQuery optimizedQuery) < 3)%Z ->
          rewritten = (Ok userQuery, snd generation)) /\
      (forall e options,
          fst generation = Throw e ->
          orEmpty (historyOption options) = conversationHistory ->
          continues options (snd generation))) /\
  (forall turns,
      conversationHistory = arrayOf turns ->
      ChatService.historyContext conversationHistory
      = Ok (recentContext turns)).
Proof.
  intros rewritten continues. subst rewritten continues. cbv beta.
  split; [|split; [|split]].
  - rewrite rewriteQuery_eq.
    destruct (ChatService.historyContext conversationHistory)
      as [context|e]; [|eauto].
    destruct (AiService.generateText w _ _ tr) as [[[o| |]|e] tr1];
      simpl; eauto.
  - intros e He. split.
    + rewrite rewriteQuery_eq, He. reflexivity.
    + intros options Hh. rewrite processMessage_eq. cbv zeta.
      rewrite Hh, rewriteQuery_eq, He. reflexivity.
  - intros context Hc generation.
    rewrite rewriteQuery_eq, Hc. fold generation.
    split; [|split; [|split; [|split]]].
    + destruct generation as [[[o| |]|e] tr1]; simpl; eauto.
    + intros e. destruct generation as [[[o| |]|e'] tr1]; simpl;
        try discriminate. reflexivity.
    + destruct generation as [[[o| |]|e'] tr1]; simpl;
        intros [H|H]; try discriminate; reflexivity.
    + intros o. destruct generation as [[[o'| |]|e'] tr1]; simpl;
        try discriminate.
      intros H Hshort. injection H as ->.
      destruct Hshort as [->|Hlt]; [reflexivity|].
      apply Z.ltb_lt in Hlt. rewrite Hlt, orb_true_r. reflexivity.
    + intros e options He Hh. rewrite processMessage_eq. cbv zeta.
      rewrite Hh, rewriteQuery_eq, Hc. fold generation.
      destruct generation as [[[o'| |]|e'] tr1]; simpl in *;
        try discriminate. reflexivity.
  - intros turns ->. apply historyContext_arrayOf.
Qed.

End ChatFacts.

Lemma rewriteQuery_never_throws_witness :
  ChatService.historyContext (arrayOf []) = Ok [] /\
  fst (AiService.generateText
         Samples.offline
         (ChatService.rewritePrompt (lit "AI healthcare") [])
         ChatService.rewriteOptions [])
  = Throw (Error (lit "AI text generation failed: connect ECONNREFUSED")) /\
  ChatService.rewriteQuery Samples.offline (lit "AI healthcare")
                           (arrayOf []) []
  = (Ok (lit "AI healthcare"),
     snd (AiService.generateText
            Samples.offline
            (ChatService.rewritePrompt (lit "AI healthcare") [])
            ChatService.rewriteOptions [])).
Proof.
  split; [reflexivity|]. split; [vm_compute; reflexivity|].
  apply (proj1 (proj2 (proj1 (proj2 (proj2
           (rewriteQuery_never_throws
              Samples.offline (lit "AI healthcare") (arrayOf []) []))) []
           eq_refl))
         (Error (lit "AI text generation failed: connect ECONNREFUSED"))).
  vm_compute. reflexivity.
Defined.

Section ChatTurnFacts.
Context {NM : Number} (w : World).

Lemma rewriteQuery_calls (userQuery : jsstring)
      (conversationHistory : History) (tr : list Event) :
  snd (ChatService.rewriteQuery w userQuery conversationHistory tr)
  = tr ++ rewritingCalls w userQuery conversationHistory.
Proof.
  rewrite rewriteQuery_eq. unfold rewritingCalls.
  destruct (ChatService.historyContext conversationHistory) as [context|e].
  - transitivity
      (snd (AiService.generateText
              w (ChatService.rewritePrompt userQuery context)
              ChatService.rewriteOptions tr)).
    + destruct (AiService.generateText w _ _ tr) as [[[o| |]|e] tr1];
        reflexivity.
    + rewrite generateText_calls. destruct (provider w); reflexivity.
  - simpl. now rewrite app_nil_r.
Qed.

Lemma generateCalls_app (tr tr' : list Event) :
  generateCalls (tr ++ tr') = generateCalls tr ++ generateCalls tr'.
Proof. apply filter_app. Qed.

Lemma generateCalls_rewriting (userQuery : jsstring)
      (conversationHistory : History) :
  generateCalls (rewritingCalls w userQuery conversationHistory)
  = rewritingCalls w userQuery conversationHistory.
Proof.
  unfold rewritingCalls.
  destruct (ChatService.historyContext conversationHistory);
    destruct (provider w); reflexivity.
Qed.

(** X30. When retrieval returns no document, nothing is called after the
    search: the only completion of the turn is the one of the rewriting
    step, and the service without rewriting requests none.  For a history
    that can be spread (nothing, an array, the empty string) both services
    return the canned answer, which is not empty, with no sources and with
    the entries of the history followed by the user's turn alone; for the
    other values ([null], [false], [0]) both fail on the spread. *)
Theorem no_documents_short_circuit (message : jsstring)
        (options : ProcessOptions) (tr : list Event) :
  let conversationHistory := orEmpty (historyOption options) in
  let topK := default 3%Z (topKOption options) in
  noResultsAnswer <> [] /\
  (forall optimizedQuery tr1 tr2,
      ChatService.rewriteQuery w message conversationHistory tr
      = (Ok optimizedQuery, tr1) ->
      SearchService.semanticSearch
        w optimizedQuery (ChatService.searchOptions topK) tr1
      = (Ok [], tr2) ->
      ChatService.processMessage w message options tr
      = (cannedOutcome message conversationHistory, tr2) /\
      generateCalls tr2
      = generateCalls tr ++ rewritingCalls w message conversationHistory) /\
  (forall tr2,
      SearchService.semanticSearch
        w message (ChatService.searchOptions topK) tr
      = (Ok [], tr2) ->
      ChatServiceBasic.processMessage w message options tr
      = (cannedOutcome message conversationHistory, tr2) /\
      generateCalls tr2 = generateCalls tr) /\
  ((exists reply, cannedOutcome message conversationHistory = Ok reply) <->
   historyOption options = HistoryUndefined \/
   historyOption options = HistoryEmptyString \/
   exists entries, historyOption options = HistoryArray entries) /\
  (forall entries,
      historyOption options = HistoryArray entries ->
      cannedOutcome message conversationHistory
      = Ok {| answer := noResultsAnswer;
              sources := [];
              conversationHistory :=
                entries ++ [Some (userTurn message)] |}).
Proof.
  intros history k. split; [discriminate|].
  split; [|split; [|split]].
  - intros q tr1 tr2 Hrewrite Hsearch. split.
    + rewrite processMessage_eq. cbv zeta. fold history. rewrite Hrewrite.
      unfold tryCatch, answerWith, bind, liftResult, ret, chatFailure,
        throw, cannedOutcome.
      fold k. rewrite Hsearch.
      destruct (spread history); reflexivity.
    + pose proof (semanticSearch_calls
                    w q (ChatService.searchOptions k) tr1) as Hs.
      rewrite Hsearch in Hs. simpl in Hs. rewrite Hs.
      pose proof (rewriteQuery_calls message history tr) as Hr.
      rewrite Hrewrite in Hr. simpl in Hr.
      rewrite Hr, generateCalls_app, generateCalls_rewriting. reflexivity.
  - intros tr2 Hsearch. split.
    + unfold ChatServiceBasic.processMessage, tryCatch, bind, liftResult,
        ret, throw, cannedOutcome.
      cbv zeta. fold history. fold k. rewrite Hsearch.
      destruct (spread history); reflexivity.
    + pose proof (semanticSearch_calls
                    w message (ChatService.searchOptions k) tr) as Hs.
      rewrite Hsearch in Hs. exact Hs.
  - unfold cannedOutcome. subst history.
    destruct (historyOption options); simpl; split;
      try (intros [reply H]; discriminate);
      try (intros [H|[H|[entries H]]]; discriminate); eauto.
  - intros entries Hh. unfold cannedOutcome. subst history.
    rewrite Hh. reflexivity.
Qed.

Lemma ragPrompt_question (context previous : jsstring) :
  exists before after,
    forall question,
      ChatService.ragPrompt question context previous
      = before ++ lit "User question: " ++ question ++ after.
Proof.
  exists (ChatService.ragOpening context ++ previous).
  exists ChatService.ragInstructions. intros question.
  unfold ChatService.ragPrompt. now rewrite <- app_assoc.
Qed.

(** C7. In a turn that retrieved documents, the rewritten query is the
    input of the search, and what follows the search is at most one call:
    the completion of the prompt built from the user's original message, the
    context of the retrieved documents and the previous conversation.  Its
    question line is the original message.  When the previous conversation
    cannot be rendered (a [null] history or entry) no prompt is sent at all.
    Over an array of turns the previous conversation is the block of these
    turns. *)
Theorem generation_answers_original_message (message : jsstring)
        (options : ProcessOptions) (tr tr1 tr2 : list Event)
        (optimizedQuery : jsstring) (doc : Thesis) (docs : list Thesis) :
  let conversationHistory := orEmpty (historyOption options) in
  let topK := default 3%Z (topKOption options) in
  let context := ChatService.buildContext (doc :: docs) in
  ChatService.rewriteQuery w message conversationHistory tr
  = (Ok optimizedQuery, tr1) ->
  SearchService.semanticSearch
    w optimizedQuery (ChatService.searchOptions topK) tr1
  = (Ok (doc :: docs), tr2) ->
  (forall previous,
      ChatService.previousConversationOf conversationHistory = Ok previous ->
      let prompt := ChatService.ragPrompt message context previous in
      snd (ChatService.processMessage w message options tr)
      = snd (AiService.generateText w prompt ChatService.ragOptions tr2) /\
      (provider w <> OtherProvider ->
       snd (ChatService.processMessage w message options tr)
       = tr2 ++ [CallGenerate prompt (tenths 7) 500%N]) /\
      (exists before after,
          forall question,
            ChatService.ragPrompt question context previous
            = before ++ lit "User question: " ++ question ++ after)) /\
  (forall e,
      ChatService.previousConversationOf conversationHistory = Throw e ->
      snd (ChatService.processMessage w message options tr) = tr2) /\
  (forall turns,
      conversationHistory = arrayOf turns ->
      ChatService.previousConversationOf conversationHistory
      = Ok (ChatService.previousConversation turns)).
Proof.
  intros history k context Hrewrite Hsearch.
  assert (Hturn :
            snd (ChatService.processMessage w message options tr)
            = match ChatService.previousConversationOf history with
              | Ok previous =>
                  snd (AiService.generateText
                         w (ChatService.ragPrompt message context previous)
                         ChatService.ragOptions tr2)
              | Throw _ => tr2
              end).
  { rewrite processMessage_eq. cbv zeta. fold history. rewrite Hrewrite.
    unfold tryCatch, answerWith, bind. fold k. rewrite Hsearch.
    unfold ChatService.generateRAGResponse, tryCatch, bind, liftResult, ret,
      throw, chatFailure.
    fold context.
    destruct (ChatService.previousConversationOf history) as [previous|e];
      [|reflexivity].
    destruct (AiService.generateText w _ ChatService.ragOptions tr2)
      as [[[text| |]|e] tr3]; cbn [trimText];
      destruct (spread history); reflexivity. }
  split; [|split].
  - intros previous Hp prompt. rewrite Hp in Hturn.
    split; [exact Hturn|]. split.
    + intros Hprovider. rewrite Hturn, generateText_calls.
      destruct (provider w); try reflexivity. congruence.
    + apply ragPrompt_question.
  - intros e He. rewrite He in Hturn. exact Hturn.
  - intros turns ->. apply previousConversationOf_arrayOf.
Qed.

End ChatTurnFacts.

(** C5, at a history of [null].  The request validator lets it pass, the
    destructuring default does not replace it, and over a store without
    documents both chat services throw where the spread of the history is
    evaluated. *)
Lemma null_history_fails_empty_retrieval :
  let options := {| historyOption := HistoryNull; topKOption := None |} in
  validateChatRequest (NM := Float64)
                      (JsString (lit "tell me about quantum stuff")) JsNull
  = Next /\
  run (SearchService.semanticSearch
         Samples.empty (lit "tell me about quantum stuff")
         (ChatService.searchOptions 3%Z))
  = Ok [] /\
  run (ChatService.processMessage
         Samples.empty (lit "tell me about quantum stuff") options)
  = Throw (Error (lit "Chat processing failed: conversationHistory is not iterable")) /\
  run (ChatServiceBasic.processMessage
         Samples.empty (lit "tell me about quantum stuff") options)
  = Throw (Error (lit "Chat processing failed: conversationHistory is not iterable")).
Proof. repeat split; vm_compute; reflexivity. Qed.

Lemma no_documents_short_circuit_witness :
  exists optimizedQuery tr1 tr2,
    ChatService.rewriteQuery
      Samples.empty (lit "tell me about quantum stuff") (arrayOf []) []
    = (Ok optimizedQuery, tr1) /\
    SearchService.semanticSearch
      Samples.empty optimizedQuery (ChatService.searchOptions 3%Z) tr1
    = (Ok [], tr2) /\
    ChatService.processMessage
      Samples.empty (lit "tell me about quantum stuff")
      {| historyOption := HistoryUndefined; topKOption := None |} []
    = (Ok {| answer := noResultsAnswer;
             sources := [];
             conversationHistory :=
               [Some (userTurn (lit "tell me about quantum stuff"))] |},
       tr2).
Proof.
  eexists. eexists. eexists.
  split; [vm_compute; reflexivity|].
  split; [vm_compute; reflexivity|].
  refine (proj1 (proj1 (proj2 (no_documents_short_circuit
                                 Samples.empty
                                 (lit "tell me about quantum stuff")
                                 {| historyOption := HistoryUndefined;
                                    topKOption := None |} []))
                       _ _ _ _ _)).
  - vm_compute. reflexivity.
  - vm_compute. reflexivity.
Defined.

Lemma generation_answers_original_message_witness :
  exists optimizedQuery tr1 doc docs tr2,
    ChatService.rewriteQuery Samples.online (lit "what about NNs?")
                             (arrayOf []) []
    = (Ok optimizedQuery, tr1) /\
    SearchService.semanticSearch
      Samples.online optimizedQuery (ChatService.searchOptions 3%Z) tr1
    = (Ok (doc :: docs), tr2) /\
    snd (ChatService.processMessage
           Samples.online (lit "what about NNs?")
           {| historyOption := HistoryUndefined; topKOption := None |} [])
    = tr2 ++ [CallGenerate
                (ChatService.ragPrompt
                   (lit "what about NNs?")
                   (ChatService.buildContext (doc :: docs)) [])
                (tenths 7) 500%N].
Proof.
  eexists. eexists. eexists. eexists. eexists.
  split; [vm_compute; reflexivity|].
  split; [vm_compute; reflexivity|].
  refine (proj1 (proj2 (proj1 (generation_answers_original_message
                                 Samples.online (lit "what about NNs?")
                                 {| historyOption := HistoryUndefined;
                                    topKOption := None |}
                                 [] _ _) [] _)) _).
  - vm_compute. reflexivity.
  - vm_compute. reflexivity.
  - reflexivity.
  - discriminate.
Defined.

(* ================================================================= *)
(** ** Scenarios *)

Section Scenarios.

Let options (limit : option Z) (threshold : option float)
  : SearchService.SearchOptions (NM := Float64) :=
  @SearchService.mkSearchOptions Float64 limit threshold.

(** With the index down the manual path ranks the store: at threshold 0.5
    the orthogonal thesis is left out. *)
Example search_fallback_threshold :
  idsOf (run (SearchService.semanticSearch
                Samples.offline (lit "deep learning")
                (options (Some 5%Z) (Some 0.5%float))))
  = Some [lit "d1"; lit "d3"].
Proof. vm_compute. reflexivity. Qed.

(** At threshold 0 every thesis is returned, best first. *)
Example search_fallback_all :
  idsOf (run (SearchService.semanticSearch
                Samples.offline (lit "deep learning")
                (options (Some 5%Z) (Some 0%float))))
  = Some [lit "d1"; lit "d3"; lit "d2"].
Proof. vm_compute. reflexivity. Qed.

(** A working index answers alone, after the threshold filter. *)
Example search_indexed :
  idsOf (run (SearchService.semanticSearch
                Samples.online (lit "deep learning") (options None None)))
  = Some [lit "d1"] /\
  calls (SearchService.semanticSearch
           Samples.online (lit "deep learning") (options None None))
  = [CallVectorIndex (lit "semanticsearch") (lit "embeddings")
                     (Some (AiService.simulateEmbeddings
                              (lit "deep learning")))
                     100 10].
Proof. split; vm_compute; reflexivity. Qed.

(** A negative limit is not a count: [slice(0, -1)] drops the last element
    of the ranking. *)
Example search_negative_limit :
  idsOf (run (SearchService.semanticSearch
                Samples.offline (lit "deep learning")
                (options (Some (-1)%Z) (Some 0%float))))
  = Some [lit "d1"; lit "d3"].
Proof. vm_compute. reflexivity. Qed.

(** A store whose vectors do not have the dimension of the query makes the
    manual path throw, and so the search. *)
Example search_dimension_mismatch :
  run (SearchService.manualVectorSearch
         Samples.offline (Some [1%float]) 5%Z (0%float : @num Float64))
  = Throw DimensionMismatch.
Proof. vm_compute. reflexivity. Qed.

Example similar_excludes_reference :
  idsOf (run (SearchService.findSimilarTheses
                Samples.offline (lit "d1") (Some 1%Z)))
  = Some [lit "d3"].
Proof. vm_compute. reflexivity. Qed.

Example similar_missing_reference :
  run (SearchService.findSimilarTheses Samples.offline (lit "nope") None)
  = Throw (Error (lit "Similar thesis search failed: Thesis not found")).
Proof. vm_compute. reflexivity. Qed.

(** The clean-up of a rewritten query. *)
Example cleanQuery_sample :
  ChatService.cleanQuery
    (lit "  " ++ dq ++ lit "deep" ++ nl ++ nl ++ lit "learning" ++ dq ++ nl)
  = lit "deep learning".
Proof. vm_compute. reflexivity. Qed.

(** A turn whose rewriting call fails: the search embeds the literal
    message, and the turn ends with the answer of the second call. *)
Example chat_survives_failed_rewrite :
  let turn :=
    ChatService.processMessage
      Samples.flaky (lit "AI healthcare")
      {| historyOption := HistoryUndefined; topKOption := None |} in
  match run turn with
  | Ok r =>
      answer r = lit "Thesis 1 covers it." /\
      map (fun s => id s) (sources r) = [lit "d1"; lit "d3"] /\
      map (option_map (fun t => role t)) (conversationHistory r)
      = [Some (lit "user"); Some (lit "assistant")]
  | Throw _ => False
  end /\
  In (CallEmbeddings (lit "AI healthcare")) (calls turn).
Proof.
  split.
  - vm_compute. repeat split; reflexivity.
  - vm_compute. right. left. reflexivity.
Qed.

(** When the answering call fails the turn fails. *)
Example chat_fails_without_answer :
  run (ChatService.processMessage
         Samples.offline (lit "AI healthcare")
         {| historyOption := HistoryUndefined; topKOption := None |})
  = Throw (Error (lit "Chat processing failed: AI text generation failed: connect ECONNREFUSED")).
Proof. vm_compute. reflexivity. Qed.

(** A history of [null] over a store with documents: the rewriting falls
    back to the message without a call, and the turn fails on the length
    of the history before the answer is requested. *)
Example chat_null_history :
  let turn :=
    ChatService.processMessage
      Samples.online (lit "AI healthcare")
      {| historyOption := HistoryNull; topKOption := None |} in
  run turn
  = Throw (Error (lit "Chat processing failed: Cannot read properties of null (reading 'length')"))
  /\ generateCalls (calls turn) = [].
Proof. split; vm_compute; reflexivity. Qed.

(** A history of [false]: the answer is requested, and the turn fails on
    the spread afterwards. *)
Example chat_false_history :
  let turn :=
    ChatService.processMessage
      Samples.online (lit "AI healthcare")
      {| historyOption := HistoryFalse; topKOption := None |} in
  run turn
  = Throw (Error (lit "Chat processing failed: conversationHistory is not iterable"))
  /\ List.length (generateCalls (calls turn)) = 2%nat.
Proof. split; vm_compute; reflexivity. Qed.

(** A [null] entry before the last 3 turns: the rewriting still uses the
    history, the answer cannot be requested. *)
Example chat_null_entry :
  let earlier :=
    [None; Some (userTurn (lit "a")); Some (assistantTurn (lit "b"));
     Some (userTurn (lit "c"))] in
  let turn :=
    ChatService.processMessage
      Samples.online (lit "AI healthcare")
      {| historyOption := HistoryArray earlier; topKOption := None |} in
  run turn
  = Throw (Error (lit "Chat processing failed: Cannot read properties of null (reading 'role')"))
  /\ List.length (generateCalls (calls turn)) = 1%nat.
Proof. split; vm_compute; reflexivity. Qed.

(** The decimal literals of the services are the floats the runtime reads. *)
Example float_literals :
  tenths (NM := Float64) 5 = 0.5%float /\
  PrimFloat.eqb (tenths (NM := Float64) 3) 0x1.3333333333333p-2%float = true /\
  PrimFloat.eqb (tenths (NM := Float64) 7) 0x1.6666666666666p-1%float = true.
Proof. repeat split; vm_compute; reflexivity. Qed.

End Scenarios.

(* ================================================================= *)
(** * Further properties of the services *)

(* ================================================================= *)
(** ** More on the vector utilities *)

Section VectorGuardFacts.
Context {NM : Number}.

Lemma guarded_some (vecA vecB : option vector) (a b : vector) :
  guarded vecA vecB = Some (a, b) <->
  vecA = Some a /\ vecB = Some b /\ List.length a = List.length b.
Proof.
  unfold guarded. destruct vecA as [a'|], vecB as [b'|];
    try (split; [discriminate|intros [H1 [H2 _]]; discriminate]).
  destruct (Nat.eqb_spec (List.length a') (List.length b')) as [E|E]; split.
  - intros H. injection H as <- <-. auto.
  - intros [H1 [H2 _]]. injection H1 as <-. injection H2 as <-. reflexivity.
  - discriminate.
  - intros [H1 [H2 H3]]. injection H1 as <-. injection H2 as <-. contradiction.
Qed.

(** X1. Each of [dotProduct], [cosineSimilarity] and [euclideanDistance]
    returns a number exactly when both vectors are present and have the same
    length; in every other case, a missing vector included, it throws the
    error of the guard. *)
Theorem vector_functions_return_iff (vecA vecB : option vector) :
  let present :=
    exists a b, vecA = Some a /\ vecB = Some b /\
                List.length a = List.length b in
  ((exists v, dotProduct vecA vecB = Ok v) <-> present) /\
  ((exists v, cosineSimilarity vecA vecB = Ok v) <-> present) /\
  ((exists v, euclideanDistance vecA vecB = Ok v) <-> present) /\
  (~ present ->
   dotProduct vecA vecB = Throw DimensionMismatch /\
   cosineSimilarity vecA vecB = Throw DimensionMismatch /\
   euclideanDistance vecA vecB = Throw DimensionMismatch).
Proof.
  intros present.
  assert (Hg : (exists a b, guarded vecA vecB = Some (a, b)) <-> present).
  { split.
    - intros [a [b H]]. exists a, b. now apply guarded_some.
    - intros [a [b H]]. exists a, b. now apply guarded_some. }
  unfold dotProduct, cosineSimilarity, euclideanDistance.
  destruct (guarded vecA vecB) as [[a b]|] eqn:G.
  - assert (P : present) by (apply Hg; eauto).
    repeat split; auto; try (intros; eauto); try contradiction.
    destruct (cosineLoop a b) as [[d na] nb].
    destruct (_ || _)%bool; eauto.
  - assert (P : ~ present).
    { intros P. apply Hg in P. destruct P as [a [b P]]. discriminate. }
    repeat split; auto; try (intros [v Hv]; discriminate);
      intros; contradiction.
Qed.

Lemma guarded_swap (vecA vecB : option vector) :
  guarded vecB vecA
  = match guarded vecA vecB with
    | Some (a, b) => Some (b, a)
    | None => None
    end.
Proof.
  unfold guarded. destruct vecA as [a|], vecB as [b|]; try reflexivity.
  rewrite (Nat.eqb_sym (List.length b) (List.length a)).
  now destruct (Nat.eqb (List.length a) (List.length b)).
Qed.

Lemma normalizeVector_length (vec : vector) :
  List.length (normalizeVector vec) = List.length vec.
Proof.
  unfold normalizeVector. destruct (eqb _ zero); [reflexivity|].
  apply length_map.
Qed.

End VectorGuardFacts.

Section FloatSymmetry.

Lemma SFmul_comm (x y : spec_float) :
  SFmul prec emax x y = SFmul prec emax y x.
Proof.
  destruct x as [sx|sx| |sx mx ex], y as [sy|sy| |sy my ey]; simpl;
    rewrite ?(xorb_comm sx sy); try reflexivity.
  now rewrite (Pos.mul_comm mx my), (Z.add_comm ex ey).
Qed.

Lemma float_mul_comm (x y : float) : PrimFloat.mul x y = PrimFloat.mul y x.
Proof.
  apply Prim2SF_inj. rewrite !mul_spec. apply SFmul_comm.
Qed.

Lemma dot_fold_comm (a : list float) : forall (b : list float) (acc : float),
  fold_left (fun product '(x, y) => PrimFloat.add product (PrimFloat.mul x y))
            (combine a b) acc
  = fold_left (fun product '(x, y) => PrimFloat.add product (PrimFloat.mul x y))
              (combine b a) acc.
Proof.
  induction a as [|x a IH]; intros [|y b] acc; simpl; try reflexivity.
  rewrite (float_mul_comm x y). apply IH.
Qed.

(** X2. On binary64 numbers similarity is symmetric: [dotProduct] and
    [cosineSimilarity] give the same outcome, value or exception, when their
    arguments are swapped. *)
Theorem similarity_symmetric (vecA vecB : option (@vector Float64)) :
  dotProduct vecA vecB = dotProduct vecB vecA /\
  cosineSimilarity vecA vecB = cosineSimilarity vecB vecA.
Proof.
  unfold dotProduct, cosineSimilarity.
  rewrite (guarded_swap vecA vecB).
  destruct (guarded vecA vecB) as [[a b]|] eqn:G; [|split; reflexivity].
  apply guarded_some in G. destruct G as [_ [_ E]].
  split.
  - f_equal. apply dot_fold_comm.
  - unfold cosineLoop.
    rewrite (cosineLoop_acc a b _ _ _ E).
    rewrite (cosineLoop_acc b a _ _ _ (eq_sym E)).
    cbv beta iota zeta. rewrite (dot_fold_comm a b).
    set (na := sqrt (fold_left _ a zero)).
    set (nb := sqrt (fold_left _ b zero)).
    replace (mul na nb) with (mul nb na) by apply float_mul_comm.
    rewrite orb_comm. reflexivity.
Qed.

(** X3. On binary64 numbers [normalizeVector] keeps the number of entries
    of every vector and returns the zero vector of any length as it is, where
    a division by its norm would give NaN entries. *)
Theorem normalizeVector_shape (vec : list float) (n : nat) :
  List.length (normalizeVector (NM := Float64) vec) = List.length vec /\
  normalizeVector (NM := Float64) (repeat 0%float n) = repeat 0%float n /\
  normalizeVector (NM := Float64) [] = [].
Proof.
  split; [apply (normalizeVector_length (NM := Float64))|]. split.
  - unfold normalizeVector.
    rewrite sumSquares_zeros. reflexivity.
  - reflexivity.
Qed.

End FloatSymmetry.

(* ================================================================= *)
(** ** More on the AI and embedding services *)

Section GatewayFacts.
Context {NM : Number} (w : World).

(** X4. A completion makes at most one call.  Every exception that leaves
    [generateText] is an [Error] whose message starts with the prefix of the
    service, and for a provider other than the two known ones it returns
    [undefined] without calling anything. *)
Theorem generateText_outcomes (prompt : jsstring)
        (options : AiService.GenOptions) (tr : list Event) :
  (forall e,
      fst (AiService.generateText w prompt options tr) = Throw e ->
      exists m, e = Error (lit "AI text generation failed: " ++ m)) /\
  (exists new,
      snd (AiService.generateText w prompt options tr) = tr ++ new /\
      (List.length new <= 1)%nat) /\
  (provider w = OtherProvider ->
   AiService.generateText w prompt options tr = (Ok NoText, tr)).
Proof.
  rewrite generateText_eq. cbv zeta. split; [|split].
  - intros e. destruct (provider w); simpl; try discriminate;
      destruct (llm w tr prompt _ _); try discriminate;
      intros H; injection H as <-; eauto.
  - destruct (provider w); simpl; eexists; split; try reflexivity;
      try (simpl; lia).
    + now rewrite app_nil_r.
    + simpl. lia.
  - intros ->. reflexivity.
Qed.

(** X5. With the provider that has no native embeddings, a query is embedded
    inside the process: [generateQueryEmbedding] calls nothing, cannot fail,
    and returns the simulated vector of 768 entries. *)
Theorem groq_embeddings_are_local (query : jsstring) (tr : list Event) :
  provider w = Groq ->
  EmbeddingService.generateQueryEmbedding w query tr
  = (Ok (Some (AiService.simulateEmbeddings query)), tr) /\
  List.length (AiService.simulateEmbeddings query) = 768%nat.
Proof.
  intros Hp. split; [|apply simulateEmbeddings_length].
  unfold EmbeddingService.generateQueryEmbedding, AiService.generateEmbeddings,
    tryCatch, bind, ret.
  rewrite Hp. reflexivity.
Qed.

End GatewayFacts.

Lemma groq_embeddings_are_local_witness :
  provider Samples.online = Groq /\
  EmbeddingService.generateQueryEmbedding Samples.online (lit "graphs") []
  = (Ok (Some (AiService.simulateEmbeddings (lit "graphs"))), []).
Proof.
  split; [reflexivity|].
  apply (groq_embeddings_are_local Samples.online (lit "graphs") []).
  reflexivity.
Defined.

(* ================================================================= *)
(** ** More on the search service *)

Section RankingMoreFacts.
Context {NM : Number}.

Lemma Forall2_in_l {A B} (R : A -> B -> Prop) (l : list A) (l' : list B)
      (x : A) :
  Forall2 R l l' -> In x l -> exists y, In y l' /\ R x y.
Proof.
  induction 1 as [|a b l l' Hab _ IH]; simpl; [tauto|].
  intros [<-|Hin]; [eauto|].
  destruct (IH Hin) as [y [Hy HR]]. eauto.
Qed.

Lemma mapThrowing_throw {A B} (f : A -> result B) (arr : list A) (e : exn) :
  mapThrowing f arr = Throw e -> exists x, In x arr /\ f x = Throw e.
Proof.
  induction arr as [|x rest IH]; simpl; [discriminate|].
  destruct (f x) as [y|e'] eqn:Ex.
  - destruct (mapThrowing f rest) as [ys|e'']; [discriminate|].
    intros H. injection H as <-.
    destruct IH as [x' [Hin Hx']]; [reflexivity|]. eauto.
  - intros H. injection H as <-. eauto.
Qed.

Lemma slice0_all {A} (arr : list A) (end_ : Z) :
  (Z.of_nat (List.length arr) <= end_)%Z -> slice0 arr end_ = arr.
Proof.
  intros H. unfold slice0.
  destruct (Z.ltb_spec end_ 0); [lia|].
  rewrite Z.min_r by lia. rewrite Nat2Z.id. apply firstn_all.
Qed.

Lemma scoreAgainst_throw (reference : option vector) (thesis : Thesis)
      (e : exn) :
  SearchService.scoreAgainst reference thesis = Throw e ->
  e = DimensionMismatch.
Proof.
  unfold SearchService.scoreAgainst, dotProduct.
  destruct (guarded reference (embeddings thesis)) as [[a b]|];
    [discriminate|].
  intros H. now injection H as <-.
Qed.

Lemma scoreAgainst_ok_dimension (v : vector) (thesis scored : Thesis) :
  SearchService.scoreAgainst (Some v) thesis = Ok scored ->
  hasDimension (List.length v) thesis.
Proof.
  unfold SearchService.scoreAgainst, dotProduct.
  destruct (guarded (Some v) (embeddings thesis)) as [[a b]|] eqn:G;
    [|discriminate].
  intros _. apply guarded_some in G. destruct G as [Ha [Hb Hlen]].
  injection Ha as <-. exists b. split; [exact Hb|]. now symmetry.
Qed.

(** X6. The manual ranking returns a result exactly when every stored
    vector is present and has the dimension of the query vector.  One thesis
    of another dimension, or without a vector, makes the whole ranking throw
    the error of the length guard: the thesis is not skipped. *)
Theorem manual_ranking_returns_iff (v : vector) (limit : Z)
        (threshold : num) (allTheses : list Thesis) :
  ((exists results,
       SearchService.rankManual (Some v) limit threshold allTheses
       = Ok results) <->
   Forall (hasDimension (List.length v)) allTheses) /\
  (~ Forall (hasDimension (List.length v)) allTheses ->
   SearchService.rankManual (Some v) limit threshold allTheses
   = Throw DimensionMismatch).
Proof.
  assert (Hret : (exists results,
                     SearchService.rankManual (Some v) limit threshold
                                              allTheses = Ok results) <->
                 Forall (hasDimension (List.length v)) allTheses).
  { unfold SearchService.rankManual. split.
    - intros [results H].
      destruct (mapThrowing _ allTheses) as [scored|e] eqn:Hs;
        [|discriminate].
      apply Forall_forall. intros doc Hin.
      destruct (Forall2_in_l doc (mapThrowing_Forall2 _ _ Hs) Hin)
        as [d [_ Hd]].
      eapply scoreAgainst_ok_dimension; eauto.
    - intros Hall.
      destruct (mapThrowing_defined
                  (SearchService.scoreAgainst (Some v)) (arr := allTheses))
        as [scored Hs].
      { eapply Forall_impl; [|exact Hall]. intros doc Hd.
        eapply scoreAgainst_defined; eauto. }
      rewrite Hs. eauto. }
  split; [exact Hret|].
  intros Hnot.
  destruct (SearchService.rankManual (Some v) limit threshold allTheses)
    as [results|e] eqn:Hr.
  - exfalso. apply Hnot, Hret. eauto.
  - unfold SearchService.rankManual in Hr.
    destruct (mapThrowing _ allTheses) as [scored|e'] eqn:Hs;
      [discriminate|].
    injection Hr as <-.
    destruct (mapThrowing_throw _ _ Hs) as [x [_ Hx]].
    now rewrite (scoreAgainst_throw _ _ Hx).
Qed.

(** X7. What the manual ranking returns is sound and, under a limit that
    does not cut, complete: every result is a stored thesis with its dot
    product against the query as score, a score that meets the threshold,
    and its vector removed; and when the limit is at least the size of the
    store, every stored thesis whose score meets the threshold is returned. *)
Theorem manual_ranking_sound_complete (queryEmbedding : option vector)
        (limit : Z) (threshold : num) (allTheses results : list Thesis) :
  SearchService.rankManual queryEmbedding limit threshold allTheses
  = Ok results ->
  (forall doc,
      In doc results ->
      exists thesis s,
        In thesis allTheses /\
        dotProduct queryEmbedding (embeddings thesis) = Ok s /\
        geb s threshold = true /\
        doc = withScore thesis s) /\
  ((Z.of_nat (List.length allTheses) <= limit)%Z ->
   forall thesis s,
     In thesis allTheses ->
     dotProduct queryEmbedding (embeddings thesis) = Ok s ->
     geb s threshold = true ->
     In (withScore thesis s) results).
Proof.
  unfold SearchService.rankManual.
  destruct (mapThrowing _ allTheses) as [scored|e] eqn:Hs; [|discriminate].
  intros H. injection H as <-.
  pose proof (mapThrowing_Forall2 _ _ Hs) as HF. split.
  - intros doc Hin.
    apply slice0_in, sort_in, filter_In in Hin. destruct Hin as [Hin Hge].
    destruct (Forall2_in_r doc HF Hin) as [t [Ht Hd]].
    destruct (scoreAgainst_ok _ _ Hd) as [s [Hdot ->]].
    exists t, s. repeat split; auto.
  - intros Hlimit thesis s Hin Hdot Hge.
    rewrite slice0_all.
    + eapply Permutation_in; [apply Permutation_sym, sort_perm|].
      apply filter_In. split.
      * destruct (Forall2_in_l thesis HF Hin) as [d [Hd Hsd]].
        destruct (scoreAgainst_ok _ _ Hsd) as [s' [Hdot' ->]].
        rewrite Hdot in Hdot'. now injection Hdot' as <-.
      * exact Hge.
    + rewrite sort_length.
      pose proof (filter_length_le (scoreGte threshold) scored).
      pose proof (Forall2_length_eq HF). lia.
Qed.

End RankingMoreFacts.

Lemma manual_ranking_sound_complete_witness :
  exists results,
    SearchService.rankManual
      (NM := Float64) (Some [1%float; 0%float]) 5%Z 0.5%float
      [Samples.d2; Samples.d3; Samples.d1]
    = Ok results /\
    (Z.of_nat (List.length [Samples.d2; Samples.d3; Samples.d1]) <= 5)%Z /\
    In (withScore Samples.d3 0.5%float) results.
Proof.
  eexists. split; [vm_compute; reflexivity|]. split; [simpl; lia|].
  refine (proj2 (manual_ranking_sound_complete
                   (NM := Float64) (Some [1%float; 0%float]) 5%Z 0.5%float
                   [Samples.d2; Samples.d3; Samples.d1] _)
                _ Samples.d3 0.5%float _ _ _).
  - vm_compute. reflexivity.
  - simpl. lia.
  - right. left. reflexivity.
  - vm_compute. reflexivity.
  - vm_compute. reflexivity.
Defined.

Section StableSortFacts.
Context {NM : Number} {OL : OrderLaws NM} {SL : SubLaws NM}.

(** X8. The sort by score is stable on what is already ranked: a list whose
    scores never increase is returned as it is, so theses with equal scores
    keep the order in which they arrive. *)
Theorem sort_keeps_descending (results : list Thesis) :
  descending results ->
  sort SearchService.byScoreDesc results = results.
Proof.
  unfold descending. induction results as [|x rest IH]; intros H;
    [reflexivity|].
  inversion H as [|? ? Hrest Habove]; subst. simpl.
  rewrite (IH Hrest). destruct rest as [|y rest']; [reflexivity|].
  simpl. inversion Habove as [|? ? Hxy _]; subst.
  unfold ranksAbove in Hxy.
  destruct (score x) as [sx|] eqn:Hx; [|contradiction].
  destruct (score y) as [sy|] eqn:Hy; [|contradiction].
  rewrite (isPositive_byScoreDesc _ _ Hx Hy).
  now rewrite (leb_ltb _ _ Hxy).
Qed.

End StableSortFacts.

Lemma sort_keeps_descending_witness :
  descending [withScore Samples.d1 1%float; withScore Samples.d2 1%float;
              withScore Samples.d3 0.5%float] /\
  sort SearchService.byScoreDesc
       [withScore Samples.d1 1%float; withScore Samples.d2 1%float;
        withScore Samples.d3 0.5%float]
  = [withScore Samples.d1 1%float; withScore Samples.d2 1%float;
     withScore Samples.d3 0.5%float].
Proof.
  assert (D : descending
                [withScore Samples.d1 1%float; withScore Samples.d2 1%float;
                 withScore Samples.d3 0.5%float]).
  { repeat constructor. }
  split; [exact D|].
  apply (sort_keeps_descending (OL := Float64_order) (SL := Float64_sub) D).
Defined.

Section SearchMoreFacts.
Context {NM : Number} (w : World).

Lemma generateQueryEmbedding_trace (query : jsstring) (tr : list Event) :
  exists embed,
    snd (EmbeddingService.generateQueryEmbedding w query tr) = tr ++ embed /\
    (embed = [] \/ embed = [CallEmbeddings query]).
Proof.
  unfold EmbeddingService.generateQueryEmbedding, AiService.generateEmbeddings,
    tryCatch, bind, call, ret, throw.
  destruct (provider w); simpl.
  - destruct (embeddingsEndpoint w tr query); simpl; eauto.
  - exists []. rewrite app_nil_r. auto.
  - exists []. rewrite app_nil_r. auto.
Qed.

(** X9. A search makes at most three calls, in this order: at most one
    call of the embedding endpoint, then the index query, then the full scan
    of the collection.  It never requests a completion and never looks a
    thesis up by id. *)
Theorem search_call_discipline (query : jsstring)
        (options : SearchService.SearchOptions) (tr : list Event) :
  exists embed rest queryEmbedding,
    snd (SearchService.semanticSearch w query options tr)
    = tr ++ embed ++ rest /\
    (embed = [] \/ embed = [CallEmbeddings query]) /\
    let indexQuery :=
      CallVectorIndex
        (lit "semanticsearch") (lit "embeddings") queryEmbedding
        SearchService.numCandidates
        (default SearchService.defaultLimit (SearchService.limit options)) in
    (rest = [] \/ rest = [indexQuery] \/
     rest = [indexQuery; CallFind FilterAll]).
Proof.
  rewrite semanticSearch_eq. cbv zeta.
  destruct (generateQueryEmbedding_trace query tr) as [embed [He Hshape]].
  destruct (EmbeddingService.generateQueryEmbedding w query tr)
    as [[q|e] tr1]; simpl in He; subst tr1.
  - rewrite atlasVectorSearch_eq, manualVectorSearch_eq.
    exists embed.
    destruct (vectorIndex w (tr ++ embed) _ _ q _ _) as [candidates|e].
    + destruct (afterIndex _ candidates) as [|r rs].
      * eexists. exists q. split; [|split; [exact Hshape|]].
        -- destruct (match collection w _ with Ok _ => _ | Throw _ => _ end);
             simpl; rewrite <- !app_assoc; reflexivity.
        -- right. right. reflexivity.
      * eexists. exists q. split; [|split; [exact Hshape|]].
        -- simpl. rewrite <- !app_assoc. reflexivity.
        -- right. left. reflexivity.
    + eexists. exists q. split; [|split; [exact Hshape|]].
      * destruct (match collection w _ with Ok _ => _ | Throw _ => _ end);
          simpl; rewrite <- !app_assoc; reflexivity.
      * right. right. reflexivity.
  - exists embed, [], None. simpl. rewrite app_nil_r. auto.
Qed.

(** X10. No exception leaves a search or a similarity lookup unwrapped:
    each is an [Error] whose message starts with the prefix of the
    operation. *)
Theorem search_errors_are_wrapped (tr : list Event) (e : exn) :
  (forall query options,
      fst (SearchService.semanticSearch w query options tr) = Throw e ->
      exists m, e = Error (lit "Semantic search failed: " ++ m)) /\
  (forall thesisId limit,
      fst (SearchService.findSimilarTheses w thesisId limit tr) = Throw e ->
      exists m, e = Error (lit "Similar thesis search failed: " ++ m)).
Proof.
  split.
  - intros query options. rewrite semanticSearch_eq. cbv zeta.
    destruct (EmbeddingService.generateQueryEmbedding w query tr)
      as [[q|e0] tr1]; simpl.
    + destruct (SearchService.atlasVectorSearch w q _ _ tr1)
        as [[[|r rs]|e1] tr2]; simpl; try discriminate;
        destruct (SearchService.manualVectorSearch w q _ _ tr2)
          as [[res|e2] tr3]; simpl; try discriminate;
        intros H; injection H as <-; eauto.
    + intros H. injection H as <-. eauto.
  - intros thesisId limit. rewrite findSimilarTheses_eq. cbv zeta.
    destruct (collection w tr) as [stored0|e0]; simpl;
      [|intros H; injection H as <-; eauto].
    destruct (List.find _ stored0) as [ref|]; simpl;
      [|intros H; injection H as <-; eauto].
    destruct (collection w (tr ++ [CallFindById thesisId])) as [stored|e1];
      simpl; [|intros H; injection H as <-; eauto].
    destruct (SearchService.rankSimilar ref _ _) as [res|e2]; simpl;
      [discriminate|]. intros H. injection H as <-. eauto.
Qed.

(** X11. For an id that no stored thesis carries, [findSimilarTheses]
    throws "Thesis not found" under its prefix after the lookup alone: the
    collection is not scanned. *)
Theorem unknown_reference_is_reported (thesisId : jsstring)
        (limit : option Z) (tr : list Event) (stored : list Thesis) :
  collection w tr = Ok stored ->
  Forall (fun doc => _id doc <> thesisId) stored ->
  SearchService.findSimilarTheses w thesisId limit tr
  = (Throw (Error (lit "Similar thesis search failed: Thesis not found")),
     tr ++ [CallFindById thesisId]).
Proof.
  intros Hc Hall. rewrite findSimilarTheses_eq. cbv zeta. rewrite Hc.
  assert (Hf : List.find (fun doc => str_eqb (_id doc) thesisId) stored = None).
  { clear Hc. induction Hall as [|d rest Hd _ IH]; [reflexivity|]. simpl.
    destruct (str_eqb (_id d) thesisId) eqn:E; [|exact IH].
    apply str_eqb_eq in E. contradiction. }
  rewrite Hf. reflexivity.
Qed.

End SearchMoreFacts.

Section FallbackFacts.
Context {NM : Number} (w : World).

Lemma rankManual_defined (v : vector) (limit : Z) (threshold : num)
      (allTheses : list Thesis) :
  Forall (hasDimension (List.length v)) allTheses ->
  exists results,
    SearchService.rankManual (Some v) limit threshold allTheses = Ok results.
Proof.
  intros Hall. unfold SearchService.rankManual.
  destruct (mapThrowing_defined
              (SearchService.scoreAgainst (Some v)) (arr := allTheses))
    as [scored Hs].
  { eapply Forall_impl; [|exact Hall]. intros doc Hd.
    eapply scoreAgainst_defined; eauto. }
  rewrite Hs. eauto.
Qed.

Lemma rankManual_shape (queryEmbedding : option vector) (limit : Z)
      (threshold : num) (allTheses results : list Thesis) (doc : Thesis) :
  SearchService.rankManual queryEmbedding limit threshold allTheses
  = Ok results ->
  In doc results -> exists thesis s, doc = withScore thesis s.
Proof.
  unfold SearchService.rankManual.
  destruct (mapThrowing _ allTheses) as [scored|e] eqn:Hs; [|discriminate].
  intros H Hin. injection H as <-.
  apply slice0_in, sort_in, filter_In in Hin. destruct Hin as [Hin _].
  destruct (Forall2_in_r doc (mapThrowing_Forall2 _ _ Hs) Hin)
    as [t [_ Hd]].
  destruct (scoreAgainst_ok _ _ Hd) as [s [_ ->]]. eauto.
Qed.

(** X12. An index that fails is absorbed.  When the index query throws, the
    outcome of the search is the manual ranking of the collection as the
    scan finds it, and with stored vectors of the query's dimension the
    search returns a result. *)
Theorem index_outage_is_absorbed (query : jsstring)
        (options : SearchService.SearchOptions) (tr tr1 : list Event)
        (v : vector) (e : exn) (docs : list Thesis) :
  let limit :=
    default SearchService.defaultLimit (SearchService.limit options) in
  let threshold :=
    default SearchService.defaultThreshold
            (SearchService.threshold options) in
  let tr2 :=
    tr1 ++ [CallVectorIndex (lit "semanticsearch") (lit "embeddings")
                            (Some v) SearchService.numCandidates limit] in
  EmbeddingService.generateQueryEmbedding w query tr = (Ok (Some v), tr1) ->
  vectorIndex w tr1 (lit "semanticsearch") (lit "embeddings") (Some v)
              SearchService.numCandidates limit = Throw e ->
  collection w tr2 = Ok docs ->
  SearchService.semanticSearch w query options tr
  = (match SearchService.rankManual (Some v) limit threshold docs with
     | Ok results => Ok results
     | Throw e' =>
         Throw (Error (lit "Semantic search failed: " ++ messageOf e'))
     end, tr2 ++ [CallFind FilterAll]) /\
  (Forall (hasDimension (List.length v)) docs ->
   exists results,
     fst (SearchService.semanticSearch w query options tr) = Ok results).
Proof.
  intros limit threshold tr2 Hembed Hindex Hscan.
  assert (Heq : SearchService.semanticSearch w query options tr
                = (match SearchService.rankManual (Some v) limit threshold
                                                  docs with
                   | Ok results => Ok results
                   | Throw e' =>
                       Throw (Error (lit "Semantic search failed: "
                                     ++ messageOf e'))
                   end, tr2 ++ [CallFind FilterAll])).
  { rewrite semanticSearch_eq. cbv zeta. rewrite Hembed.
    rewrite atlasVectorSearch_eq. fold limit. rewrite Hindex.
    rewrite manualVectorSearch_eq. fold threshold. fold tr2. rewrite Hscan.
    destruct (SearchService.rankManual _ _ _ docs); reflexivity. }
  split; [exact Heq|].
  intros Hdim. rewrite Heq. simpl.
  destruct (rankManual_defined v limit threshold Hdim) as [results ->].
  eauto.
Qed.

(** X13. No result of a search or of a similarity lookup carries a vector:
    the indexed path projects the field away and the scans overwrite it. *)
Theorem results_carry_no_vectors (tr tr' : list Event)
        (results : list Thesis) :
  (forall query options,
      SearchService.semanticSearch w query options tr = (Ok results, tr') ->
      Forall (fun doc => embeddings doc = None) results) /\
  (forall thesisId limit,
      SearchService.findSimilarTheses w thesisId limit tr
      = (Ok results, tr') ->
      Forall (fun doc => embeddings doc = None) results).
Proof.
  assert (Hmanual : forall q limit threshold tr0 tr1 res,
             SearchService.manualVectorSearch w q limit threshold tr0
             = (Ok res, tr1) ->
             Forall (fun doc => embeddings doc = None) res).
  { intros q limit threshold tr0 tr1 res. rewrite manualVectorSearch_eq.
    destruct (collection w tr0) as [docs|e]; [|discriminate].
    intros H. injection H as H _.
    apply Forall_forall. intros doc Hin.
    destruct (rankManual_shape _ _ _ _ doc H Hin) as [t [s ->]].
    reflexivity. }
  assert (Hatlas : forall q limit threshold tr0 tr1 res,
             SearchService.atlasVectorSearch w q limit threshold tr0
             = (Ok res, tr1) ->
             Forall (fun doc => embeddings doc = None) res).
  { intros q limit threshold tr0 tr1 res. rewrite atlasVectorSearch_eq.
    destruct (vectorIndex w tr0 _ _ q _ limit) as [candidates|e];
      [|discriminate].
    intros H. injection H as <- _.
    apply Forall_forall. intros doc Hin. unfold afterIndex in Hin.
    apply in_map_iff in Hin. destruct Hin as [d [<- _]]. reflexivity. }
  split.
  - intros query options. rewrite semanticSearch_eq. cbv zeta.
    destruct (EmbeddingService.generateQueryEmbedding w query tr)
      as [[q|e] tr1]; [|discriminate].
    destruct (SearchService.atlasVectorSearch w q _ _ tr1)
      as [[[|r rs]|e] tr2] eqn:Ha.
    + destruct (SearchService.manualVectorSearch w q _ _ tr2)
        as [[res|e'] tr3] eqn:Hm; [|discriminate].
      intros H. injection H as <- _. eapply Hmanual; eauto.
    + intros H. injection H as <- _. eapply Hatlas; eauto.
    + destruct (SearchService.manualVectorSearch w q _ _ tr2)
        as [[res|e'] tr3] eqn:Hm; [|discriminate].
      intros H. injection H as <- _. eapply Hmanual; eauto.
  - intros thesisId limit. rewrite findSimilarTheses_eq. cbv zeta.
    destruct (collection w tr) as [stored0|e]; [|discriminate].
    destruct (List.find _ stored0) as [ref|]; [|discriminate].
    destruct (collection w (tr ++ [CallFindById thesisId])) as [stored|e];
      [|discriminate].
    destruct (SearchService.rankSimilar ref _ _) as [res|e] eqn:Hr;
      [|discriminate].
    intros H. injection H as <- _.
    apply Forall_forall. intros doc Hin.
    destruct (rankSimilar_in _ _ _ doc Hr Hin) as [t [s [_ [_ ->]]]].
    reflexivity.
Qed.

End FallbackFacts.

Lemma index_outage_is_absorbed_witness :
  exists results,
    EmbeddingService.generateQueryEmbedding Samples.offline (lit "nlp") []
    = (Ok (Some [1%float; 0%float]), [CallEmbeddings (lit "nlp")]) /\
    fst (SearchService.semanticSearch
           Samples.offline (lit "nlp")
           (@SearchService.mkSearchOptions Float64 None None) [])
    = Ok results /\
    idsOf (Ok results) = Some [lit "d1"; lit "d3"].
Proof.
  destruct (proj2 (@index_outage_is_absorbed
                     Float64 Samples.offline (lit "nlp")
                     (@SearchService.mkSearchOptions Float64 None None)
                     [] [CallEmbeddings (lit "nlp")]
                     ([1%float; 0%float] : @vector Float64)
                     (Error (lit "index not found"))
                     [Samples.d2; Samples.d3; Samples.d1]
                     eq_refl eq_refl eq_refl))
    as [results Hr].
  - repeat constructor; eexists; split; reflexivity.
  - exists results. split; [reflexivity|]. split; [exact Hr|].
    vm_compute in Hr. injection Hr as <-. reflexivity.
Defined.

Lemma unknown_reference_is_reported_witness :
  SearchService.findSimilarTheses Samples.offline (lit "d9") None []
  = (Throw (Error (lit "Similar thesis search failed: Thesis not found")),
     [CallFindById (lit "d9")]).
Proof.
  apply (@unknown_reference_is_reported
           Float64 Samples.offline (lit "d9") None []
           [Samples.d2; Samples.d3; Samples.d1]).
  - reflexivity.
  - repeat constructor; intros H; vm_compute in H; discriminate.
Defined.

Section StringFacts.

Lemma trimStart_startsClean (s : jsstring) : startsClean (trimStart s).
Proof.
  induction s as [|c s IH]; simpl; [exact I|].
  destruct (isWhiteSpace c) eqn:E; [exact IH|]. exact E.
Qed.

Lemma trimStart_fixed (s : jsstring) : startsClean s -> trimStart s = s.
Proof.
  destruct s as [|c s]; simpl; [reflexivity|]. intros ->. reflexivity.
Qed.

Lemma trimStart_suffix (s : jsstring) :
  exists p, s = p ++ trimStart s.
Proof.
  induction s as [|c s [p IH]]; simpl.
  - exists []. reflexivity.
  - destruct (isWhiteSpace c).
    + exists (c :: p). simpl. f_equal. exact IH.
    + exists []. reflexivity.
Qed.

Lemma trimEnd_prefix (s : jsstring) :
  exists p, s = trimEnd s ++ p.
Proof.
  unfold trimEnd. destruct (trimStart_suffix (rev s)) as [p Hp].
  exists (rev p). apply (f_equal (@rev N)) in Hp.
  rewrite rev_involutive, rev_app_distr in Hp. exact Hp.
Qed.

Lemma trim_in (s : jsstring) (c : N) : In c (trim s) -> In c s.
Proof.
  unfold trim. intros H.
  destruct (trimEnd_prefix (trimStart s)) as [p Hp].
  destruct (trimStart_suffix s) as [q Hq].
  rewrite Hq. apply in_or_app. right.
  rewrite Hp. apply in_or_app. left. exact H.
Qed.

Lemma trimEnd_startsClean (s : jsstring) :
  startsClean s -> startsClean (trimEnd s).
Proof.
  intros Hs. destruct (trimEnd_prefix s) as [p Hp].
  destruct (trimEnd s) as [|c t]; [exact I|].
  rewrite Hp in Hs. exact Hs.
Qed.

Lemma trim_fixed (s : jsstring) : trim (trim s) = trim s.
Proof.
  unfold trim at 1.
  rewrite (trimStart_fixed (trim s)).
  - unfold trim, trimEnd. rewrite rev_involutive.
    rewrite (trimStart_fixed (trimStart (rev (trimStart s)))); [reflexivity|].
    apply trimStart_startsClean.
  - unfold trim. apply trimEnd_startsClean, trimStart_startsClean.
Qed.

Lemma collapseNewlines_in (s : jsstring) (c : N) :
  In c (collapseNewlines s) -> c <> 10%N.
Proof.
  induction s as [|a s IH]; simpl; [intros []|].
  destruct (N.eqb a 10) eqn:Ea.
  - destruct s as [|b s']; [intros [<-|[]]; discriminate|].
    destruct (N.eqb b 10) eqn:Eb; [exact IH|].
    intros [<-|H]; [discriminate|]. exact (IH H).
  - intros [<-|H]; [|exact (IH H)].
    intros ->. discriminate.
Qed.

End StringFacts.

Section RewriteShape.
Context {NM : Number} (w : World).

(** X14. The query [rewriteQuery] hands to the search is the user's text
    unchanged or a cleaned completion: at least 3 code units, no line feed,
    and no white space at either end. *)
Theorem rewritten_query_shape (userQuery : jsstring)
        (conversationHistory : History) (tr : list Event) :
  exists query,
    fst (ChatService.rewriteQuery w userQuery conversationHistory tr)
    = Ok query /\
    (query = userQuery \/
     ((3 <= strlen query)%Z /\ ~ In 10%N query /\ trim query = query)).
Proof.
  rewrite rewriteQuery_eq.
  destruct (ChatService.historyContext conversationHistory)
    as [context|e0]; [|simpl; eauto].
  destruct (AiService.generateText w _ _ tr) as [[[o| |]|e] tr1]; simpl;
    eauto.
  destruct (ChatService.cleanQuery o) as [|c q] eqn:Hq; simpl; [eauto|].
  destruct (strlen (c :: q) <? 3)%Z eqn:Hlen; [eauto|].
  eexists. split; [reflexivity|]. right.
  apply Z.ltb_ge in Hlen. split; [exact Hlen|].
  rewrite <- Hq. unfold ChatService.cleanQuery. split.
  - intros Hin. apply trim_in in Hin.
    apply collapseNewlines_in in Hin. contradiction.
  - apply trim_fixed.
Qed.

End RewriteShape.

Section ChatReplyFacts.
Context {NM : Number} (w : World).

Lemma semanticSearch_notBelow {OL : OrderLaws NM} (query : jsstring)
      (options : SearchService.SearchOptions) (tr tr' : list Event)
      (results : list Thesis) :
  SearchService.semanticSearch w query options tr = (Ok results, tr') ->
  Forall (notBelow (default SearchService.defaultThreshold
                            (SearchService.threshold options))) results.
Proof.
  rewrite semanticSearch_eq. cbv zeta.
  destruct (EmbeddingService.generateQueryEmbedding w query tr)
    as [[q|e] tr1]; [|discriminate].
  destruct (SearchService.atlasVectorSearch w q _ _ tr1)
    as [[[|r rs]|e] tr2] eqn:Ha.
  - destruct (SearchService.manualVectorSearch w q _ _ tr2)
      as [[res|e'] tr3] eqn:Hm; [|discriminate].
    intros H. injection H as <- _. eapply manual_notBelow; eauto.
  - intros H. injection H as <- _. eapply atlas_notBelow; eauto.
  - destruct (SearchService.manualVectorSearch w q _ _ tr2)
      as [[res|e'] tr3] eqn:Hm; [|discriminate].
    intros H. injection H as <- _. eapply manual_notBelow; eauto.
Qed.

Lemma trimText_fixed (text : Completion) (answer : jsstring) :
  trimText text = Ok answer -> trim answer = answer.
Proof.
  destruct text as [t| |]; try discriminate. simpl.
  intros H. injection H as <-. apply trim_fixed.
Qed.



Lemma generateRAGResponse_eq (userMessage context : jsstring)
      (conversationHistory : History) (tr : list Event) :
  ChatService.generateRAGResponse w userMessage context conversationHistory tr
  = match ChatService.previousConversationOf conversationHistory with
    | Throw e => (Throw e, tr)
    | Ok previous =>
        match AiService.generateText
                w (ChatService.ragPrompt userMessage context previous)
                ChatService.ragOptions tr with
        | (Ok text, tr1) => (trimText text, tr1)
        | (Throw e, tr1) => (Throw e, tr1)
        end
    end.
Proof.
  unfold ChatService.generateRAGResponse, tryCatch, bind, liftResult, ret,
    throw.
  destruct (ChatService.previousConversationOf conversationHistory)
    as [previous|e]; [|reflexivity].
  destruct (AiService.generateText w _ _ tr) as [[text|e] tr1];
    [|reflexivity].
  destruct (trimText text); reflexivity.
Qed.

(** X15. The shape of every reply of the chat with query rewriting.  The
    history it was given could be spread.  Each source carries a relevance
    score that is not below 0.3.  A reply without sources is the canned
    answer and adds the user's turn to the history, a reply with sources has
    an answer without white space at either end and adds the user's turn and
    the answer.  The earlier entries are kept as they were. *)
Theorem chat_reply_shape {OL : OrderLaws NM} (message : jsstring)
        (options : ProcessOptions) (tr tr' : list Event)
        (reply : ChatResult) :
  ChatService.processMessage w message options tr = (Ok reply, tr') ->
  let history := orEmpty (historyOption options) in
  exists earlier,
    spread history = Ok earlier /\
    (forall entries, history = HistoryArray entries -> earlier = entries) /\
    Forall (fun source =>
              exists s, relevanceScore source = Some s /\
                        ltb s (tenths 3) = false) (sources reply) /\
    (sources reply = [] ->
     answer reply = noResultsAnswer /\
     conversationHistory reply = earlier ++ [Some (userTurn message)]) /\
    (sources reply <> [] ->
     trim (answer reply) = answer reply /\
     conversationHistory reply
     = earlier ++ [Some (userTurn message);
                   Some (assistantTurn (answer reply))]).
Proof.
  rewrite processMessage_eq. cbv zeta.
  set (history := orEmpty (historyOption options)).
  destruct (ChatService.rewriteQuery w message _ tr) as [[q|e] tr1];
    [|discriminate].
  assert (Harray : forall earlier entries,
             spread history = Ok earlier ->
             history = HistoryArray entries -> earlier = entries).
  { intros earlier entries Hs Hh. rewrite Hh in Hs. simpl in Hs.
    now injection Hs. }
  unfold tryCatch, answerWith, bind, chatFailure, throw.
  destruct (SearchService.semanticSearch w q _ tr1)
    as [[[|doc docs]|e] tr2] eqn:Hsearch; try discriminate.
  - unfold liftResult, ret.
    destruct (spread history) as [earlier|e] eqn:Hspread; [|discriminate].
    intros H. injection H as <- _. exists earlier. simpl.
    split; [reflexivity|]. split; [eauto|].
    split; [constructor|]. split; [auto|]. intros Hne. now elim Hne.
  - rewrite generateRAGResponse_eq.
    destruct (ChatService.previousConversationOf history) as [previous|e];
      [|discriminate].
    destruct (AiService.generateText w _ ChatService.ragOptions tr2)
      as [[text|e] tr3]; [|discriminate].
    destruct (trimText text) as [ans|e] eqn:Htrim; [|discriminate].
    unfold liftResult, ret.
    destruct (spread history) as [earlier|e] eqn:Hspread; [|discriminate].
    intros H. injection H as <- _. exists earlier.
    cbn [sources answer conversationHistory].
    split; [reflexivity|]. split; [eauto|]. split; [|split].
    + apply semanticSearch_notBelow in Hsearch. simpl in Hsearch.
      change (toSource doc :: map toSource docs)
        with (map toSource (doc :: docs)).
      rewrite Forall_map. eapply Forall_impl; [|exact Hsearch].
      intros d Hd. exact Hd.
    + discriminate.
    + intros _. split; [eapply trimText_fixed; eauto|reflexivity].
Qed.






End ChatReplyFacts.

Lemma chat_reply_shape_witness :
  exists reply tr',
    ChatService.processMessage
      Samples.flaky (lit "AI healthcare")
      {| historyOption := HistoryUndefined; topKOption := None |} []
    = (Ok reply, tr') /\
    trim (answer reply) = answer reply /\
    conversationHistory reply
    = [Some (userTurn (lit "AI healthcare"));
       Some (assistantTurn (answer reply))].
Proof.
  eexists. eexists. split; [vm_compute; reflexivity|].
  destruct (@chat_reply_shape
              Float64 Samples.flaky Float64_order
              (lit "AI healthcare")
              {| historyOption := HistoryUndefined; topKOption := None |}
              [] _ _ ltac:(vm_compute; reflexivity))
    as [earlier [Hspread [_ [_ [_ Hshape]]]]].
  injection Hspread as <-.
  apply Hshape. vm_compute. discriminate.
Defined.


Section BasicChatFacts.
Context {NM : Number} (w : World).

Lemma basic_blocksFrom_throws (theses : list Thesis) (index : nat) (e : exn) :
  ChatServiceBasic.blocksFrom index theses = Throw e ->
  e = joinTypeError /\ Exists (fun thesis => tags thesis = None) theses.
Proof.
  revert index. induction theses as [|t rest IH]; intros index; simpl;
    [discriminate|].
  unfold ChatServiceBasic.thesisBlock.
  destruct (tags t) as [ts|] eqn:Ht.
  - destruct (ChatServiceBasic.blocksFrom (S index) rest) as [b|e'] eqn:Hb;
      [discriminate|].
    intros H. injection H as <-.
    destruct (IH _ Hb) as [-> Hex]. split; [reflexivity|].
    apply Exists_cons_tl. exact Hex.
  - intros H. injection H as <-. split; [reflexivity|].
    apply Exists_cons_hd. exact Ht.
Qed.

Lemma basic_blocksFrom_returns (theses : list Thesis) (index : nat)
      (blocks : jsstring) :
  ChatServiceBasic.blocksFrom index theses = Ok blocks ->
  Forall (fun thesis => tags thesis <> None) theses.
Proof.
  revert index blocks. induction theses as [|t rest IH];
    intros index blocks; simpl; [constructor|].
  unfold ChatServiceBasic.thesisBlock.
  destruct (tags t) as [ts|] eqn:Ht; [|discriminate].
  destruct (ChatServiceBasic.blocksFrom (S index) rest) as [b|e'] eqn:Hb;
    [|discriminate].
  intros _. constructor; [congruence|]. eapply IH; eauto.
Qed.

Lemma basic_blocksFrom_agrees (theses : list Thesis) (index : nat) :
  Forall (fun thesis => exists tag rest, tags thesis = Some (tag :: rest))
         theses ->
  ChatServiceBasic.blocksFrom index theses
  = Ok (ChatService.blocksFrom index theses).
Proof.
  intros Hall. revert index.
  induction Hall as [|t rest [tag [more Ht]] _ IH]; intros index;
    [reflexivity|].
  cbn [ChatServiceBasic.blocksFrom ChatService.blocksFrom].
  rewrite IH.
  unfold ChatServiceBasic.thesisBlock, ChatService.thesisBlock.
  rewrite Ht. f_equal. rewrite <- !app_assoc. reflexivity.
Qed.

(** X17. The chat without rewriting builds its context only for theses
    that all carry a tag list: it returns exactly then, and its one
    exception is the [TypeError] of [join] on a missing list.  Where every
    thesis has at least one tag, it builds the same context as the chat with
    rewriting, which guards the tag line. *)
Theorem basic_context_needs_tags (theses : list Thesis) :
  ((exists context, ChatServiceBasic.buildContext theses = Ok context) <->
   Forall (fun thesis => tags thesis <> None) theses) /\
  (forall e, ChatServiceBasic.buildContext theses = Throw e ->
             e = joinTypeError) /\
  (Forall (fun thesis => exists tag rest, tags thesis = Some (tag :: rest))
          theses ->
   ChatServiceBasic.buildContext theses
   = Ok (ChatService.buildContext theses)).
Proof.
  unfold ChatServiceBasic.buildContext, ChatService.buildContext.
  split; [split|split].
  - intros [context H].
    destruct (ChatServiceBasic.blocksFrom 0 theses) as [b|e] eqn:Hb;
      [|discriminate].
    eapply basic_blocksFrom_returns; eauto.
  - intros Hall.
    destruct (ChatServiceBasic.blocksFrom 0 theses) as [b|e] eqn:Hb;
      [eauto|].
    destruct (basic_blocksFrom_throws _ _ Hb) as [_ Hex].
    apply Exists_exists in Hex. destruct Hex as [t [Hin Ht]].
    rewrite Forall_forall in Hall. elim (Hall t Hin Ht).
  - intros e.
    destruct (ChatServiceBasic.blocksFrom 0 theses) as [b|e'] eqn:Hb;
      [discriminate|].
    intros H. injection H as <-.
    apply (basic_blocksFrom_throws _ _ Hb).
  - intros Hall. rewrite basic_blocksFrom_agrees by exact Hall.
    reflexivity.
Qed.

(** X18. When the search of the chat without rewriting returns a thesis
    that carries no tag list, the turn fails on building the context, before
    any completion is requested: the trace ends with the search. *)
Theorem basic_chat_fails_on_untagged (message : jsstring)
        (options : ProcessOptions) (tr tr1 : list Event)
        (doc : Thesis) (docs : list Thesis) :
  SearchService.semanticSearch
    w message (ChatService.searchOptions (default 3%Z (topKOption options))) tr
  = (Ok (doc :: docs), tr1) ->
  Exists (fun thesis => tags thesis = None) (doc :: docs) ->
  ChatServiceBasic.processMessage w message options tr
  = (Throw (Error (lit "Chat processing failed: Cannot read properties of undefined (reading 'join')")),
     tr1).
Proof.
  intros Hsearch Hex.
  unfold ChatServiceBasic.processMessage, tryCatch, bind. cbv zeta.
  rewrite Hsearch. unfold liftResult.
  destruct (ChatServiceBasic.buildContext (doc :: docs)) as [c|e] eqn:Hc.
  - assert (Hall : Forall (fun thesis => tags thesis <> None) (doc :: docs)).
    { unfold ChatServiceBasic.buildContext in Hc.
      destruct (ChatServiceBasic.blocksFrom 0 (doc :: docs)) as [b|e] eqn:Hb;
        [|discriminate].
      eapply basic_blocksFrom_returns; eauto. }
    apply Exists_exists in Hex. destruct Hex as [t [Hin Ht]].
    rewrite Forall_forall in Hall. elim (Hall t Hin Ht).
  - unfold ChatServiceBasic.buildContext in Hc.
    destruct (ChatServiceBasic.blocksFrom 0 (doc :: docs)) as [b|e'] eqn:Hb;
      [discriminate|].
    injection Hc as <-.
    destruct (basic_blocksFrom_throws _ _ Hb) as [-> _]. reflexivity.
Qed.

End BasicChatFacts.

Lemma basic_chat_fails_on_untagged_witness :
  let untagged : Thesis (NM := Float64) :=
    @mkThesis Float64 (lit "u1") (Some (lit "Untagged")) (Some (lit "none"))
              (Some [1%float; 0%float]) None None None None in
  let w :=
    @mkWorld Float64 Ollama
      (fun _ _ _ _ => Ok (Text (lit "An answer.")))
      (fun _ _ => Ok (Some [1%float; 0%float]))
      (fun _ _ _ _ _ _ => Ok [(untagged, 0.75%float)])
      (fun _ => Ok [untagged]) in
  ChatServiceBasic.processMessage
    w (lit "tags?")
    {| historyOption := HistoryUndefined; topKOption := None |} []
  = (Throw (Error (lit "Chat processing failed: Cannot read properties of undefined (reading 'join')")),
     [@CallEmbeddings Float64 (lit "tags?");
      @CallVectorIndex Float64 (lit "semanticsearch") (lit "embeddings")
                       (Some [1%float; 0%float]) 100%Z 3%Z]) /\
  exists reply,
    fst (ChatService.processMessage
           w (lit "tags?")
           {| historyOption := HistoryUndefined; topKOption := None |} [])
    = Ok reply.
Proof.
  intros untagged w. split.
  - eapply (@basic_chat_fails_on_untagged
              Float64 w (lit "tags?")
              {| historyOption := HistoryUndefined; topKOption := None |}
              [] _ _ _).
    + vm_compute. reflexivity.
    + apply Exists_cons_hd. reflexivity.
  - eexists. vm_compute. reflexivity.
Defined.

Section DefaultSortFacts.

Lemma str_ltb_asym (a b : jsstring) :
  str_ltb a b = true -> str_ltb b a = false.
Proof.
  revert b. induction a as [|x a IH]; intros [|y b]; simpl; try reflexivity;
    try discriminate.
  destruct (N.ltb_spec x y), (N.ltb_spec y x); try reflexivity;
    try discriminate; try lia.
  apply IH.
Qed.

Lemma notAfter_trans (a b c : jsstring) :
  notAfter a b -> notAfter b c -> notAfter a c.
Proof.
  unfold notAfter. revert b c.
  induction a as [|x a IH]; intros [|y b] [|z c]; simpl; try reflexivity;
    try discriminate.
  destruct (N.ltb_spec y x), (N.ltb_spec x y), (N.ltb_spec z y),
    (N.ltb_spec y z), (N.ltb_spec z x), (N.ltb_spec x z);
    try reflexivity; try discriminate; try lia.
  apply IH.
Qed.

Lemma insertDefault_perm (x : jsstring) (sorted : list jsstring) :
  Permutation (insertDefault x sorted) (x :: sorted).
Proof.
  induction sorted as [|y rest IH]; simpl; [reflexivity|].
  destruct (str_ltb y x); [|reflexivity].
  rewrite IH. apply perm_swap.
Qed.

Lemma sortDefault_perm (arr : list jsstring) :
  Permutation (sortDefault arr) arr.
Proof.
  induction arr as [|x arr IH]; simpl; [reflexivity|].
  rewrite insertDefault_perm. constructor. exact IH.
Qed.

Lemma insertDefault_sorted (x : jsstring) (sorted : list jsstring) :
  StronglySorted notAfter sorted ->
  StronglySorted notAfter (insertDefault x sorted).
Proof.
  induction 1 as [|y rest Hs IH Hy]; simpl.
  - repeat constructor.
  - destruct (str_ltb y x) eqn:E.
    + constructor; [exact IH|].
      eapply Permutation_Forall;
        [symmetry; apply insertDefault_perm|].
      constructor; [|exact Hy].
      apply str_ltb_asym. exact E.
    + constructor; [constructor; assumption|].
      constructor; [exact E|].
      eapply Forall_impl; [|exact Hy].
      intros z Hz. eapply notAfter_trans; eauto.
Qed.

Lemma sortDefault_sorted (arr : list jsstring) :
  StronglySorted notAfter (sortDefault arr).
Proof.
  induction arr as [|x arr IH]; simpl; [constructor|].
  apply insertDefault_sorted. exact IH.
Qed.

Lemma sortDefault_length (arr : list jsstring) :
  List.length (sortDefault arr) = List.length arr.
Proof. apply Permutation_length, sortDefault_perm. Qed.

End DefaultSortFacts.

Section TagQueryFacts.
Context {NM : Number} (w : World).

Lemma getAllTags_eq (distinct : M (list jsstring)) (tr : list Event) :
  getAllTags distinct tr
  = match distinct tr with
    | (Ok tags, tr') => (Ok (sortDefault tags), tr')
    | (Throw e, tr') =>
        (Throw (Error (lit "Failed to retrieve tags: " ++ messageOf e)), tr')
    end.
Proof.
  unfold getAllTags, tryCatch, bind, ret, throw.
  destruct (distinct tr) as [[tags|e] tr']; reflexivity.
Qed.

(** X19. [getAllTags] returns what the query for the distinct tags found,
    each tag as often as the query returned it, in ascending order of the
    code units; a failed query is reported under the prefix of the
    operation.  The function makes no call of its own. *)
Theorem all_tags_sorted (distinct : M (list jsstring)) (tr : list Event) :
  snd (getAllTags distinct tr) = snd (distinct tr) /\
  (forall tags,
      fst (distinct tr) = Ok tags ->
      exists sorted,
        fst (getAllTags distinct tr) = Ok sorted /\
        Permutation sorted tags /\
        StronglySorted notAfter sorted) /\
  (forall e,
      fst (distinct tr) = Throw e ->
      fst (getAllTags distinct tr)
      = Throw (Error (lit "Failed to retrieve tags: " ++ messageOf e))).
Proof.
  rewrite getAllTags_eq.
  destruct (distinct tr) as [[tags|e] tr']; simpl.
  - split; [reflexivity|]. split; [|discriminate].
    intros tags' H. injection H as <-.
    exists (sortDefault tags).
    split; [reflexivity|].
    split; [apply sortDefault_perm|apply sortDefault_sorted].
  - split; [reflexivity|]. split; [discriminate|].
    intros e' H. injection H as <-. reflexivity.
Qed.

Lemma sorted_head_least (x : jsstring) (rest tags : list jsstring) :
  StronglySorted notAfter (x :: rest) ->
  Permutation (x :: rest) tags ->
  In x tags /\ Forall (notAfter x) tags.
Proof.
  intros Hs Hp. split.
  - eapply Permutation_in; [exact Hp|]. left. reflexivity.
  - eapply Permutation_Forall; [exact Hp|].
    inversion Hs as [|? ? _ Hx]; subst.
    constructor; [|exact Hx].
    unfold notAfter. clear. induction x as [|c x IH]; simpl; [reflexivity|].
    rewrite N.ltb_irrefl. exact IH.
Qed.

Lemma slice0_head {A} (x : A) (l : list A) (end_ : Z) :
  (0 < end_)%Z -> exists top, slice0 (x :: l) end_ = x :: top.
Proof.
  intros Hpos. unfold slice0.
  destruct (end_ <? 0)%Z eqn:E; [apply Z.ltb_lt in E; lia|].
  cbn [List.length]. rewrite Nat2Z.inj_succ.
  destruct (Z.to_nat (Z.min end_ (Z.succ (Z.of_nat (List.length l)))))
    as [|k] eqn:Hk; [lia|]. simpl. eauto.
Qed.

(** X20. [getSuggestedQuestions] never throws and makes no call beyond the
    query for the tags.  It returns one question when the query fails, two
    when there is no tag and four otherwise, none of them empty; with tags,
    the first question names the least tag in the order of the code
    units. *)
Theorem suggestions_never_fail (distinct : M (list jsstring))
        (tr : list Event) :
  exists questions,
    getSuggestedQuestions distinct tr = (Ok questions, snd (distinct tr)) /\
    Forall (fun question => question <> []) questions /\
    (forall e, fst (distinct tr) = Throw e ->
               questions = [lit "What theses are available?"]) /\
    (fst (distinct tr) = Ok [] -> List.length questions = 2) /\
    (forall tag tags,
        fst (distinct tr) = Ok (tag :: tags) ->
        List.length questions = 4 /\
        exists least,
          In least (tag :: tags) /\
          Forall (notAfter least) (tag :: tags) /\
          nth_error questions 0
          = Some (lit "What theses are related to "
                  ++ orString (Some least) (lit "research") ++ lit "?")).
Proof.
  unfold getSuggestedQuestions, tryCatch, bind, ret.
  rewrite getAllTags_eq.
  destruct (distinct tr) as [[[|tag tags]|e] tr']; simpl fst; simpl snd.
  - eexists. split; [reflexivity|].
    split; [repeat constructor; discriminate|].
    split; [discriminate|]. split; [reflexivity|]. discriminate.
  - pose proof (sortDefault_perm (tag :: tags)) as Hp.
    pose proof (sortDefault_sorted (tag :: tags)) as Hs.
    pose proof (sortDefault_length (tag :: tags)) as Hl.
    destruct (sortDefault (tag :: tags)) as [|least rest] eqn:Hsort;
      [discriminate|].
    cbn [List.length]. rewrite Nat2Z.inj_succ.
    destruct (Z.succ (Z.of_nat (List.length rest)) =? 0)%Z eqn:Hz;
      [apply Z.eqb_eq in Hz; lia|].
    eexists. split; [reflexivity|].
    split; [repeat constructor; discriminate|].
    split; [discriminate|]. split; [discriminate|].
    intros tag' tags' H. injection H as <- <-.
    split; [reflexivity|].
    exists least. destruct (sorted_head_least Hs Hp) as [Hin Hleast].
    split; [exact Hin|]. split; [exact Hleast|].
    cbn [nth_error].
    destruct (@slice0_head _ least rest 5%Z) as [top ->]; [lia|].
    reflexivity.
  - eexists. split; [reflexivity|].
    split; [repeat constructor; discriminate|].
    split; [reflexivity|]. split; [discriminate|]. discriminate.
Qed.

Lemma find_none (thesisId : jsstring) (stored : list Thesis) :
  Forall (fun doc => _id doc <> thesisId) stored ->
  List.find (fun doc => str_eqb (_id doc) thesisId) stored = None.
Proof.
  induction 1 as [|d rest Hd _ IH]; [reflexivity|]. simpl.
  destruct (str_eqb (_id d) thesisId) eqn:E; [|exact IH].
  apply str_eqb_eq in E. contradiction.
Qed.

(** X21. [summarizeThesis] reports every failure under its prefix.  For an
    id that no stored thesis carries it fails with "Thesis not found" after
    the lookup, without requesting a completion.  A summary it returns has
    no white space at either end and is the completion, requested once after
    the lookup with temperature 0.5 and at most 150 tokens, of the prompt
    built from the first stored thesis with that id. *)
Theorem summary_contract (thesisId : jsstring) (tr : list Event) :
  (forall e,
      fst (summarizeThesis w thesisId tr) = Throw e ->
      exists m, e = Error (lit "Thesis summarization failed: " ++ m)) /\
  (forall stored,
      collection w tr = Ok stored ->
      Forall (fun doc => _id doc <> thesisId) stored ->
      summarizeThesis w thesisId tr
      = (Throw (Error (lit "Thesis summarization failed: Thesis not found")),
         tr ++ [CallFindById thesisId])) /\
  (forall summary,
      fst (summarizeThesis w thesisId tr) = Ok summary ->
      trim summary = summary /\
      exists stored thesis,
        collection w tr = Ok stored /\
        List.find (fun doc => str_eqb (_id doc) thesisId) stored
        = Some thesis /\
        snd (summarizeThesis w thesisId tr)
        = tr ++ [CallFindById thesisId;
                 CallGenerate (summaryPrompt thesis) (tenths 5) 150%N]).
Proof.
  unfold summarizeThesis, findById, tryCatch, bind, call, throw, liftResult.
  split; [|split].
  - intros e.
    destruct (collection w tr) as [stored|e0]; simpl;
      [|intros H; injection H as <-; eauto].
    destruct (List.find _ stored) as [thesis|]; simpl;
      [|intros H; injection H as <-; eauto].
    destruct (AiService.generateText w _ _ _) as [[text|e1] tr1]; simpl.
    + destruct (trimText text) as [s|e2]; simpl; [discriminate|].
      intros H. injection H as <-. eauto.
    + intros H. injection H as <-. eauto.
  - intros stored Hc Hall. rewrite Hc, (find_none Hall). reflexivity.
  - intros summary.
    destruct (collection w tr) as [stored|e0]; simpl; [|discriminate].
    destruct (List.find _ stored) as [thesis|] eqn:Hfind; simpl;
      [|discriminate].
    rewrite generateText_eq. cbv zeta.
    destruct (provider w); simpl.
    + destruct (llm w _ _ _ _) as [[text| |]|e1]; simpl; try discriminate.
      intros H. injection H as <-. split; [apply trim_fixed|].
      exists stored, thesis. rewrite <- app_assoc. auto.
    + destruct (llm w _ _ _ _) as [[text| |]|e1]; simpl; try discriminate.
      intros H. injection H as <-. split; [apply trim_fixed|].
      exists stored, thesis. rewrite <- app_assoc. auto.
    + discriminate.
Qed.

(** X22. [generateEmbedding] never returns an undefined vector: where
    [generateQueryEmbedding] hands the undefined answer of the gateway on,
    it throws.  With the provider without an embedding endpoint the vector
    is computed locally from the title and the abstract, has 768 entries,
    and no call is made. *)
Theorem document_embedding_is_defined (title abstract : jsstring)
        (tr : list Event) :
  let text := lit "Title: " ++ title ++ nl ++ nl
              ++ lit "Abstract: " ++ abstract in
  (forall v,
      fst (generateEmbedding w title abstract tr) = Ok v <->
      fst (EmbeddingService.generateQueryEmbedding w text tr)
      = Ok (Some v)) /\
  (fst (EmbeddingService.generateQueryEmbedding w text tr) = Ok None ->
   fst (generateEmbedding w title abstract tr)
   = Throw (Error (lit "Failed to generate embeddings: Cannot read properties of undefined (reading 'length')"))) /\
  (provider w = Groq ->
   generateEmbedding w title abstract tr
   = (Ok (AiService.simulateEmbeddings text), tr) /\
   List.length (AiService.simulateEmbeddings text) = 768).
Proof.
  intros text.
  unfold generateEmbedding, EmbeddingService.generateQueryEmbedding,
    AiService.generateEmbeddings, tryCatch, bind, call, ret, throw.
  fold text.
  split; [|split].
  - intros v. destruct (provider w); simpl.
    + destruct (embeddingsEndpoint w tr text) as [[v'|]|e]; simpl;
        split; intros H; try discriminate; injection H as <-; reflexivity.
    + split; intros H; injection H as <-; reflexivity.
    + split; discriminate.
  - destruct (provider w); simpl.
    + destruct (embeddingsEndpoint w tr text) as [[v'|]|e]; simpl;
        try discriminate. reflexivity.
    + discriminate.
    + reflexivity.
  - intros ->. split; [reflexivity|].
    apply simulateEmbeddings_length.
Qed.

End TagQueryFacts.

Section TagFacts.

Lemma includes_In (arr : list jsstring) (x : jsstring) :
  includes arr x = true <-> In x arr.
Proof.
  unfold includes. rewrite existsb_exists. split.
  - intros [y [Hin E]]. apply str_eqb_eq in E. subst. exact Hin.
  - intros Hin. exists x. split; [exact Hin|].
    unfold str_eqb. destruct (list_eq_dec N.eq_dec x x); congruence.
Qed.

Lemma includes_false (arr : list jsstring) (x : jsstring) :
  includes arr x = false <-> ~ In x arr.
Proof.
  rewrite <- includes_In. destruct (includes arr x); split; congruence.
Qed.

Lemma NoDup_snoc (arr : list jsstring) (x : jsstring) :
  NoDup arr -> ~ In x arr -> NoDup (arr ++ [x]).
Proof.
  intros Hn Hx. apply NoDup_app; [exact Hn|repeat constructor; intros []|].
  intros y Hy [<-|[]]. contradiction.
Qed.

Lemma unique_from (arr seen : list jsstring) :
  NoDup seen ->
  let result :=
    fold_left (fun seen x => if includes seen x then seen else seen ++ [x])
              arr seen in
  NoDup result /\ forall x, In x result <-> In x seen \/ In x arr.
Proof.
  revert seen. induction arr as [|a arr IH]; intros seen Hn; simpl.
  - split; [exact Hn|]. intros x. tauto.
  - destruct (includes seen a) eqn:E.
    + destruct (IH seen Hn) as [Hd Hin]. split; [exact Hd|].
      intros x. rewrite Hin. apply includes_In in E.
      split; [tauto|]. intros [H|[<-|H]]; tauto.
    + apply includes_false in E.
      destruct (IH (seen ++ [a]) (@NoDup_snoc seen a Hn E)) as [Hd Hin].
      split; [exact Hd|].
      intros x. rewrite Hin, in_app_iff. simpl. tauto.
Qed.

Lemma unique_spec (arr : list jsstring) :
  NoDup (unique arr) /\ forall x, In x (unique arr) <-> In x arr.
Proof.
  destruct (@unique_from arr [] (NoDup_nil _)) as [Hd Hin].
  split; [exact Hd|]. intros x. unfold unique. rewrite Hin. simpl. tauto.
Qed.

Lemma missing_snoc (tags rest : list jsstring) (fallback : jsstring) :
  ~ In fallback rest ->
  missing (tags ++ [fallback]) rest = missing tags rest.
Proof.
  intros Hnot. unfold missing. apply filter_ext_in. intros x Hx.
  f_equal. destruct (includes tags x) eqn:E.
  - apply includes_In. apply includes_In in E.
    apply in_or_app. left. exact E.
  - apply includes_false. apply includes_false in E.
    intros Hin. apply in_app_or in Hin. destruct Hin as [Hin|[<-|[]]].
    + contradiction.
    + contradiction.
Qed.

Lemma fillFallbacks_length (fallbacks tags : list jsstring) :
  NoDup fallbacks ->
  (List.length tags <= 3)%nat ->
  (3 <= List.length tags + List.length (missing tags fallbacks))%nat ->
  List.length (TagService.fillFallbacks tags fallbacks) = 3%nat.
Proof.
  revert tags. induction fallbacks as [|fallback rest IH];
    intros tags Hn Hle Hge; simpl in *.
  - lia.
  - destruct (Z.of_nat (List.length tags) <? 3)%Z eqn:Hlt.
    + apply Z.ltb_lt in Hlt. inversion Hn as [|? ? Hnot Hrest]; subst.
      destruct (includes tags fallback) eqn:E; simpl in Hge.
      * apply IH; assumption.
      * apply IH; [assumption| |].
        -- rewrite length_app. simpl. lia.
        -- rewrite missing_snoc by exact Hnot.
           rewrite length_app. simpl. lia.
    + apply Z.ltb_ge in Hlt. lia.
Qed.

Lemma fillFallbacks_extends (fallbacks tags : list jsstring) :
  exists added,
    TagService.fillFallbacks tags fallbacks = tags ++ added /\
    incl added fallbacks /\
    (NoDup tags -> NoDup (tags ++ added)).
Proof.
  revert tags. induction fallbacks as [|fallback rest IH]; intros tags;
    simpl.
  - exists []. rewrite app_nil_r. split; [reflexivity|].
    split; [intros x []|auto].
  - destruct (Z.of_nat (List.length tags) <? 3)%Z.
    + destruct (includes tags fallback) eqn:E.
      * destruct (IH tags) as [added [-> [Hincl Hd]]].
        exists added. split; [reflexivity|].
        split; [|exact Hd]. intros x Hx. right. apply Hincl. exact Hx.
      * destruct (IH (tags ++ [fallback])) as [added [-> [Hincl Hd]]].
        exists (fallback :: added). rewrite <- app_assoc.
        split; [reflexivity|]. split.
        -- intros x [<-|Hx]; [left; reflexivity|right; apply Hincl, Hx].
        -- intros Hn. change (fallback :: added) with ([fallback] ++ added).
           rewrite app_assoc. apply Hd.
           apply NoDup_snoc; [exact Hn|]. apply includes_false. exact E.
    + exists []. rewrite app_nil_r. split; [reflexivity|].
      split; [intros x []|auto].
Qed.

Lemma present_bound (tags fallbacks : list jsstring) :
  NoDup fallbacks ->
  (List.length fallbacks
   <= List.length tags + List.length (missing tags fallbacks))%nat.
Proof.
  intros Hn.
  assert (Hp : (List.length (filter (includes tags) fallbacks)
                <= List.length tags)%nat).
  { apply NoDup_incl_length; [apply NoDup_filter; exact Hn|].
    intros x Hx. apply filter_In in Hx. apply includes_In, Hx. }
  assert (Hsplit : (List.length (filter (includes tags) fallbacks)
                    + List.length (missing tags fallbacks)
                    = List.length fallbacks)%nat).
  { unfold missing. clear. induction fallbacks as [|f rest IH]; simpl;
      [reflexivity|].
    destruct (includes tags f); simpl; lia. }
  lia.
Qed.

Lemma fallbackTags_NoDup : NoDup TagService.fallbackTags.
Proof.
  unfold TagService.fallbackTags.
  repeat (constructor;
          [simpl; intros H;
           repeat (destruct H as [H|H]; [discriminate H|]); exact H|]).
  constructor.
Qed.

Lemma adjustTagCount_range (tags : list jsstring) :
  (3 <= List.length (TagService.adjustTagCount tags) <= 5)%nat.
Proof.
  unfold TagService.adjustTagCount.
  destruct (Z.of_nat (List.length tags) <? 3)%Z eqn:Hlt.
  - apply Z.ltb_lt in Hlt.
    rewrite fillFallbacks_length; [lia|apply fallbackTags_NoDup|lia|].
    pose proof (@present_bound tags _ fallbackTags_NoDup) as Hb.
    simpl List.length in Hb at 1. lia.
  - apply Z.ltb_ge in Hlt.
    destruct (5 <? Z.of_nat (List.length tags))%Z eqn:Hgt.
    + apply Z.ltb_lt in Hgt. unfold slice0. simpl.
      rewrite length_firstn. lia.
    + apply Z.ltb_ge in Hgt. lia.
Qed.

Lemma adjustTagCount_NoDup (tags : list jsstring) :
  NoDup tags -> NoDup (TagService.adjustTagCount tags).
Proof.
  intros Hn. unfold TagService.adjustTagCount.
  destruct (Z.of_nat (List.length tags) <? 3)%Z.
  - destruct (fillFallbacks_extends TagService.fallbackTags tags)
      as [added [-> [_ Hd]]]. auto.
  - destruct (5 <? Z.of_nat (List.length tags))%Z; [|exact Hn].
    unfold slice0. simpl.
    rewrite <- (firstn_skipn (Z.to_nat (Z.min 5 (Z.of_nat (List.length tags))))
                             tags) in Hn.
    eapply NoDup_app_remove_r; eauto.
Qed.

(** X23. [adjustTagCount] returns between 3 and 5 tags for every array it
    is given: five distinct fallbacks are enough to fill an array of fewer
    than 3 tags, whatever these are.  A short array is extended at its end
    by fallbacks only, a long one is cut to its first 5 tags, and an array
    without duplicates stays without duplicates. *)
Theorem adjusted_tags_are_three_to_five (tags : list jsstring) :
  let adjusted := TagService.adjustTagCount tags in
  (3 <= List.length adjusted <= 5)%nat /\
  (NoDup tags -> NoDup adjusted) /\
  ((List.length tags < 3)%nat ->
   exists added,
     adjusted = tags ++ added /\ incl added TagService.fallbackTags) /\
  ((3 <= List.length tags <= 5)%nat -> adjusted = tags) /\
  ((5 < List.length tags)%nat -> adjusted = firstn 5 tags).
Proof.
  intros adjusted. subst adjusted.
  split; [apply adjustTagCount_range|].
  split; [apply adjustTagCount_NoDup|].
  unfold TagService.adjustTagCount.
  split; [|split].
  - intros Hlt.
    destruct (Z.of_nat (List.length tags) <? 3)%Z eqn:E;
      [|apply Z.ltb_ge in E; lia].
    destruct (fillFallbacks_extends TagService.fallbackTags tags)
      as [added [-> [Hincl _]]]. eauto.
  - intros [Hge Hle].
    destruct (Z.of_nat (List.length tags) <? 3)%Z eqn:E;
      [apply Z.ltb_lt in E; lia|].
    destruct (5 <? Z.of_nat (List.length tags))%Z eqn:E';
      [apply Z.ltb_lt in E'; lia|]. reflexivity.
  - intros Hgt.
    destruct (Z.of_nat (List.length tags) <? 3)%Z eqn:E;
      [apply Z.ltb_lt in E; lia|].
    destruct (5 <? Z.of_nat (List.length tags))%Z eqn:E';
      [|apply Z.ltb_ge in E'; lia].
    unfold slice0. cbv zeta. change (5 <? 0)%Z with false. cbv iota.
    rewrite Z.min_l by lia. reflexivity.
Qed.

Section ParseFacts.
Variable toLowerCase : jsstring -> jsstring.

Lemma parseTags_spec (response : jsstring) :
  exists tags,
    TagService.parseTags toLowerCase (Text response) = Ok tags /\
    NoDup tags /\ Forall wellFormedTag tags.
Proof.
  unfold TagService.parseTags. cbv zeta.
  eexists. split; [reflexivity|].
  match goal with |- NoDup (unique ?l) /\ _ =>
    destruct (unique_spec l) as [Hd Hin]; split; [exact Hd|] end.
  apply Forall_forall. intros tag Htag. apply Hin in Htag.
  apply filter_In in Htag. destruct Htag as [Htag Hwords].
  apply in_map_iff in Htag. destruct Htag as [raw [<- Hraw]].
  apply filter_In in Hraw. destruct Hraw as [Hraw _].
  apply filter_In in Hraw. destruct Hraw as [_ Hlen].
  apply andb_true_iff in Hlen. destruct Hlen as [_ Hlen].
  apply Z.ltb_lt in Hlen.
  split; [|split].
  - apply forallb_forall. intros c Hc. apply filter_In in Hc. apply Hc.
  - unfold strlen in *.
    pose proof (filter_length_le TagService.allowedChar raw). lia.
  - apply Z.leb_le. exact Hwords.
Qed.

(** X24. [parseTags] returns for every text: an array without duplicates
    of tags that consist of lower-case letters, digits, white space and
    hyphens only, are shorter than 30 code units and have at most 2 words.
    On a missing text and on [null] it throws the [TypeError] of [trim]. *)
Theorem parsed_tags_are_well_formed (response : Completion) :
  match response with
  | Text text =>
      exists tags,
        TagService.parseTags toLowerCase response = Ok tags /\
        NoDup tags /\ Forall wellFormedTag tags
  | NoText =>
      TagService.parseTags toLowerCase response
      = Throw (TypeError (lit "Cannot read properties of undefined (reading 'trim')"))
  | NullText =>
      TagService.parseTags toLowerCase response
      = Throw (TypeError (lit "Cannot read properties of null (reading 'trim')"))
  end.
Proof.
  destruct response as [text| |];
    [apply parseTags_spec|reflexivity|reflexivity].
Qed.

Context {NM : Number} (w : World).

Lemma generateTags_eq (title abstract : jsstring) (tr : list Event) :
  TagService.generateTags w toLowerCase title abstract tr
  = match AiService.generateText w (TagService.tagsPrompt title abstract)
                                 TagService.tagOptions tr with
    | (Ok response, tr1) =>
        (match TagService.parseTags toLowerCase response with
         | Ok tags =>
             Ok (if ((Z.of_nat (List.length tags) <? 3)
                     || (5 <? Z.of_nat (List.length tags)))%Z%bool
                 then TagService.adjustTagCount tags else tags)
         | Throw e =>
             Throw (Error (lit "Failed to generate tags: " ++ messageOf e))
         end, tr1)
    | (Throw e, tr1) =>
        (Throw (Error (lit "Failed to generate tags: " ++ messageOf e)), tr1)
    end.
Proof.
  unfold TagService.generateTags, tryCatch, bind, liftResult, ret, throw.
  cbv zeta.
  destruct (AiService.generateText w _ _ tr) as [[response|e] tr1];
    [|reflexivity].
  destruct (TagService.parseTags toLowerCase response) as [tags|e];
    [|reflexivity].
  destruct ((Z.of_nat (List.length tags) <? 3)
            || (5 <? Z.of_nat (List.length tags)))%Z%bool; reflexivity.
Qed.

(** X25. [generateTags] returns for every text the completion gives, and
    what it returns are between 3 and 5 tags without duplicates, each of
    them well formed or a fallback.  It fails only when the completion fails
    or has no text, under the prefix of the operation, and its calls are
    those of the one completion it requests. *)
Theorem generated_tags_contract (title abstract : jsstring)
        (tr : list Event) :
  let generation :=
    AiService.generateText w (TagService.tagsPrompt title abstract)
                           TagService.tagOptions tr in
  let outcome := TagService.generateTags w toLowerCase title abstract tr in
  snd outcome = snd generation /\
  (forall text,
      fst generation = Ok (Text text) ->
      exists tags,
        fst outcome = Ok tags /\
        (3 <= List.length tags <= 5)%nat /\
        NoDup tags /\
        Forall (fun tag => wellFormedTag tag \/
                           In tag TagService.fallbackTags) tags) /\
  (fst generation = Ok NoText ->
   fst outcome
   = Throw (Error (lit "Failed to generate tags: Cannot read properties of undefined (reading 'trim')"))) /\
  (fst generation = Ok NullText ->
   fst outcome
   = Throw (Error (lit "Failed to generate tags: Cannot read properties of null (reading 'trim')"))) /\
  (forall e,
      fst generation = Throw e ->
      fst outcome
      = Throw (Error (lit "Failed to generate tags: " ++ messageOf e))).
Proof.
  intros generation outcome. subst outcome.
  rewrite generateTags_eq. fold generation.
  destruct generation as [[[text| |]|e] tr1]; cbv beta iota.
  - destruct (parseTags_spec text) as [tags [-> [Hd Hwf]]].
    cbv beta iota. cbn [fst snd].
    destruct ((Z.of_nat (List.length tags) <? 3)
              || (5 <? Z.of_nat (List.length tags)))%Z%bool eqn:Hout.
    + split; [reflexivity|].
      split; [|split; [|split]; discriminate].
      intros text' H. injection H as <-.
      exists (TagService.adjustTagCount tags).
      split; [reflexivity|].
      split; [apply adjustTagCount_range|].
      split; [apply adjustTagCount_NoDup; exact Hd|].
      unfold TagService.adjustTagCount.
      destruct (Z.of_nat (List.length tags) <? 3)%Z.
      * destruct (fillFallbacks_extends TagService.fallbackTags tags)
          as [added [-> [Hincl _]]].
        apply Forall_app. split.
        -- eapply Forall_impl; [|exact Hwf]. auto.
        -- apply Forall_forall. intros tag Hin. right. apply Hincl, Hin.
      * destruct (5 <? Z.of_nat (List.length tags))%Z.
        -- apply Forall_forall. intros tag Hin. left.
           apply slice0_in in Hin.
           rewrite Forall_forall in Hwf. apply Hwf, Hin.
        -- eapply Forall_impl; [|exact Hwf]. auto.
    + split; [reflexivity|].
      split; [|split; [|split]; discriminate].
      intros text' H. injection H as <-.
      apply orb_false_iff in Hout. destruct Hout as [H3 H5].
      apply Z.ltb_ge in H3. apply Z.ltb_ge in H5.
      exists tags. split; [reflexivity|]. split; [lia|].
      split; [exact Hd|]. eapply Forall_impl; [|exact Hwf]. auto.
  - cbn. split; [reflexivity|]. split; [discriminate|].
    split; [discriminate|]. split; [reflexivity|discriminate].
  - cbn. split; [reflexivity|]. split; [discriminate|].
    split; [reflexivity|]. split; discriminate.
  - cbn [fst snd]. split; [reflexivity|]. split; [discriminate|].
    split; [discriminate|]. split; [discriminate|].
    intros e' H. injection H as <-. reflexivity.
Qed.

End ParseFacts.
End TagFacts.

Section SimpleChatFacts.
Context {NM : Number} (w : World).

(** X26. The calls of a turn of the chat without retrieval are those of
    one completion request, for the prompt built from the whole history and
    the message.  Its answer is the completion without white space at either
    end, and the history it returns is the old one followed by the user's
    turn and the answer.  Every failure is reported under the prefix of the
    operation. *)
Theorem simple_chat_turn (message : jsstring) (options : ChatOptions)
        (tr : list Event) :
  let history := default [] (optHistory options) in
  let generation :=
    AiService.generateText
      w (SimpleChatService.responsePrompt message history)
      SimpleChatService.responseOptions tr in
  let outcome := SimpleChatService.processMessage w message options tr in
  snd outcome = snd generation /\
  (forall text,
      fst generation = Ok (Text text) ->
      fst outcome
      = Ok {| SimpleChatService.answer := trim text;
              SimpleChatService.conversationHistory :=
                history ++ [userTurn message; assistantTurn (trim text)] |}) /\
  (forall reply,
      fst outcome = Ok reply ->
      trim (SimpleChatService.answer reply) = SimpleChatService.answer reply /\
      exists text, fst generation = Ok (Text text)) /\
  (forall e,
      fst outcome = Throw e ->
      exists m, e = Error (lit "Simple chat processing failed: " ++ m)).
Proof.
  intros history generation outcome. subst outcome.
  unfold SimpleChatService.processMessage, SimpleChatService.generateResponse,
    tryCatch, bind, liftResult, ret, throw.
  cbv zeta. fold history. fold generation.
  destruct generation as [[[text| |]|e] tr1]; cbn.
  - split; [reflexivity|]. split; [|split].
    + intros text' H. injection H as <-. reflexivity.
    + intros reply H. injection H as <-. cbn.
      split; [apply trim_fixed|eauto].
    + discriminate.
  - split; [reflexivity|]. split; [discriminate|]. split; [discriminate|].
    intros e H. injection H as <-. eauto.
  - split; [reflexivity|]. split; [discriminate|]. split; [discriminate|].
    intros e H. injection H as <-. eauto.
  - split; [reflexivity|]. split; [discriminate|]. split; [discriminate|].
    intros e' H. injection H as <-. eauto.
Qed.

(** X27. [getGreeting] never throws.  It returns the completion without
    white space at either end, and the fixed greeting when the completion
    fails, is [null] or has no text; it requests at most one completion. *)
Theorem greeting_never_fails (tr : list Event) :
  let generation :=
    AiService.generateText w SimpleChatService.greetingPrompt
                           SimpleChatService.greetingOptions tr in
  exists greeting,
    SimpleChatService.getGreeting w tr = (Ok greeting, snd generation) /\
    (forall text, fst generation = Ok (Text text) -> greeting = trim text) /\
    (fst generation = Ok NoText \/ fst generation = Ok NullText ->
     greeting = SimpleChatService.fallbackGreeting) /\
    (forall e, fst generation = Throw e ->
               greeting = SimpleChatService.fallbackGreeting) /\
    (provider w = OtherProvider ->
     greeting = SimpleChatService.fallbackGreeting /\ snd generation = tr).
Proof.
  intros generation.
  unfold SimpleChatService.getGreeting, tryCatch, bind, liftResult, ret.
  fold generation.
  assert (Hother : provider w = OtherProvider ->
                   generation = (Ok NoText, tr)).
  { intros Hp. subst generation. rewrite generateText_eq, Hp. reflexivity. }
  destruct generation as [[[text| |]|e] tr1]; cbn.
  - eexists. split; [reflexivity|].
    split; [intros t H; injection H as <-; reflexivity|].
    split; [intros [H|H]; discriminate|]. split; [discriminate|].
    intros Hp. specialize (Hother Hp). discriminate.
  - eexists. split; [reflexivity|].
    split; [discriminate|]. split; [reflexivity|].
    split; [discriminate|].
    intros Hp. specialize (Hother Hp). discriminate.
  - eexists. split; [reflexivity|].
    split; [discriminate|]. split; [reflexivity|].
    split; [discriminate|].
    intros Hp. specialize (Hother Hp). injection Hother as <-. auto.
  - eexists. split; [reflexivity|].
    split; [discriminate|]. split; [intros [H|H]; discriminate|].
    split; [reflexivity|].
    intros Hp. specialize (Hother Hp). discriminate.
Qed.

End SimpleChatFacts.

Section DimensionFacts.
Context {NM : Number}.

Lemma padZeros_closed (fuel : nat) (embedding : vector) :
  (LocalEmbeddingService.embeddingDimensions - List.length embedding
   <= fuel)%nat ->
  LocalEmbeddingService.padZeros fuel embedding
  = embedding
      ++ repeat zero (LocalEmbeddingService.embeddingDimensions
                      - List.length embedding).
Proof.
  revert embedding. induction fuel as [|fuel IH]; intros embedding Hle.
  - cbn [LocalEmbeddingService.padZeros].
    replace (LocalEmbeddingService.embeddingDimensions
             - List.length embedding)%nat with 0%nat by lia.
    cbn [repeat]. rewrite app_nil_r. reflexivity.
  - cbn [LocalEmbeddingService.padZeros].
    destruct (Nat.ltb_spec (List.length embedding)
                           LocalEmbeddingService.embeddingDimensions)
      as [Hlt|Hge].
    + rewrite IH by (rewrite length_app; cbn [List.length]; lia).
      rewrite length_app. cbn [List.length].
      replace (LocalEmbeddingService.embeddingDimensions
               - List.length embedding)%nat
        with (S (LocalEmbeddingService.embeddingDimensions
                 - (List.length embedding + 1)))%nat by lia.
      rewrite <- app_assoc. reflexivity.
    + replace (LocalEmbeddingService.embeddingDimensions
               - List.length embedding)%nat with 0%nat by lia.
      cbn [repeat]. rewrite app_nil_r. reflexivity.
Qed.

(** X28. The validation of the dimensions leaves an array of exactly 384
    entries: the first 384 entries of the model's output, followed by as
    many zeros as were missing. *)
Theorem fitted_embedding_has_384_entries (embedding : vector) :
  let fitted := LocalEmbeddingService.fitDimensions embedding in
  List.length fitted = 384%nat /\
  fitted = firstn 384 embedding
             ++ repeat zero (384 - List.length embedding).
Proof.
  intros fitted.
  assert (Heq : fitted = firstn 384 embedding
                           ++ repeat zero (384 - List.length embedding)).
  { subst fitted. unfold LocalEmbeddingService.fitDimensions.
    change LocalEmbeddingService.embeddingDimensions with 384%nat.
    destruct (Nat.eqb_spec (List.length embedding) 384) as [Heq|Hne].
    - cbn [negb]. rewrite Heq, Nat.sub_diag. cbn [repeat].
      rewrite app_nil_r. rewrite <- Heq, firstn_all. reflexivity.
    - cbn [negb].
      destruct (Nat.ltb_spec 384 (List.length embedding)) as [Hlt|Hge].
      + replace (384 - List.length embedding)%nat with 0%nat by lia.
        cbn [repeat]. rewrite app_nil_r.
        unfold slice0. cbv zeta.
        change (Z.of_nat 384 <? 0)%Z with false. cbv iota.
        rewrite Z.min_l by lia. rewrite Nat2Z.id. reflexivity.
      + rewrite padZeros_closed
          by (change LocalEmbeddingService.embeddingDimensions with 384%nat;
              lia).
        change LocalEmbeddingService.embeddingDimensions with 384%nat.
        rewrite firstn_all2 by lia. reflexivity. }
  split; [|exact Heq].
  rewrite Heq, length_app, repeat_length, length_firstn. lia.
Qed.

End DimensionFacts.

Section ValidatorFacts.
Context {NM : Number}.

Lemma trimStart_empty (s : jsstring) :
  trimStart s = [] <-> forallb isWhiteSpace s = true.
Proof.
  induction s as [|c s IH]; simpl; [tauto|].
  destruct (isWhiteSpace c); simpl; [exact IH|].
  split; discriminate.
Qed.

Lemma trim_empty (s : jsstring) :
  trim s = [] <-> forallb isWhiteSpace s = true.
Proof.
  unfold trim, trimEnd. split.
  - intros H. apply (f_equal (@rev N)) in H.
    rewrite rev_involutive in H. simpl in H.
    apply trimStart_empty in H.
    rewrite forallb_forall in H.
    pose proof (trimStart_startsClean s) as Hc.
    destruct (trimStart s) as [|c t] eqn:Ht.
    + apply trimStart_empty. exact Ht.
    + simpl in Hc. rewrite (H c) in Hc; [discriminate|].
      apply in_rev. rewrite rev_involutive. left. reflexivity.
  - intros H. apply trimStart_empty in H. rewrite H. reflexivity.
Qed.

Lemma notText_false (v : JsValue) :
  notText v = false <->
  exists s, v = JsString s /\
            existsb (fun c => negb (isWhiteSpace c)) s = true.
Proof.
  assert (Hblank : forall s,
             existsb (fun c => negb (isWhiteSpace c)) s
             = negb (forallb isWhiteSpace s)).
  { induction s as [|c s IH]; simpl; [reflexivity|].
    rewrite IH. destruct (isWhiteSpace c); reflexivity. }
  split.
  - destruct v; simpl; try discriminate.
    intros H. apply orb_false_iff in H. destruct H as [_ H].
    exists s. split; [reflexivity|]. rewrite Hblank.
    destruct (forallb isWhiteSpace s) eqn:E; [|reflexivity].
    apply trim_empty in E. rewrite E in H. discriminate.
  - intros [s [-> H]]. rewrite Hblank in H. simpl.
    apply orb_false_iff. split.
    + destruct s; [discriminate|reflexivity].
    + destruct (trim s) as [|c t] eqn:E.
      * apply trim_empty in E. rewrite E in H. discriminate.
      * unfold strlen. simpl List.length. apply Z.eqb_neq. lia.
Qed.

Lemma checkText_passes (v : JsValue) (max : Z) (required tooLong : jsstring)
      (errors : list jsstring) :
  (textUpTo max v -> checkText v max required tooLong errors = errors) /\
  (~ textUpTo max v ->
   exists error, checkText v max required tooLong errors = errors ++ [error]).
Proof.
  unfold checkText, textUpTo. split.
  - intros [s [-> [Htext Hlen]]].
    replace (notText (JsString s)) with false
      by (symmetry; apply notText_false; eauto).
    simpl. destruct (max <? strlen s)%Z eqn:E; [|reflexivity].
    apply Z.ltb_lt in E. lia.
  - intros Hnot. destruct (notText v) eqn:E; [eauto|].
    apply notText_false in E. destruct E as [s [-> Htext]]. simpl.
    destruct (max <? strlen s)%Z eqn:E; [eauto|].
    apply Z.ltb_ge in E. elim Hnot. eauto.
Qed.

Lemma failed_next (errors : list jsstring) :
  failed errors = Next <-> errors = [].
Proof.
  unfold failed. destruct errors as [|e errors]; simpl; [tauto|].
  split; discriminate.
Qed.

(** X29. The validators let a request pass exactly when each of its texts
    is a string with a code unit that is not white space and within the
    limit of the field (500 for a title and a query, 5000 for an abstract,
    1000 for a message), and, for a chat, when the history is falsy or an
    array.  Every other request is answered with status 400. *)
Theorem validators_pass_texts_only (a b : JsValue) :
  (validateSearchRequest a = Next <-> textUpTo 500 a) /\
  (validateThesisCreation a b = Next <->
   textUpTo 500 a /\ textUpTo 5000 b) /\
  (validateChatRequest a b = Next <->
   textUpTo 1000 a /\
   (isTruthy b = true -> exists items, b = JsArray items)) /\
  (forall status message errors,
      validateSearchRequest a = Respond status message errors \/
      validateThesisCreation a b = Respond status message errors \/
      validateChatRequest a b = Respond status message errors ->
      status = 400%N).
Proof.
  split; [|split; [|split]].
  - unfold validateSearchRequest, textUpTo. split.
    + destruct (notText a) eqn:E; [discriminate|].
      apply notText_false in E. destruct E as [s [-> Htext]]. simpl.
      destruct (500 <? strlen s)%Z eqn:E; [discriminate|].
      apply Z.ltb_ge in E. eauto.
    + intros [s [-> [Htext Hlen]]].
      replace (notText (JsString s)) with false
        by (symmetry; apply notText_false; eauto).
      simpl. destruct (500 <? strlen s)%Z eqn:E; [|reflexivity].
      apply Z.ltb_lt in E. lia.
  - unfold validateThesisCreation. cbv zeta. rewrite failed_next. split.
    + intros H.
      assert (Ha : textUpTo 500 a \/ ~ textUpTo 500 a).
      { destruct (notText a) eqn:E.
        - right. intros [s [-> [Ht _]]].
          assert (notText (JsString s) = false)
            by (apply notText_false; eauto). congruence.
        - apply notText_false in E. destruct E as [s [-> Ht]].
          destruct (Z_le_gt_dec (strlen s) 500);
            [left; unfold textUpTo; eauto|].
          right. intros [s' [Heq [_ Hl]]]. injection Heq as <-. lia. }
      destruct Ha as [Ha|Ha].
      * rewrite (proj1 (checkText_passes a 500 _ _ []) Ha) in H.
        split; [exact Ha|].
        destruct (notText b) eqn:E.
        -- unfold checkText in H. rewrite E in H. discriminate.
        -- apply notText_false in E. destruct E as [s [-> Ht]].
           unfold checkText in H.
           replace (notText (JsString s)) with false in H
             by (symmetry; apply notText_false; eauto).
           simpl in H. destruct (5000 <? strlen s)%Z eqn:E;
             [discriminate|].
           apply Z.ltb_ge in E. unfold textUpTo. eauto.
      * destruct (proj2 (checkText_passes a 500
                           (lit "Title is required and must be a non-empty string")
                           (lit "Title cannot exceed 500 characters") [])
                        Ha) as [error He].
        rewrite He in H. unfold checkText in H.
        destruct (notText b); [discriminate|].
        destruct (longerThan 5000 b); discriminate.
    + intros [Ha Hb].
      rewrite (proj1 (checkText_passes a 500 _ _ []) Ha).
      rewrite (proj1 (checkText_passes b 5000 _ _ []) Hb). reflexivity.
  - unfold validateChatRequest. cbv zeta. rewrite failed_next. split.
    + intros H.
      assert (Hm : checkText a 1000
                     (lit "Message is required and must be a non-empty string")
                     (lit "Message cannot exceed 1000 characters") [] = []).
      { destruct (isTruthy b && negb (isArray b))%bool; [|exact H].
        destruct (checkText a 1000 _ _ []); discriminate. }
      rewrite Hm in H. split.
      * unfold checkText in Hm. destruct (notText a) eqn:E; [discriminate|].
        apply notText_false in E. destruct E as [s [-> Ht]].
        simpl in Hm. destruct (1000 <? strlen s)%Z eqn:E; [discriminate|].
        apply Z.ltb_ge in E. unfold textUpTo. eauto.
      * intros Ht. rewrite Ht in H.
        destruct b; simpl in H; try discriminate. eauto.
    + intros [Ha Hb].
      rewrite (proj1 (checkText_passes a 1000 _ _ []) Ha).
      destruct (isTruthy b) eqn:Et; [|reflexivity].
      destruct (Hb eq_refl) as [items ->]. reflexivity.
  - intros status message errors.
    unfold validateSearchRequest, validateThesisCreation,
      validateChatRequest, failed. cbv zeta.
    intros [H|[H|H]].
    + destruct (notText a); [congruence|].
      destruct (longerThan 500 a); congruence.
    + destruct (0 <? _)%Z; congruence.
    + destruct (0 <? _)%Z; congruence.
Qed.

End ValidatorFacts.

(* ================================================================= *)
(** ** Scenarios of the further services *)

Section MoreScenarios.

(** A completion with a prefix, capitals, a sentence, a tag of three words
    and a repeated tag. *)
Example parseTags_sample :
  TagService.parseTags
    asciiLower
    (Text (lit "Tags: Machine Learning, NLP,, deep-learning, Done., a b c, nlp"))
  = Ok [lit "machine learning"; lit "nlp"; lit "deep-learning"].
Proof. vm_compute. reflexivity. Qed.

(** A tag of symbols only is kept as the empty tag. *)
Example parseTags_empty_tag :
  TagService.parseTags asciiLower (Text (lit "###, ml, ai"))
  = Ok [lit ""; lit "ml"; lit "ai"].
Proof. vm_compute. reflexivity. Qed.

(** A fallback that is already there is not added again. *)
Example adjustTagCount_sample :
  TagService.adjustTagCount [lit "academic"; lit "nlp"]
  = [lit "academic"; lit "nlp"; lit "research"].
Proof. vm_compute. reflexivity. Qed.

(** One completion without tags: the service falls back. *)
Example generateTags_sample :
  run (TagService.generateTags Samples.online asciiLower
                               (lit "A title") (lit "An abstract"))
  = Ok [lit "neural networks"; lit "research"; lit "academic"].
Proof. vm_compute. reflexivity. Qed.

(** Capitals sort before small letters. *)
Example getSuggestedQuestions_sample :
  run (getSuggestedQuestions
         (ret (A := list jsstring) (NM := Float64)
              [lit "nlp"; lit "Vision"; lit "ai"]))
  = Ok [lit "What theses are related to Vision?";
        lit "Can you summarize theses about ai?";
        lit "What are the most recent theses in the repository?";
        lit "Tell me about research on nlp."].
Proof. vm_compute. reflexivity. Qed.

Example summarizeThesis_sample :
  run (summarizeThesis Samples.online (lit "d1")) = Ok (lit "neural networks")
  /\ run (summarizeThesis Samples.offline (lit "d9"))
     = Throw (Error (lit "Thesis summarization failed: Thesis not found")).
Proof. split; vm_compute; reflexivity. Qed.

(** A blank message and a history that is not an array. *)
Example validateChatRequest_sample :
  validateChatRequest (JsString (lit "  ")) (@JsNumber Float64 1%float)
  = Respond 400 (lit "Validation failed")
            (Some [lit "Message is required and must be a non-empty string";
                   lit "Conversation history must be an array"])
  /\ validateChatRequest (NM := Float64) (JsString (lit "hello")) JsUndefined
     = Next.
Proof. split; vm_compute; reflexivity. Qed.

End MoreScenarios.
